(** * Verification of the AML UI backend core ([aml_ui/services.py])

    Shallow embedding of the analytics core of the entity-resolution
    frontend: risk scoring, group enrichment, summary statistics, group
    filtering, network construction, snapshot correlation and the report
    ledger.

    Modelling conventions.
    - Python exceptions are the constructors of [exn]; a Python function
      that may raise returns a [result].
    - A Python [float] is a [pyfloat]: an exact rational, [+inf], [-inf]
      or NaN.  Finite arithmetic is exact (the rounding of finite results to
      53 bits is not modelled); a finite result whose magnitude reaches the
      binary64 overflow threshold becomes an infinity, as in IEEE 754.
    - A JSON document loaded by [json.loads] is a [json] value; objects are
      association lists in insertion order.
    - [datetime] values carry their wall-clock time in microseconds and an
      optional UTC offset (aware) or none (naive). *)

From Stdlib Require Import ZArith QArith Qround Qabs Bool List String Ascii Lia Lqa.
From Stdlib Require Import Sorting.Mergesort Sorting.Sorted Sorting.Permutation Orders.
Import ListNotations.

Set Warnings "-register-all".
Open Scope Z_scope.

(** ** Python exceptions and the result monad *)

Inductive exn :=
| AttributeError
| TypeError
| ValueError (msg : string)
| OverflowError
| ZeroDivisionError.

Inductive result (A : Type) : Type :=
| Ok (a : A)
| Err (e : exn).
Arguments Ok {A} a.
Arguments Err {A} e.

Definition bind {A B} (m : result A) (k : A -> result B) : result B :=
  match m with
  | Ok a => k a
  | Err e => Err e
  end.

Notation "'let*' x ':=' m 'in' k" := (bind m (fun x => k))
  (at level 200, x name, m at level 100, k at level 200).

(** [for x in xs: ...] threading an accumulator that may raise. *)
Fixpoint fold_result {A B} (f : B -> A -> result B) (xs : list A) (acc : B)
  : result B :=
  match xs with
  | [] => Ok acc
  | x :: xs' => let* acc' := f acc x in fold_result f xs' acc'
  end.

Fixpoint map_result {A B} (f : A -> result B) (xs : list A) : result (list B) :=
  match xs with
  | [] => Ok []
  | x :: xs' =>
      let* y := f x in
      let* ys := map_result f xs' in
      Ok (y :: ys)
  end.

(** ** Python floats *)

Inductive pyfloat :=
| Fin (q : Q)
| PInf
| NInf
| NaN.

(** Smallest magnitude that rounds to infinity in binary64:
    [2^1024 - 2^970]. *)
Definition overflow_threshold : Q := inject_Z (2 ^ 1024 - 2 ^ 970).

(** A finite exact result, sent to an infinity when it overflows. *)
Definition fl (q : Q) : pyfloat :=
  if Qle_bool overflow_threshold (Qabs q) then
    (if Qlt_le_dec 0 q then PInf else NInf)
  else Fin q.

Definition Qlt_bool (a b : Q) : bool := negb (Qle_bool b a).

Definition fz (z : Z) : pyfloat := Fin (inject_Z z).

Definition f_add (x y : pyfloat) : pyfloat :=
  match x, y with
  | NaN, _ | _, NaN => NaN
  | PInf, NInf | NInf, PInf => NaN
  | PInf, _ | _, PInf => PInf
  | NInf, _ | _, NInf => NInf
  | Fin a, Fin b => fl (a + b)
  end.

Definition sign_q (a : Q) : comparison := Qcompare a 0.

Definition f_mul (x y : pyfloat) : pyfloat :=
  match x, y with
  | NaN, _ | _, NaN => NaN
  | Fin a, Fin b => fl (a * b)
  | PInf, PInf | NInf, NInf => PInf
  | PInf, NInf | NInf, PInf => NInf
  | PInf, Fin b | Fin b, PInf =>
      match sign_q b with Eq => NaN | Gt => PInf | Lt => NInf end
  | NInf, Fin b | Fin b, NInf =>
      match sign_q b with Eq => NaN | Gt => NInf | Lt => PInf end
  end.

(** Python's [/] on floats raises on a zero divisor. *)
Definition f_div (x y : pyfloat) : result pyfloat :=
  match x, y with
  | _, Fin b => if Qeq_bool b 0 then Err ZeroDivisionError else
      match x with
      | Fin a => Ok (fl (a / b))
      | NaN => Ok NaN
      | PInf => Ok (match sign_q b with Lt => NInf | _ => PInf end)
      | NInf => Ok (match sign_q b with Lt => PInf | _ => NInf end)
      end
  | NaN, _ | _, NaN => Ok NaN
  | Fin _, _ => Ok (Fin 0)
  | _, _ => Ok NaN
  end.

(** [x < y]; every comparison with NaN is false. *)
Definition f_lt (x y : pyfloat) : bool :=
  match x, y with
  | NaN, _ | _, NaN => false
  | Fin a, Fin b => Qlt_bool a b
  | NInf, NInf => false
  | NInf, _ => true
  | _, PInf => match x with PInf => false | _ => true end
  | _, _ => false
  end.

Definition f_gt (x y : pyfloat) : bool := f_lt y x.

Definition f_le (x y : pyfloat) : bool :=
  match x, y with
  | NaN, _ | _, NaN => false
  | Fin a, Fin b => Qle_bool a b
  | NInf, _ => true
  | _, PInf => true
  | _, _ => false
  end.

Definition f_is_nan (x : pyfloat) : bool :=
  match x with NaN => true | _ => false end.

Definition f_truthy (x : pyfloat) : bool :=
  match x with Fin a => negb (Qeq_bool a 0) | _ => true end.

(** [float(n)] for a Python int [n]. *)
Definition float_of_int (z : Z) : result pyfloat :=
  if Qle_bool overflow_threshold (Qabs (inject_Z z)) then Err OverflowError
  else Ok (fz z).

(** Round-half-to-even of a rational to an integer. *)
Definition round_half_even (q : Q) : Z :=
  let n := Qnum q in
  let d := Zpos (Qden q) in
  let f := n / d in
  let r := n mod d in
  match Z.compare (2 * r) d with
  | Lt => f
  | Gt => f + 1
  | Eq => if Z.even f then f else f + 1
  end.

(** [round(x)] with no digit count: a Python int, raising on NaN and
    infinities. *)
Definition py_round (x : pyfloat) : result Z :=
  match x with
  | Fin q => Ok (round_half_even q)
  | NaN => Err (ValueError "cannot convert float NaN to integer")
  | _ => Err OverflowError
  end.

(** [round(x, 2)]: a float; NaN and infinities are returned unchanged. *)
Definition py_round2 (x : pyfloat) : pyfloat :=
  match x with
  | Fin q => Fin (inject_Z (round_half_even (q * 100)) / 100)
  | _ => x
  end.

(** *** [math.log1p]

    The natural logarithm is computed by the series
    [ln m = 2 atanh ((m - 1) / (m + 1))] after scaling the argument by a
    power of two; the result is a rational approximation. *)
Fixpoint atanh_series (z z2 : Q) (k : nat) (n : Z) : Q :=
  match k with
  | O => 0
  | S k' => Qred (z / inject_Z n) + atanh_series (Qred (z * z2)) z2 k' (n + 2)
  end.

Definition atanh_approx (z : Q) : Q := atanh_series z (Qred (z * z)) 16 1.

Definition ln2_approx : Q := Qred (2 * atanh_approx (1 # 3)).

Definition ln_pos (y : Q) : Q :=
  let k := Z.log2 (Qfloor y) in
  let m := Qred (y / inject_Z (2 ^ k)) in
  Qred (inject_Z k * ln2_approx + 2 * atanh_approx (Qred ((m - 1) / (m + 1)))).

Definition log1p (x : pyfloat) : result pyfloat :=
  match x with
  | NaN => Ok NaN
  | PInf => Ok PInf
  | NInf => Err (ValueError "math domain error")
  | Fin q =>
      if Qle_bool q (-1) then Err (ValueError "math domain error")
      else Ok (Fin (ln_pos (1 + q)))
  end.

(** ** [compute_risk_score] *)

Definition q_of_decimal (n : Z) (e : positive) : Q := n # (10 ^ e).

Definition raw_risk_score (member_count transaction_count : Z) (total_amount : pyfloat)
  (unique_counterparties : Z) (outgoing_ratio : pyfloat) : result pyfloat :=
  let* exposure :=
    if f_gt total_amount (Fin 0) then log1p total_amount else Ok (Fin 0) in
  let* exposure_scale :=
    if f_truthy exposure then
      let* l := log1p (fz 250000) in
      let* d := f_div exposure l in
      Ok (f_mul d (fz 55))
    else Ok (Fin 0) in
  let* mc := float_of_int member_count in
  let* tc := float_of_int transaction_count in
  let* uc := float_of_int unique_counterparties in
  let structural :=
    f_add (f_add (f_mul mc (Fin (q_of_decimal 45 1))) (f_mul tc (Fin (q_of_decimal 22 1))))
          (f_mul uc (Fin (q_of_decimal 15 1))) in
  let directionality := f_mul outgoing_ratio (fz 18) in
  Ok (f_add (f_add structural exposure_scale) directionality).

(** [int(max(1.0, min(99.0, round(raw_score))))]: the builtin [min] keeps
    its first argument unless the second is smaller, [max] unless the second
    is larger. *)
Definition clamp_score (r : Z) : Z :=
  if r <? 99 then (if 1 <? r then r else 1) else 99.

Definition compute_risk_score (member_count transaction_count : Z) (total_amount : pyfloat)
  (unique_counterparties : Z) (outgoing_ratio : pyfloat) : result Z :=
  let* raw_score := raw_risk_score member_count transaction_count total_amount
                      unique_counterparties outgoing_ratio in
  let* r := py_round raw_score in
  Ok (clamp_score r).

(** ** JSON values as loaded by [json.loads] *)

Inductive json :=
| JNull
| JBool (b : bool)
| JInt (z : Z)
| JFloat (f : pyfloat)
| JStr (s : string)
| JList (l : list json)
| JObj (kvs : list (string * json)).

Definition dict := list (string * json).

(** [k in d] / [d[k]] on a dict. *)
Fixpoint dict_lookup (d : dict) (k : string) : option json :=
  match d with
  | [] => None
  | (k', v) :: d' => if String.eqb k k' then Some v else dict_lookup d' k
  end.

(** [d.get(k)] on a dict. *)
Definition dict_get (d : dict) (k : string) : json :=
  match dict_lookup d k with Some v => v | None => JNull end.

(** [d.get(k, default)] on a dict. *)
Definition dict_get_default (d : dict) (k : string) (default : json) : json :=
  match dict_lookup d k with Some v => v | None => default end.

(** [v.get(k)] on an arbitrary value: only dicts have [get]. *)
Definition json_get (v : json) (k : string) : result json :=
  match v with
  | JObj d => Ok (dict_get d k)
  | _ => Err AttributeError
  end.

Definition json_get_default (v : json) (k : string) (default : json) : result json :=
  match v with
  | JObj d => Ok (dict_get_default d k default)
  | _ => Err AttributeError
  end.

(** [bool(v)]. *)
Definition truthy (v : json) : bool :=
  match v with
  | JNull => false
  | JBool b => b
  | JInt z => negb (z =? 0)
  | JFloat f => f_truthy f
  | JStr s => negb (String.eqb s "")
  | JList l => match l with [] => false | _ => true end
  | JObj d => match d with [] => false | _ => true end
  end.

(** [v or default]. *)
Definition json_or (v default : json) : json := if truthy v then v else default.

(** Lists and dicts are unhashable: they cannot be set elements. *)
Definition hashable (v : json) : bool :=
  match v with JList _ | JObj _ => false | _ => true end.

(** The numeric value of a bool, int or float, which compare equal across
    the three types ([True == 1 == 1.0]). *)
Definition json_number (v : json) : option pyfloat :=
  match v with
  | JBool b => Some (if b then fz 1 else fz 0)
  | JInt z => Some (fz z)
  | JFloat f => Some f
  | _ => None
  end.

Definition f_eq (x y : pyfloat) : bool :=
  match x, y with
  | Fin a, Fin b => Qeq_bool a b
  | PInf, PInf | NInf, NInf => true
  | _, _ => false
  end.

(** Python's [==] on JSON values. *)
Fixpoint py_eq (a b : json) {struct a} : bool :=
  let fix list_eq (l1 l2 : list json) : bool :=
    match l1, l2 with
    | [], [] => true
    | x :: l1', y :: l2' => py_eq x y && list_eq l1' l2'
    | _, _ => false
    end in
  let fix dict_sub (d1 : list (string * json)) (d2 : dict) : bool :=
    match d1 with
    | [] => true
    | (k, x) :: d1' =>
        match dict_lookup d2 k with
        | Some y => py_eq x y && dict_sub d1' d2
        | None => false
        end
    end in
  match a, b with
  | JNull, JNull => true
  | JStr s, JStr t => String.eqb s t
  | JList l1, JList l2 => list_eq l1 l2
  | JObj d1, JObj d2 => (List.length d1 =? List.length d2)%nat && dict_sub d1 d2
  | _, _ =>
      match json_number a, json_number b with
      | Some x, Some y => f_eq x y
      | _, _ => false
      end
  end.

(** Matching of hashable values as set elements and dict keys: [==],
    except that a NaN matches a NaN (Python finds a key by identity before
    comparing, and never compares two keys that are one object). *)
Definition f_key_eq (x y : pyfloat) : bool :=
  match x, y with
  | NaN, NaN => true
  | _, _ => f_eq x y
  end.

Definition key_eq (a b : json) : bool :=
  match a, b with
  | JNull, JNull => true
  | JStr s, JStr t => String.eqb s t
  | _, _ =>
      match json_number a, json_number b with
      | Some x, Some y => f_key_eq x y
      | _, _ => false
      end
  end.

(** [x in s] for a Python set [s], given as the list of its elements. *)
Definition set_mem (x : json) (s : list json) : result bool :=
  if hashable x then Ok (existsb (key_eq x) s) else Err TypeError.

(** [s.add(x)]. *)
Definition set_add (s : list json) (x : json) : result (list json) :=
  if hashable x then
    Ok (if existsb (key_eq x) s then s else s ++ [x])
  else Err TypeError.

(** [set(xs)]. *)
Definition set_of (xs : list json) : result (list json) := fold_result set_add xs [].

Fixpoint chars_of (s : string) : list json :=
  match s with
  | EmptyString => []
  | String c s' => JStr (String c EmptyString) :: chars_of s'
  end.

(** [for x in v]: lists give their items, dicts their keys, strings their
    characters; other values are not iterable. *)
Definition py_iter (v : json) : result (list json) :=
  match v with
  | JList l => Ok l
  | JObj d => Ok (map (fun kv => JStr (fst kv)) d)
  | JStr s => Ok (chars_of s)
  | _ => Err TypeError
  end.

(** [len(v)]. *)
Definition py_len (v : json) : result Z :=
  match v with
  | JList l => Ok (Z.of_nat (List.length l))
  | JObj d => Ok (Z.of_nat (List.length d))
  | JStr s => Ok (Z.of_nat (String.length s))
  | _ => Err TypeError
  end.

(** ** Strings *)

Definition lower_ascii (c : ascii) : ascii :=
  let n := nat_of_ascii c in
  if (65 <=? n)%nat && (n <=? 90)%nat then ascii_of_nat (n + 32) else c.

Fixpoint str_lower (s : string) : string :=
  match s with
  | EmptyString => EmptyString
  | String c s' => String (lower_ascii c) (str_lower s')
  end.

(** [v.lower()]: only strings have it. *)
Definition json_lower (v : json) : result string :=
  match v with
  | JStr s => Ok (str_lower s)
  | _ => Err AttributeError
  end.

(** [str.isspace] on one character (ASCII range). *)
Definition is_space (c : ascii) : bool :=
  let n := nat_of_ascii c in
  ((9 <=? n)%nat && (n <=? 13)%nat) || ((28 <=? n)%nat && (n <=? 32)%nat).

Fixpoint lstrip (s : string) : string :=
  match s with
  | EmptyString => EmptyString
  | String c s' => if is_space c then lstrip s' else s
  end.

Fixpoint str_rev (s : string) (acc : string) : string :=
  match s with
  | EmptyString => acc
  | String c s' => str_rev s' (String c acc)
  end.

(** [s.strip()]. *)
Definition strip (s : string) : string :=
  str_rev (lstrip (str_rev (lstrip s) EmptyString)) EmptyString.

(** [s.replace(old, new)] for a one-character [old]. *)
Fixpoint replace_char (c : ascii) (new s : string) : string :=
  match s with
  | EmptyString => EmptyString
  | String c' s' =>
      if Ascii.eqb c c' then new ++ replace_char c new s'
      else String c' (replace_char c new s')
  end.

(** ** [datetime] values and [parse_iso_datetime] *)

Record datetime := mk_datetime {
  dt_wall : Z;             (* wall-clock time, microseconds since 1970-01-01 *)
  dt_offset : option Z     (* UTC offset in microseconds; [None]: naive *)
}.

(** Ordering comparisons between a naive and an aware datetime raise
    [TypeError]; two aware datetimes compare as instants. *)
Definition dt_cmp (a b : datetime) : result comparison :=
  match dt_offset a, dt_offset b with
  | None, None => Ok (Z.compare (dt_wall a) (dt_wall b))
  | Some oa, Some ob => Ok (Z.compare (dt_wall a - oa) (dt_wall b - ob))
  | _, _ => Err TypeError
  end.

Definition dt_lt (a b : datetime) : result bool :=
  let* c := dt_cmp a b in Ok (match c with Lt => true | _ => false end).

Definition dt_gt (a b : datetime) : result bool := dt_lt b a.

Definition digit_val (c : ascii) : option Z :=
  let n := nat_of_ascii c in
  if (48 <=? n)%nat && (n <=? 57)%nat then Some (Z.of_nat (n - 48)) else None.

Fixpoint parse_digits (n : nat) (cs : list ascii) (acc : Z) : option (Z * list ascii) :=
  match n with
  | O => Some (acc, cs)
  | S n' =>
      match cs with
      | c :: cs' =>
          match digit_val c with
          | Some d => parse_digits n' cs' (acc * 10 + d)
          | None => None
          end
      | [] => None
      end
  end.

Definition is_leap (y : Z) : bool :=
  (Z.eqb (y mod 4) 0 && negb (Z.eqb (y mod 100) 0)) || Z.eqb (y mod 400) 0.

Definition days_in_month (y m : Z) : Z :=
  if Z.eqb m 2 then (if is_leap y then 29 else 28)
  else if Z.eqb m 4 || Z.eqb m 6 || Z.eqb m 9 || Z.eqb m 11 then 30 else 31.

(** Days from 1970-01-01 to a proleptic Gregorian date. *)
Definition days_from_civil (y m d : Z) : Z :=
  let y' := if m <=? 2 then y - 1 else y in
  let era := y' / 400 in
  let yoe := y' - era * 400 in
  let mp := (m + 9) mod 12 in
  let doy := (153 * mp + 2) / 5 + d - 1 in
  let doe := yoe * 365 + yoe / 4 - yoe / 100 + doy in
  era * 146097 + doe - 719468.

Definition wall_micros (y mo d h mi s us : Z) : Z :=
  (((days_from_civil y mo d * 24 + h) * 60 + mi) * 60 + s) * 1000000 + us.

(** [YYYY-MM-DD]. *)
Definition parse_date (cs : list ascii) : option (Z * Z * Z * list ascii) :=
  match parse_digits 4 cs 0 with
  | Some (y, "-"%char :: r1) =>
      match parse_digits 2 r1 0 with
      | Some (m, "-"%char :: r2) =>
          match parse_digits 2 r2 0 with
          | Some (d, r3) => Some (y, m, d, r3)
          | None => None
          end
      | _ => None
      end
  | _ => None
  end.

(** [HH[:MM[:SS[.fff[fff]]]]], consuming the whole input. *)
Definition parse_hh_mm_ss_ff (cs : list ascii) : option (Z * Z * Z * Z) :=
  match parse_digits 2 cs 0 with
  | Some (h, []) => Some (h, 0, 0, 0)
  | Some (h, ":"%char :: r1) =>
      match parse_digits 2 r1 0 with
      | Some (m, []) => Some (h, m, 0, 0)
      | Some (m, ":"%char :: r2) =>
          match parse_digits 2 r2 0 with
          | Some (s, []) => Some (h, m, s, 0)
          | Some (s, "."%char :: r3) =>
              if (List.length r3 =? 3)%nat then
                match parse_digits 3 r3 0 with
                | Some (f, []) => Some (h, m, s, f * 1000)
                | _ => None
                end
              else if (List.length r3 =? 6)%nat then
                match parse_digits 6 r3 0 with
                | Some (f, []) => Some (h, m, s, f)
                | _ => None
                end
              else None
          | _ => None
          end
      | _ => None
      end
  | _ => None
  end.

(** Split a time string at its first [+] or [-]. *)
Fixpoint split_tz (cs : list ascii) : list ascii * option (bool * list ascii) :=
  match cs with
  | [] => ([], None)
  | c :: cs' =>
      if Ascii.eqb c "+"%char then ([], Some (false, cs'))
      else if Ascii.eqb c "-"%char then ([], Some (true, cs'))
      else let (t, z) := split_tz cs' in (c :: t, z)
  end.

Definition day_micros : Z := 86400 * 1000000.

(** [datetime.fromisoformat], with the grammar it accepts before Python
    3.11: [YYYY-MM-DD[*HH[:MM[:SS[.fff[fff]]]][+HH:MM[:SS[.ffffff]]]]];
    [None] where it raises [ValueError]. *)
Definition fromisoformat (s : string) : option datetime :=
  match parse_date (list_ascii_of_string s) with
  | None => None
  | Some (y, mo, d, rest) =>
      if negb ((1 <=? y) && (y <=? 9999) && (1 <=? mo) && (mo <=? 12)
               && (1 <=? d) && (d <=? days_in_month y mo)) then None else
      match rest with
      | [] => Some (mk_datetime (wall_micros y mo d 0 0 0 0) None)
      | _sep :: trest =>
          let (tpart, tz) := split_tz trest in
          match parse_hh_mm_ss_ff tpart with
          | None => None
          | Some (h, mi, se, us) =>
              if negb ((h <=? 23) && (mi <=? 59) && (se <=? 59)) then None else
              let wall := wall_micros y mo d h mi se us in
              match tz with
              | None => Some (mk_datetime wall None)
              | Some (neg, tzs) =>
                  if negb ((List.length tzs =? 5)%nat || (List.length tzs =? 8)%nat
                           || (List.length tzs =? 15)%nat) then None else
                  match parse_hh_mm_ss_ff tzs with
                  | None => None
                  | Some (th, tm, ts, tus) =>
                      let off := (((th * 60 + tm) * 60 + ts) * 1000000 + tus) in
                      let off := if neg then - off else off in
                      if Z.abs off <? day_micros then Some (mk_datetime wall (Some off))
                      else None
                  end
              end
          end
      end
  end.

(** [parse_iso_datetime] (data_access.py): falsy values give [None], a
    trailing [Z] becomes [+00:00], unparsable strings give [None] and a naive
    result is taken as UTC.  A truthy non-string has no [replace]. *)
Definition parse_iso_datetime (raw : json) : result (option datetime) :=
  if negb (truthy raw) then Ok None else
  match raw with
  | JStr s =>
      match fromisoformat (replace_char "Z"%char "+00:00" s) with
      | None => Ok None
      | Some d =>
          Ok (Some (match dt_offset d with
                    | None => mk_datetime (dt_wall d) (Some 0)
                    | Some _ => d
                    end))
      end
  | _ => Err AttributeError
  end.

(** ** [enrich_group] *)

(** The builtins [min(a, b)] / [max(a, b)] and [min(xs)] / [max(xs)]: the
    running value is replaced only by a strictly smaller (larger) item. *)
Definition py_min2 (a b : pyfloat) : pyfloat := if f_lt b a then b else a.
Definition py_max2 (a b : pyfloat) : pyfloat := if f_gt b a then b else a.

Definition py_min_by {A} (lt : A -> A -> result bool) (x : A) (xs : list A) : result A :=
  fold_result (fun cur y => let* b := lt y cur in Ok (if b then y else cur)) xs x.

Definition py_max_by {A} (lt : A -> A -> result bool) (x : A) (xs : list A) : result A :=
  fold_result (fun cur y => let* b := lt cur y in Ok (if b then y else cur)) xs x.

Definition f_lt_r (a b : pyfloat) : result bool := Ok (f_lt a b).
Definition z_lt_r (a b : Z) : result bool := Ok (a <? b).

Record metrics := mk_metrics {
  member_count : Z;
  transaction_count : Z;
  total_amount : pyfloat;
  unique_counterparties : Z;
  outgoing_ratio : pyfloat;
  first_seen : option datetime;
  last_seen : option datetime;
  min_transaction_amount : option pyfloat;
  max_transaction_amount : option pyfloat;
  risk_score : Z
}.

(** A transaction copied by [dict(tx)] with its ["parsed_timestamp"]. *)
Record parsed_tx := mk_parsed_tx {
  ptx_fields : dict;
  ptx_parsed_timestamp : option datetime
}.

(** An enriched group: the copied raw dict with ["_metrics"],
    ["_transactions"] and ["_display_name"] added. *)
Record egroup := mk_egroup {
  eg_fields : dict;
  eg_metrics : metrics;
  eg_transactions : list parsed_tx;
  eg_display_name : json
}.

Definition group_id (g : egroup) : json := dict_get (eg_fields g) "group_id".

(** The local variables of the transaction loop of [enrich_group]. *)
Record enrich_acc := mk_enrich_acc {
  acc_total : pyfloat;
  acc_counterparties : list json;
  acc_outgoing : Z;
  acc_timestamps : list datetime;
  acc_min : option pyfloat;
  acc_max : option pyfloat;
  acc_parsed : list parsed_tx
}.

Definition enrich_acc0 : enrich_acc := mk_enrich_acc (Fin 0) [] 0 [] None None [].

(** [isinstance(v, (int, float))] followed by [float(v)]; bools are ints. *)
Definition numeric_amount (v : json) : option (result pyfloat) :=
  match v with
  | JBool b => Some (Ok (if b then fz 1 else fz 0))
  | JInt z => Some (float_of_int z)
  | JFloat f => Some (Ok f)
  | _ => None
  end.

Definition outgoing_directions : list string := ["out"%string; "outgoing"%string; "debit"%string].
Definition incoming_directions : list string := ["in"%string; "incoming"%string; "credit"%string].

Definition str_mem (s : string) (l : list string) : bool := existsb (String.eqb s) l.

(** [(tx.get("direction") or "").lower()]. *)
Definition normalized_direction (tx : dict) : result string :=
  json_lower (json_or (dict_get tx "direction") (JStr "")).

(** One iteration of [for tx in transactions:]. *)
Definition enrich_step (a : enrich_acc) (tx : json) : result enrich_acc :=
  match tx with
  | JObj d =>
      let* amt :=
        match numeric_amount (dict_get d "amount") with
        | Some r =>
            let* v := r in
            Ok (f_add (acc_total a) v,
                Some (match acc_min a with None => v | Some m => py_min2 m v end),
                Some (match acc_max a with None => v | Some m => py_max2 m v end))
        | None => Ok (acc_total a, acc_min a, acc_max a)
        end in
      let '(total, mn, mx) := amt in
      let counterparty := dict_get d "counterparty_id" in
      let* cps :=
        if truthy counterparty then set_add (acc_counterparties a) counterparty
        else Ok (acc_counterparties a) in
      let* dir := normalized_direction d in
      let outgoing := if str_mem dir outgoing_directions then acc_outgoing a + 1
                      else acc_outgoing a in
      let* ts := parse_iso_datetime (dict_get d "timestamp") in
      let stamps := match ts with
                    | Some t => acc_timestamps a ++ [t]
                    | None => acc_timestamps a
                    end in
      Ok (mk_enrich_acc total cps outgoing stamps mn mx
            (acc_parsed a ++ [mk_parsed_tx d ts]))
  | _ => Err AttributeError
  end.

Definition opt_min_dt (xs : list datetime) : result (option datetime) :=
  match xs with
  | [] => Ok None
  | x :: xs' => let* m := py_min_by dt_lt x xs' in Ok (Some m)
  end.

Definition opt_max_dt (xs : list datetime) : result (option datetime) :=
  match xs with
  | [] => Ok None
  | x :: xs' => let* m := py_max_by dt_lt x xs' in Ok (Some m)
  end.

(** [outgoing_count / transaction_count if transaction_count else 0.0]. *)
Definition ratio (outgoing tc : Z) : pyfloat :=
  if tc =? 0 then Fin 0 else Fin (inject_Z outgoing / inject_Z tc).

Definition enrich_group (raw_group : dict) : result egroup :=
  let group := raw_group in
  let members := json_or (dict_get group "members") (JList []) in
  let transactions := json_or (dict_get group "transactions") (JList []) in
  let* txs := py_iter transactions in
  let* a := fold_result enrich_step txs enrich_acc0 in
  let* tc := py_len transactions in
  let oratio := ratio (acc_outgoing a) tc in
  let* mc := py_len members in
  let uc := Z.of_nat (List.length (acc_counterparties a)) in
  let* risk := compute_risk_score mc tc (acc_total a) uc oratio in
  let* first := opt_min_dt (acc_timestamps a) in
  let* last := opt_max_dt (acc_timestamps a) in
  let m := mk_metrics mc tc (py_round2 (acc_total a)) uc oratio first last
             (acc_min a) (acc_max a) risk in
  let canonical := json_or (dict_get group "canonical_attributes") (JObj []) in
  let* name := json_get canonical "name" in
  Ok (mk_egroup group m (acc_parsed a) (json_or name (dict_get group "group_id"))).

(** ** [summarize_groups] *)

Module SummaryStats.
Record t := mk {
  min_total_amount : option pyfloat;
  max_total_amount : option pyfloat;
  min_risk : option Z;
  max_risk : option Z;
  min_date : option datetime;
  max_date : option datetime;
  min_tx_amount : option pyfloat;
  max_tx_amount : option pyfloat
}.
End SummaryStats.

Definition opt_list {A} (o : option A) : list A :=
  match o with Some x => [x] | None => [] end.

Definition opt_min_by {A} (lt : A -> A -> result bool) (xs : list A) : result (option A) :=
  match xs with
  | [] => Ok None
  | x :: xs' => let* m := py_min_by lt x xs' in Ok (Some m)
  end.

Definition opt_max_by {A} (lt : A -> A -> result bool) (xs : list A) : result (option A) :=
  match xs with
  | [] => Ok None
  | x :: xs' => let* m := py_max_by lt x xs' in Ok (Some m)
  end.

Definition summarize_groups (groups : list egroup) : result SummaryStats.t :=
  match groups with
  | [] => Ok (SummaryStats.mk None None None None None None None None)
  | _ =>
      let totals := map (fun g => total_amount (eg_metrics g)) groups in
      let risks := map (fun g => risk_score (eg_metrics g)) groups in
      let tx_min_values := flat_map (fun g => opt_list (min_transaction_amount (eg_metrics g))) groups in
      let tx_max_values := flat_map (fun g => opt_list (max_transaction_amount (eg_metrics g))) groups in
      let dates := flat_map (fun g => opt_list (first_seen (eg_metrics g))
                                       ++ opt_list (last_seen (eg_metrics g))) groups in
      let* min_total := opt_min_by f_lt_r totals in
      let* max_total := opt_max_by f_lt_r totals in
      let* min_r := opt_min_by z_lt_r risks in
      let* max_r := opt_max_by z_lt_r risks in
      let* min_d := opt_min_by dt_lt dates in
      let* max_d := opt_max_by dt_lt dates in
      let* min_tx := opt_min_by f_lt_r tx_min_values in
      let* max_tx := opt_max_by f_lt_r tx_max_values in
      Ok (SummaryStats.mk min_total max_total min_r max_r min_d max_d min_tx max_tx)
  end.

(** ** [filter_groups] *)

Module GroupFilters.
Record t := mk {
  min_risk : Z;
  min_total : pyfloat;
  max_total : pyfloat;
  start_date : option datetime;
  end_date : option datetime;
  reported_only : bool
}.
(** [GroupFilters()]. *)
Definition default : t := mk 0 (Fin 0) PInf None None false.
End GroupFilters.

Fixpoint filter_result {A} (p : A -> result bool) (xs : list A) : result (list A) :=
  match xs with
  | [] => Ok []
  | x :: xs' =>
      let* b := p x in
      let* ys := filter_result p xs' in
      Ok (if b then x :: ys else ys)
  end.

(** The body of the loop of [filter_groups]: [true] when the group is
    appended, [false] at a [continue]. *)
Definition group_passes (filters : GroupFilters.t) (reported_set : list json) (g : egroup)
  : result bool :=
  let m := eg_metrics g in
  if risk_score m <? GroupFilters.min_risk filters then Ok false else
  let total := total_amount m in
  if f_lt total (GroupFilters.min_total filters) || f_gt total (GroupFilters.max_total filters)
  then Ok false else
  let* rep_ok :=
    if GroupFilters.reported_only filters then set_mem (group_id g) reported_set
    else Ok true in
  if negb rep_ok then Ok false else
  match GroupFilters.start_date filters, GroupFilters.end_date filters with
  | None, None => Ok true
  | sd, ed =>
      let* start_ok :=
        match sd with
        | None => Ok true
        | Some s =>
            match last_seen m with
            | None => Ok false
            | Some group_end => let* b := dt_lt group_end s in Ok (negb b)
            end
        end in
      if negb start_ok then Ok false else
      match ed with
      | None => Ok true
      | Some e =>
          match first_seen m with
          | None => Ok false
          | Some group_start => let* b := dt_gt group_start e in Ok (negb b)
          end
      end
  end.

Definition filter_groups (groups : list egroup) (filters : GroupFilters.t)
  (reported_ids : list json) : result (list egroup) :=
  let* reported_set := set_of reported_ids in
  filter_result (group_passes filters reported_set) groups.

(** ** [build_network_payload] *)

(** *** [float(s)] on a string

    Surrounding whitespace, an optional sign, then [inf], [infinity] or
    [nan] in any case, or a decimal literal with optional [_] between
    digits, an optional fraction and an optional exponent.  Magnitudes
    below [1e-330] give [0.0] and magnitudes from the overflow threshold on
    give an infinity. *)
Definition is_digit (c : ascii) : bool :=
  match digit_val c with Some _ => true | None => false end.

(** The digits after a first digit: [(value, digit count, rest)]. *)
Fixpoint digitpart_rest (cs : list ascii) (acc : Z) (n : nat) : Z * nat * list ascii :=
  match cs with
  | c :: cs' =>
      match digit_val c with
      | Some d => digitpart_rest cs' (acc * 10 + d) (S n)
      | None =>
          if Ascii.eqb c "_"%char then
            match cs' with
            | c2 :: cs'' =>
                match digit_val c2 with
                | Some d => digitpart_rest cs'' (acc * 10 + d) (S n)
                | None => (acc, n, cs)
                end
            | [] => (acc, n, cs)
            end
          else (acc, n, cs)
      end
  | [] => (acc, n, cs)
  end.

(** A digit part continuing the mantissa [acc] (with [n] digits so far). *)
Definition digitpart (cs : list ascii) (acc : Z) (n : nat) : option (Z * nat * list ascii) :=
  match cs with
  | c :: cs' =>
      match digit_val c with
      | Some d => Some (digitpart_rest cs' (acc * 10 + d) (S n))
      | None => None
      end
  | [] => None
  end.

Definition parse_exponent (cs : list ascii) : option Z :=
  match cs with
  | [] => Some 0
  | e :: cs' =>
      if Ascii.eqb e "e"%char || Ascii.eqb e "E"%char then
        let '(neg, ds) :=
          match cs' with
          | s :: r => if Ascii.eqb s "-"%char then (true, r)
                      else if Ascii.eqb s "+"%char then (false, r) else (false, cs')
          | [] => (false, cs')
          end in
        match digitpart ds 0 0 with
        | Some (v, _, []) => Some (if neg then - v else v)
        | _ => None
        end
      else None
  end.

(** [(mantissa, digit count, power of ten)] of an unsigned decimal literal. *)
Definition parse_decimal (cs : list ascii) : option (Z * nat * Z) :=
  let finish m n k rest :=
    match parse_exponent rest with
    | Some e => Some (m, n, e - Z.of_nat k)
    | None => None
    end in
  match digitpart cs 0 0 with
  | Some (m, n, "."%char :: rest) =>
      match digitpart rest m n with
      | Some (m', n', rest') => finish m' n' (n' - n)%nat rest'
      | None => finish m n O rest
      end
  | Some (m, n, rest) => finish m n O rest
  | None =>
      match cs with
      | "."%char :: rest =>
          match digitpart rest 0 0 with
          | Some (m, n, rest') => finish m n n rest'
          | None => None
          end
      | _ => None
      end
  end.

Definition decimal_value (m : Z) (n : nat) (e : Z) : pyfloat :=
  if m =? 0 then Fin 0
  else if 330 <? e then PInf
  else if Z.of_nat n + e <? -330 then Fin 0
  else if 0 <=? e then fl (inject_Z (m * 10 ^ e))
  else fl (m # Z.to_pos (10 ^ (- e))).

Definition f_neg (x : pyfloat) : pyfloat :=
  match x with
  | Fin q => Fin (- q)
  | PInf => NInf
  | NInf => PInf
  | NaN => NaN
  end.

Definition float_of_str (s : string) : result pyfloat :=
  let cs := list_ascii_of_string (strip s) in
  let '(neg, body) :=
    match cs with
    | c :: r => if Ascii.eqb c "-"%char then (true, r)
                else if Ascii.eqb c "+"%char then (false, r) else (false, cs)
    | [] => (false, cs)
    end in
  let word := str_lower (string_of_list_ascii body) in
  let v :=
    if String.eqb word "inf" || String.eqb word "infinity" then Some PInf
    else if String.eqb word "nan" then Some NaN
    else match parse_decimal body with
         | Some (m, n, e) => Some (decimal_value m n e)
         | None => None
         end in
  match v with
  | Some x => Ok (if neg then f_neg x else x)
  | None => Err (ValueError "could not convert string to float")
  end.

(** [float(v)] on a JSON value. *)
Definition py_float (v : json) : result pyfloat :=
  match v with
  | JNull => Err TypeError
  | JBool b => Ok (if b then fz 1 else fz 0)
  | JInt z => float_of_int z
  | JFloat f => Ok f
  | JStr s => float_of_str s
  | JList _ | JObj _ => Err TypeError
  end.

(** *** [sorted] on strings *)

Module StringOrder <: TotalLeBool.
Definition t := string.
Definition leb := String.leb.
Infix "<=?" := leb (at level 70, no associativity).
Definition leb_total : forall a1 a2, (a1 <=? a2) = true \/ (a2 <=? a1) = true :=
  String.leb_total.
End StringOrder.

Module StrSort := Sort StringOrder.

(** *** Dicts keyed by hashable values *)

Fixpoint assoc_find {K V} (eqk : K -> K -> bool) (k : K) (l : list (K * V)) : option V :=
  match l with
  | [] => None
  | (k', v) :: l' => if eqk k k' then Some v else assoc_find eqk k l'
  end.

(** [d[k] = v]: an existing key keeps its place and its key object. *)
Fixpoint assoc_put {K V} (eqk : K -> K -> bool) (k : K) (v : V) (l : list (K * V))
  : list (K * V) :=
  match l with
  | [] => [(k, v)]
  | (k', v') :: l' => if eqk k k' then (k', v) :: l' else (k', v') :: assoc_put eqk k v l'
  end.

Definition pair_key_eq (a b : json * json) : bool :=
  key_eq (fst a) (fst b) && key_eq (snd a) (snd b).

Definition str_set_add (s : list string) (x : string) : list string :=
  if str_mem x s then s else s ++ [x].

(** [v[:24]] on a hashable value. *)
Definition slice24 (v : json) : result json :=
  match v with
  | JStr s => Ok (JStr (substring 0 24 s))
  | _ => Err TypeError
  end.

Module NetworkNode.
Record t := mk {
  id : json;
  label : json;
  kind : string;
  risk_score : option Z;
  member_count : option Z;
  total_amount : option pyfloat;
  highlight : bool
}.
End NetworkNode.

Module NetworkEdge.
Record t := mk {
  source : json;
  target : json;
  amount : pyfloat;
  count : Z;
  directions : list string
}.
End NetworkEdge.

Record NetworkResponse := mk_network {
  nodes : list NetworkNode.t;
  edges : list NetworkEdge.t
}.

(** The value of [edges[key]]: ["amount"], ["count"], ["directions"]. *)
Record edge_entry := mk_entry {
  ent_amount : pyfloat;
  ent_count : Z;
  ent_directions : list string
}.

Definition node_map := list (json * NetworkNode.t).
Definition edge_map := list ((json * json) * edge_entry).

(** [float(tx.get("amount") or 0.0)]. *)
Definition edge_amount (tx : dict) : result pyfloat :=
  py_float (json_or (dict_get tx "amount") (JFloat (Fin 0))).

(** The ordered pair [(src, dst)] of a transaction with a counterparty. *)
Definition edge_key (gid cp : json) (direction : string) : json * json :=
  if str_mem direction incoming_directions then (cp, gid) else (gid, cp).

(** One iteration of [for tx in group.get("_transactions") or []:]. *)
Definition network_tx_step (gid : json) (st : node_map * edge_map) (tx : parsed_tx)
  : result (node_map * edge_map) :=
  let '(ns, es) := st in
  let d := ptx_fields tx in
  let counterparty := dict_get d "counterparty_id" in
  if negb (truthy counterparty) then Ok st else
  if negb (hashable counterparty) then Err TypeError else
  let* ns :=
    match assoc_find key_eq counterparty ns with
    | Some _ => Ok ns
    | None =>
        let* lbl := slice24 counterparty in
        Ok (assoc_put key_eq counterparty
              (NetworkNode.mk counterparty lbl "counterparty" None None None false) ns)
    end in
  let* amt := edge_amount d in
  let* direction := normalized_direction d in
  let key := edge_key gid counterparty direction in
  let entry := match assoc_find pair_key_eq key es with
               | Some e => e
               | None => mk_entry (Fin 0) 0 []
               end in
  let entry' := mk_entry (f_add (ent_amount entry) amt) (ent_count entry + 1)
                  (if String.eqb direction "" then ent_directions entry
                   else str_set_add (ent_directions entry) direction) in
  Ok (ns, assoc_put pair_key_eq key entry' es).

(** One iteration of [for group in groups:]. *)
Definition network_group_step (reported_set : list json) (highlight_reported : bool)
  (st : node_map * edge_map) (g : egroup) : result (node_map * edge_map) :=
  let '(ns, es) := st in
  let gid := group_id g in
  if negb (truthy gid) then Ok st else
  let m := eg_metrics g in
  let* hl := if highlight_reported then set_mem gid reported_set else Ok false in
  if negb (hashable gid) then Err TypeError else
  let node := NetworkNode.mk gid (json_or (eg_display_name g) gid) "group"
                (Some (risk_score m)) (Some (member_count m)) (Some (total_amount m)) hl in
  fold_result (network_tx_step gid) (eg_transactions g) (assoc_put key_eq gid node ns, es).

Definition emit_edge (kv : (json * json) * edge_entry) : NetworkEdge.t :=
  let '((src, dst), data) := kv in
  NetworkEdge.mk src dst (py_round2 (ent_amount data)) (ent_count data)
    (StrSort.sort (ent_directions data)).

Definition build_network_payload (groups : list egroup) (reported_ids : list json)
  (highlight_reported : bool) : result NetworkResponse :=
  let* reported_set := set_of reported_ids in
  let* st := fold_result (network_group_step reported_set highlight_reported) groups ([], []) in
  let '(ns, es) := st in
  Ok (mk_network (map snd ns) (map emit_edge es)).

(** ** [GroupService._select_relevant_snapshots] *)

(** [{m.get("record_id") for m in members if m.get("record_id")}]. *)
Definition member_ids_of (members : list json) : result (list json) :=
  fold_result (fun s m =>
    let* rid := json_get m "record_id" in
    if truthy rid then set_add s rid else Ok s) members [].

(** The nested loop adding every signature of every member's history. *)
Definition signature_set_of (members : list json) : result (list json) :=
  fold_result (fun s member =>
    let* hist := json_get member "signature_history" in
    let* sigs := py_iter (json_or hist (JList [])) in
    fold_result set_add sigs s) members [].

(** The tests of one iteration of [for snapshot in snapshots:]; [true] when
    the snapshot is appended to [matched]. *)
Definition snapshot_matches (member_ids signature_set : list json) (tax_id : json)
  (snapshot : json) : result bool :=
  match snapshot with
  | JObj d =>
      let* by_id := set_mem (dict_get d "record_id") member_ids in
      if by_id then Ok true else
      let* by_sig := set_mem (dict_get d "signature") signature_set in
      if by_sig then Ok true else
      if truthy tax_id then
        let* snap_tax := json_get (dict_get_default d "normalized_attributes" (JObj [])) "tax_id" in
        Ok (py_eq snap_tax tax_id)
      else Ok false
  | _ => Ok false
  end.

(** [xs[:limit]]: a negative bound counts from the end. *)
Definition py_slice_upto {A} (xs : list A) (limit : Z) : list A :=
  if 0 <=? limit then firstn (Z.to_nat limit) xs
  else firstn (List.length xs - Z.to_nat (- limit)) xs.

(** The snapshots are the list [self._load_snapshots()] returns. *)
Definition select_relevant_snapshots (group : egroup) (snapshots : list json) (limit : Z)
  : result (list json) :=
  match snapshots with
  | [] => Ok []
  | _ =>
      let fields := eg_fields group in
      let* members := py_iter (json_or (dict_get fields "members") (JList [])) in
      let* member_ids := member_ids_of members in
      let* signature_set := signature_set_of members in
      let* tax_id :=
        json_get (dict_get_default fields "canonical_attributes" (JObj [])) "tax_id" in
      let* matched := filter_result (snapshot_matches member_ids signature_set tax_id) snapshots in
      Ok (py_slice_upto matched limit)
  end.

Definition default_snapshot_limit : Z := 25.

(** ** [GroupService.submit_report] *)

Record ReportCreateRequest := mk_request {
  req_group_id : string;
  req_reason : string;
  req_checks : list string
}.

(** The service's loaded groups and its report ledger (the cached list that
    [write_reports] persists). *)
Record service := mk_service {
  svc_groups : list egroup;
  svc_reports : list json
}.

(** [next((g for g in groups if g.get("group_id") == group_id), None)]. *)
Definition find_group (groups : list egroup) (gid : string) : option egroup :=
  find (fun g => py_eq (group_id g) (JStr gid)) groups.

Definition report_snapshot (m : metrics) : json :=
  JObj [("num_members"%string, JInt (member_count m));
        ("total_amount"%string, JFloat (total_amount m));
        ("risk_score"%string, JInt (risk_score m))].

(** [utc_now] is [datetime.utcnow().replace(microsecond=0).isoformat()]. *)
Definition report_payload (utc_now : string) (req : ReportCreateRequest) (m : metrics) : json :=
  JObj [("timestamp"%string, JStr (utc_now ++ "Z")%string);
        ("group_id"%string, JStr (req_group_id req));
        ("reason"%string, JStr (strip (req_reason req)));
        ("checks"%string, JList (map JStr (req_checks req)));
        ("snapshot"%string, report_snapshot m)].

Definition reason_required_msg : string := "A reason is required to record a report".

Definition not_found_msg (gid : string) : string := ("Group " ++ gid ++ " not found")%string.

(** Returns the new record and [total_reports], with the service state after
    the call. *)
Definition submit_report (utc_now : string) (request : ReportCreateRequest) (st : service)
  : result (json * Z) * service :=
  if String.eqb (strip (req_reason request)) "" then
    (Err (ValueError reason_required_msg), st)
  else
    match find_group (svc_groups st) (req_group_id request) with
    | None => (Err (ValueError (not_found_msg (req_group_id request))), st)
    | Some target =>
        let payload := report_payload utc_now request (eg_metrics target) in
        let updated_reports := svc_reports st ++ [payload] in
        (Ok (payload, Z.of_nat (List.length updated_reports)),
         mk_service (svc_groups st) updated_reports)
    end.

(** * Inputs and statements used by the theorems *)

(** A group with two transactions of [1e308]: their sum overflows to
    [+inf]. *)
Definition overflow_group : dict :=
  [("group_id"%string, JStr "G-OVF");
   ("transactions"%string,
     JList [JObj [("amount"%string, JFloat (Fin (inject_Z (10 ^ 308))))];
            JObj [("amount"%string, JFloat (Fin (inject_Z (10 ^ 308))))]])].

(** A group whose [canonical_attributes] is [null] and whose only
    transaction has a list as its amount. *)
Definition dirty_group : dict :=
  [("group_id"%string, JStr "G-DIRTY");
   ("canonical_attributes"%string, JNull);
   ("members"%string, JList [JObj [("record_id"%string, JStr "R1")]]);
   ("transactions"%string,
     JList [JObj [("counterparty_id"%string, JStr "C1");
                  ("amount"%string, JList [JInt 1]);
                  ("direction"%string, JStr "out")]])].

Definition dirty_snapshots : list json :=
  [JObj [("record_id"%string, JStr "R9")]].

(** An enriched group as [enrich_group] builds it. *)
Definition sample_metrics : metrics :=
  mk_metrics 2 2 (Fin 150) 1 (Fin (1 # 2)) None None (Some (Fin 50)) (Some (Fin 100)) 46.

Definition sample_group : egroup :=
  mk_egroup [("group_id"%string, JStr "G1")] sample_metrics [] (JStr "G1").

(** What a hashable JSON value is as a key: [None], a string or a number. *)
Inductive key_repr := KNull | KStr (s : string) | KNum (x : pyfloat).

Definition key_of (v : json) : option key_repr :=
  match v with
  | JNull => Some KNull
  | JStr s => Some (KStr s)
  | _ => match json_number v with Some x => Some (KNum x) | None => None end
  end.

Definition key_repr_eq (a b : key_repr) : bool :=
  match a, b with
  | KNull, KNull => true
  | KStr s, KStr t => String.eqb s t
  | KNum x, KNum y => f_key_eq x y
  | _, _ => false
  end.

Definition dt_before (a b : datetime) : bool :=
  match dt_cmp a b with Ok Lt => true | _ => false end.

Definition dates_overlap (f : GroupFilters.t) (m : metrics) : bool :=
  (match GroupFilters.start_date f with
   | None => true
   | Some s => match last_seen m with None => false | Some l => negb (dt_before l s) end
   end) &&
  (match GroupFilters.end_date f with
   | None => true
   | Some e => match first_seen m with None => false | Some fs => negb (dt_before e fs) end
   end).

Definition amended_group_passes (f : GroupFilters.t) (reported_ids : list json) (g : egroup)
  : bool :=
  let m := eg_metrics g in
  (GroupFilters.min_risk f <=? risk_score m) &&
  negb (f_lt (total_amount m) (GroupFilters.min_total f)) &&
  negb (f_lt (GroupFilters.max_total f) (total_amount m)) &&
  (negb (GroupFilters.reported_only f) || existsb (key_eq (group_id g)) reported_ids) &&
  dates_overlap f m.

Definition spec_group_passes (f : GroupFilters.t) (reported_ids : list json) (g : egroup)
  : bool :=
  let m := eg_metrics g in
  (GroupFilters.min_risk f <=? risk_score m) &&
  f_le (GroupFilters.min_total f) (total_amount m) &&
  f_le (total_amount m) (GroupFilters.max_total f) &&
  (negb (GroupFilters.reported_only f) || existsb (key_eq (group_id g)) reported_ids) &&
  dates_overlap f m.

Definition nan_group : dict :=
  [("group_id"%string, JStr "G-NAN");
   ("transactions"%string,
     JList [JObj [("counterparty_id"%string, JStr "C9"); ("amount"%string, JFloat NaN)]])].

Definition negative_raws : list dict :=
  [[("group_id"%string, JStr "G-NEG");
    ("transactions"%string, JList [JObj [("amount"%string, JInt (-10))]])];
   [("group_id"%string, JStr "G-POS");
    ("transactions"%string, JList [JObj [("amount"%string, JInt 5)]])]].

Definition negative_groups : list egroup :=
  Eval vm_compute in
  match map_result enrich_group negative_raws with Ok gs => gs | Err _ => [] end.

(** A transaction whose case-normalized direction is [out], [outgoing] or
    [debit]. *)
Definition is_outgoing_tx (tx : json) : bool :=
  match tx with
  | JObj d =>
      match normalized_direction d with
      | Ok s => str_mem s ["out"%string; "outgoing"%string; "debit"%string]
      | Err _ => false
      end
  | _ => false
  end.

Definition outgoing_count (txs : list json) : Z :=
  Z.of_nat (List.length (filter is_outgoing_tx txs)).

Definition ratio_raw : dict :=
  [("group_id"%string, JStr "G1");
   ("transactions"%string,
     JList [JObj [("amount"%string, JInt 100); ("direction"%string, JStr "OUT")];
            JObj [("amount"%string, JInt 50); ("direction"%string, JStr "credit")];
            JObj [("amount"%string, JInt 10)]])].

Definition ratio_group : egroup :=
  Eval vm_compute in
  match enrich_group ratio_raw with Ok g => g | Err _ => sample_group end.

Definition dt_le_b (a b : datetime) : bool :=
  match dt_cmp a b with Ok Gt => false | Ok _ => true | Err _ => false end.

Definition opt_le {A} (le : A -> A -> bool) (lo hi : option A) : Prop :=
  match lo, hi with
  | Some a, Some b => le a b = true
  | _, _ => True
  end.

Definition summary_ordered (s : SummaryStats.t) : Prop :=
  opt_le f_le (SummaryStats.min_total_amount s) (SummaryStats.max_total_amount s) /\
  opt_le Z.leb (SummaryStats.min_risk s) (SummaryStats.max_risk s) /\
  opt_le dt_le_b (SummaryStats.min_date s) (SummaryStats.max_date s) /\
  opt_le f_le (SummaryStats.min_tx_amount s) (SummaryStats.max_tx_amount s).

Definition aware (d : datetime) : Prop := dt_offset d <> None.

Definition opt_not_nan (o : option pyfloat) : bool :=
  match o with Some x => negb (f_is_nan x) | None => true end.

Definition opt_aware (o : option datetime) : Prop :=
  match o with Some d => aware d | None => True end.

Definition tx_pair_ok (mn mx : option pyfloat) : Prop :=
  match mn, mx with
  | None, None => True
  | Some a, Some b => f_is_nan a = false -> f_is_nan b = false -> f_le a b = true
  | _, _ => False
  end.

(** ** Snapshot correlation *)

(** [l1] is [l2] with some items left out: the order of [l2] is kept and no
    item of [l2] is used twice. *)
Inductive Sublist {A} : list A -> list A -> Prop :=
| sl_nil : Sublist [] []
| sl_skip x l1 l2 : Sublist l1 l2 -> Sublist l1 (x :: l2)
| sl_take x l1 l2 : Sublist l1 l2 -> Sublist (x :: l1) (x :: l2).

Definition member_field (m : json) (k : string) : json :=
  match m with JObj d => dict_get d k | _ => JNull end.

(** The group's members, as [for m in group.get("members") or []] lists
    them. *)
Definition group_members (g : egroup) : list json :=
  match py_iter (json_or (dict_get (eg_fields g) "members") (JList [])) with
  | Ok l => l
  | Err _ => []
  end.

(** The member record ids: the record ids the members carry. *)
Definition spec_member_ids (members : list json) : list json :=
  filter truthy (map (fun m => member_field m "record_id") members).

(** The union of all members' signature histories. *)
Definition spec_signatures (members : list json) : list json :=
  flat_map (fun m =>
    match py_iter (json_or (member_field m "signature_history") (JList [])) with
    | Ok l => l
    | Err _ => []
    end) members.

(** The group's canonical [tax_id]. *)
Definition canonical_tax_id (g : egroup) : json :=
  match dict_get_default (eg_fields g) "canonical_attributes" (JObj []) with
  | JObj c => dict_get c "tax_id"
  | _ => JNull
  end.

(** C6's matching condition. *)
Definition spec_snapshot_matches (g : egroup) (snapshot : json) : bool :=
  match snapshot with
  | JObj d =>
      existsb (key_eq (dict_get d "record_id")) (spec_member_ids (group_members g)) ||
      existsb (key_eq (dict_get d "signature")) (spec_signatures (group_members g)) ||
      (truthy (canonical_tax_id g) &&
       match dict_get_default d "normalized_attributes" (JObj []) with
       | JObj n => py_eq (dict_get n "tax_id") (canonical_tax_id g)
       | _ => false
       end)
  | _ => false
  end.

(** A group with one member carrying a record id and a signature, and a
    canonical tax id; one snapshot matches through each. *)
Definition snapshot_group : egroup :=
  mk_egroup
    [("group_id"%string, JStr "G2");
     ("members"%string, JList [JObj [("record_id"%string, JStr "R1");
                                     ("signature_history"%string, JList [JStr "S1"])]]);
     ("canonical_attributes"%string, JObj [("tax_id"%string, JStr "T1")])]
    sample_metrics [] (JStr "G2").

Definition sample_snapshots : list json :=
  [JObj [("record_id"%string, JStr "R2")];
   JObj [("record_id"%string, JStr "R1")];
   JStr "not a dict";
   JObj [("signature"%string, JStr "S1")];
   JObj [("normalized_attributes"%string, JObj [("tax_id"%string, JStr "T1")])]].

(** ** Network edges *)

(** The edge contribution of a transaction with a counterparty, as C4
    describes it: its ordered [(source, target)] pair, its amount and its
    case-normalised direction. *)
Record contribution := mk_contrib {
  c_key : json * json;
  c_amount : pyfloat;
  c_direction : string
}.

Definition tx_contribution (gid : json) (tx : parsed_tx) : list contribution :=
  let d := ptx_fields tx in
  let cp := dict_get d "counterparty_id" in
  if truthy cp then
    match edge_amount d, normalized_direction d with
    | Ok a, Ok dir =>
        [mk_contrib
           (if str_mem dir ["in"%string; "incoming"%string; "credit"%string]
            then (cp, gid) else (gid, cp)) a dir]
    | _, _ => []
    end
  else [].

Definition group_contributions (g : egroup) : list contribution :=
  if truthy (group_id g) then flat_map (tx_contribution (group_id g)) (eg_transactions g)
  else [].

Definition network_contributions (gs : list egroup) : list contribution :=
  flat_map group_contributions gs.

Definition edge_pair (e : NetworkEdge.t) : json * json :=
  (NetworkEdge.source e, NetworkEdge.target e).

(** The contributions keyed by the edge's pair, in processing order. *)
Definition edge_contributions (cs : list contribution) (e : NetworkEdge.t) : list contribution :=
  filter (fun c => pair_key_eq (c_key c) (edge_pair e)) cs.

(** [0.0 + a1 + a2 + ...] in processing order. *)
Definition edge_sum (cs : list contribution) : pyfloat :=
  fold_left f_add (map c_amount cs) (Fin 0).

(** C4's statement about the emitted edges, for contributions [cs]. *)
Definition network_edges_spec (cs : list contribution) (es : list NetworkEdge.t) : Prop :=
  Forall (fun e =>
    let mine := edge_contributions cs e in
    mine <> [] /\
    NetworkEdge.amount e = py_round2 (edge_sum mine) /\
    NetworkEdge.count e = Z.of_nat (List.length mine) /\
    Sorted (fun a b => String.leb a b = true) (NetworkEdge.directions e) /\
    NoDup (NetworkEdge.directions e) /\
    (forall s, In s (NetworkEdge.directions e) <->
               exists c, In c mine /\ c_direction c = s /\ s <> ""%string)) es /\
  Forall (fun c => exists e, In e es /\ pair_key_eq (c_key c) (edge_pair e) = true) cs /\
  ForallOrdPairs (fun e1 e2 => pair_key_eq (edge_pair e1) (edge_pair e2) = false) es.

(** One contribution added to the edge map as the transaction loop does. *)
Definition edge_add (es : edge_map) (c : contribution) : edge_map :=
  let entry := match assoc_find pair_key_eq (c_key c) es with
               | Some e => e
               | None => mk_entry (Fin 0) 0 []
               end in
  assoc_put pair_key_eq (c_key c)
    (mk_entry (f_add (ent_amount entry) (c_amount c)) (ent_count entry + 1)
       (if String.eqb (c_direction c) "" then ent_directions entry
        else str_set_add (ent_directions entry) (c_direction c))) es.

Definition pair_hashable (k : json * json) : bool := hashable (fst k) && hashable (snd k).

Definition entry_facts (mine : list contribution) (en : edge_entry) : Prop :=
  ent_amount en = edge_sum mine /\
  ent_count en = Z.of_nat (List.length mine) /\
  NoDup (ent_directions en) /\
  (forall s, In s (ent_directions en) <->
             exists c, In c mine /\ c_direction c = s /\ s <> ""%string).

Definition mine_of (cs : list contribution) (k : json * json) : list contribution :=
  filter (fun c => pair_key_eq (c_key c) k) cs.

Definition edges_inv (cs : list contribution) (es : edge_map) : Prop :=
  ForallOrdPairs (fun x y => pair_key_eq (fst x) (fst y) = false) es /\
  Forall (fun kv => mine_of cs (fst kv) <> [] /\ entry_facts (mine_of cs (fst kv)) (snd kv)) es /\
  Forall (fun c => exists k, In k (map fst es) /\ pair_key_eq (c_key c) k = true) cs /\
  Forall (fun kv => pair_hashable (fst kv) = true) es.

(** A group whose transactions hit one counterparty in both directions and
    another one without a direction, and one transaction without a
    counterparty. *)
Definition network_raw : dict :=
  [("group_id"%string, JStr "G5");
   ("transactions"%string,
     JList [JObj [("counterparty_id"%string, JStr "C1"); ("amount"%string, JInt 10);
                  ("direction"%string, JStr "IN")];
            JObj [("counterparty_id"%string, JStr "C1"); ("amount"%string, JFloat (Fin (5 # 2)));
                  ("direction"%string, JStr "credit")];
            JObj [("counterparty_id"%string, JStr "C1"); ("amount"%string, JInt 5);
                  ("direction"%string, JStr "sideways")];
            JObj [("counterparty_id"%string, JStr "C2"); ("amount"%string, JInt 1)];
            JObj [("amount"%string, JInt 7)]])].

Definition network_group : egroup :=
  Eval vm_compute in
  match enrich_group network_raw with Ok g => g | Err _ => sample_group end.

Definition network_sample : NetworkResponse :=
  Eval vm_compute in
  match build_network_payload [network_group] [JStr "G5"] true with
  | Ok r => r
  | Err _ => mk_network [] []
  end.

(** A group with a transaction stamped in UTC, one stamped with an offset,
    one with an unparsable timestamp, and two counterparties. *)
Definition seen_raw : dict :=
  [("group_id"%string, JStr "G7");
   ("members"%string, JList [JObj [("record_id"%string, JStr "R1")]]);
   ("transactions"%string,
     JList [JObj [("counterparty_id"%string, JStr "C1"); ("amount"%string, JInt 40);
                  ("direction"%string, JStr "out");
                  ("timestamp"%string, JStr "2024-03-01T10:00:00Z")];
            JObj [("counterparty_id"%string, JStr "C2"); ("amount"%string, JFloat (Fin (25 # 2)));
                  ("timestamp"%string, JStr "2024-03-01T12:30:00+02:00")];
            JObj [("counterparty_id"%string, JStr "C1"); ("amount"%string, JInt 5);
                  ("timestamp"%string, JStr "not a date")]])].

Definition seen_group : egroup :=
  Eval vm_compute in
  match enrich_group seen_raw with Ok g => g | Err _ => sample_group end.

(** A group whose second transaction has a number as its direction. *)
Definition bad_direction_raw : dict :=
  [("group_id"%string, JStr "G8");
   ("transactions"%string,
     JList [JObj [("amount"%string, JInt 3)]; JObj [("direction"%string, JInt 1)]])].


(** What one iteration of the transaction loop of [enrich_group] needs and
    records: the transaction is a dict, its amount converts, its timestamp
    parses to the recorded one, its direction lowers and a truthy
    counterparty is hashable. *)
Definition tx_step_ok (tx : json) (p : parsed_tx) : Prop :=
  tx = JObj (ptx_fields p) /\
  (forall r, numeric_amount (dict_get (ptx_fields p) "amount") = Some r -> exists v, r = Ok v) /\
  parse_iso_datetime (dict_get (ptx_fields p) "timestamp") = Ok (ptx_parsed_timestamp p) /\
  (exists s, normalized_direction (ptx_fields p) = Ok s) /\
  (truthy (dict_get (ptx_fields p) "counterparty_id") = true ->
   hashable (dict_get (ptx_fields p) "counterparty_id") = true).

Definition covers_summary : SummaryStats.t :=
  Eval vm_compute in
  match summarize_groups [seen_group; ratio_group] with
  | Ok s => s
  | Err _ => SummaryStats.mk None None None None None None None None
  end.

(** ** [GroupService._apply_transaction_filters] *)

Module TransactionFilters.
Record t := mk {
  min_amount : pyfloat;
  max_amount : pyfloat;
  start_date : option datetime;
  end_date : option datetime
}.
(** [TransactionFilters()]. *)
Definition default : t := mk (Fin 0) PInf None None.
End TransactionFilters.

(** [float(amount) if isinstance(amount, (int, float)) else 0.0]. *)
Definition tx_amount_value (tx : dict) : result pyfloat :=
  match numeric_amount (dict_get tx "amount") with
  | Some r => r
  | None => Ok (Fin 0)
  end.

(** [tx.get("parsed_timestamp") or parse_iso_datetime(tx.get("timestamp"))]
    on a transaction copied by [enrich_group]. *)
Definition tx_timestamp (tx : parsed_tx) : result (option datetime) :=
  match ptx_parsed_timestamp tx with
  | Some t => Ok (Some t)
  | None => parse_iso_datetime (dict_get (ptx_fields tx) "timestamp")
  end.

(** The body of the loop: [true] when the transaction is appended, [false]
    at a [continue]. *)
Definition tx_passes (filters : TransactionFilters.t) (tx : parsed_tx) : result bool :=
  let* amount_value := tx_amount_value (ptx_fields tx) in
  if f_lt amount_value (TransactionFilters.min_amount filters)
     || f_gt amount_value (TransactionFilters.max_amount filters) then Ok false else
  let* ts := tx_timestamp tx in
  let* start_ok :=
    match TransactionFilters.start_date filters with
    | None => Ok true
    | Some s =>
        match ts with
        | None => Ok false
        | Some t => let* b := dt_lt t s in Ok (negb b)
        end
    end in
  if negb start_ok then Ok false else
  match TransactionFilters.end_date filters with
  | None => Ok true
  | Some e =>
      match ts with
      | None => Ok false
      | Some t => let* b := dt_gt t e in Ok (negb b)
      end
  end.

Definition apply_transaction_filters (group : egroup) (filters : TransactionFilters.t)
  : result (list parsed_tx) :=
  filter_result (tx_passes filters) (eg_transactions group).


(** Keep amounts of at least 10 stamped from 2024-03-01T09:00:00Z on. *)
Definition late_start : datetime :=
  Eval vm_compute in
  match parse_iso_datetime (JStr "2024-03-01T09:00:00Z") with
  | Ok (Some d) => d | _ => mk_datetime 0 (Some 0) end.

Definition late_filters : TransactionFilters.t :=
  TransactionFilters.mk (Fin 10) PInf (Some late_start) None.

Definition late_filtered : list parsed_tx :=
  Eval vm_compute in
  match apply_transaction_filters seen_group late_filters with
  | Ok r => r | Err _ => [] end.

(** *** Invariants of the node and edge dicts of [build_network_payload] *)

(** [x] matches one of the keys of [nodes]. *)
Definition node_key_in (x : json) (ns : node_map) : Prop :=
  exists k, In k (map fst ns) /\ key_eq x k = true.

(** An entry [nodes[k]] carries [k] as its [id], and it is highlighted only
    when it is a group node whose id is reported and highlighting is on. *)
Definition node_entry_ok (ids : list json) (hl : bool) (kv : json * NetworkNode.t) : Prop :=
  key_eq (fst kv) (NetworkNode.id (snd kv)) = true /\
  (NetworkNode.highlight (snd kv) = true ->
     hl = true /\ NetworkNode.kind (snd kv) = "group"%string /\
     existsb (key_eq (NetworkNode.id (snd kv))) ids = true).

Definition net_inv (ids : list json) (hl : bool) (ns : node_map) (es : edge_map) : Prop :=
  ForallOrdPairs (fun x y => key_eq (fst x) (fst y) = false) ns /\
  Forall (node_entry_ok ids hl) ns /\
  Forall (fun kv => node_key_in (fst (fst kv)) ns /\ node_key_in (snd (fst kv)) ns) es.

(** A group with a truthy id has a group node under a matching key, and
    that node is highlighted exactly when highlighting is on and the id is
    reported. *)
Definition group_node_ok (ids : list json) (hl : bool) (ns : node_map) (g : egroup) : Prop :=
  truthy (group_id g) = true ->
  exists kv, In kv ns /\ key_eq (group_id g) (fst kv) = true /\
    NetworkNode.kind (snd kv) = "group"%string /\
    NetworkNode.highlight (snd kv) = hl && existsb (key_eq (group_id g)) ids.

(** Two groups, the second one reported. *)
Definition two_group_payload : NetworkResponse :=
  Eval vm_compute in
  match build_network_payload [network_group; seen_group] [JStr "G7"] true with
  | Ok r => r | Err _ => mk_network [] [] end.

(** ** [GroupService._reported_ids] *)

(** [[entry.get("group_id") for entry in reports if entry.get("group_id")]]. *)
Fixpoint reported_ids_of (reports : list json) : result (list json) :=
  match reports with
  | [] => Ok []
  | entry :: rest =>
      let* gid := json_get entry "group_id" in
      let* ids := reported_ids_of rest in
      Ok (if truthy gid then gid :: ids else ids)
  end.

(** ** [AppSettings.from_payload] *)

Definition DEFAULT_REPORT_CHECKS : list string :=
  ["shared tax id"%string; "rapid transfer chain"%string; "circular flow"%string;
   "high velocity counterparties"%string; "mismatched jurisdiction"%string].

Record AppSettings := mk_settings {
  title : string;
  default_highlight_reported : bool;
  default_show_summaries : bool;
  report_checks : list string
}.

(** [all(isinstance(item, str) for item in items)], with the strings. *)
Fixpoint strs_of (items : list json) : option (list string) :=
  match items with
  | [] => Some []
  | JStr s :: rest => option_map (cons s) (strs_of rest)
  | _ => None
  end.

(** [py_str] is the builtin [str], which never raises on a JSON value. *)
Definition from_payload (py_str : json -> string) (payload : json) : result AppSettings :=
  let ui := match payload with
            | JObj d => dict_get_default d "ui" (JObj [])
            | _ => JObj []
            end in
  let reporting := match payload with
                   | JObj d => dict_get_default d "reporting" (JObj [])
                   | _ => JObj []
                   end in
  let* t := json_get ui "title" in
  let title := py_str (json_or t (JStr "Entity Resolution Explorer")) in
  let* highlight := json_get_default ui "defaultHighlightReported" (JBool true) in
  let* show_summaries := json_get_default ui "defaultShowSummaries" (JBool true) in
  let raw_checks := match reporting with JObj d => dict_get d "checks" | _ => JNull end in
  let checks :=
    match raw_checks with
    | JList items =>
        match strs_of items with
        | Some ss =>
            match map strip (filter (fun s => negb (String.eqb (strip s) "")) ss) with
            | [] => DEFAULT_REPORT_CHECKS
            | cs => cs
            end
        | None => DEFAULT_REPORT_CHECKS
        end
    | _ => DEFAULT_REPORT_CHECKS
    end in
  Ok (mk_settings title (truthy highlight) (truthy show_summaries) checks).

(** A settings payload whose checks are padded, with one blank entry. *)
Definition padded_settings : json :=
  JObj [("ui"%string, JObj [("title"%string, JStr "AML")]);
        ("reporting"%string,
          JObj [("checks"%string, JList [JStr " circular flow "; JStr "   "; JStr "shell company"])])].

Definition str_of_json (v : json) : string :=
  match v with JStr s => s | _ => "?"%string end.

(** The amount a transaction contributes to the running minimum and
    maximum of [enrich_group]: its value when it is an int or a float. *)
Definition tx_amount_of (p : parsed_tx) : list pyfloat :=
  match numeric_amount (dict_get (ptx_fields p) "amount") with
  | Some (Ok v) => [v]
  | _ => []
  end.

Definition amount_inv (mn mx : option pyfloat) (amts : list pyfloat) : Prop :=
  (mn = None <-> amts = []) /\ (mx = None <-> amts = []) /\
  (forall lo, mn = Some lo -> In lo amts) /\ (forall hi, mx = Some hi -> In hi amts) /\
  (Forall (fun v => f_is_nan v = false) amts ->
   Forall (fun v => exists lo hi, mn = Some lo /\ mx = Some hi /\
                      f_le lo v = true /\ f_le v hi = true) amts).

(** Only the reported groups. *)
Definition reported_only_filters : GroupFilters.t :=
  GroupFilters.mk 0 (Fin 0) PInf None None true.

Definition listed_groups : list egroup :=
  Eval vm_compute in
  match filter_groups [seen_group; ratio_group] reported_only_filters [JStr "G7"] with
  | Ok l => l | Err _ => [] end.

Definition listed_summary : SummaryStats.t :=
  Eval vm_compute in
  match summarize_groups listed_groups with
  | Ok s => s
  | Err _ => SummaryStats.mk None None None None None None None None
  end.

(** Groups for the filters: [G7] with timestamps, [G1] twice (totals 160
    and 150), [G5] (total 25.5), [G-NAN] (a NaN total), [G-NEG] and
    [G-POS]. *)
Definition filter_sample_groups : list egroup :=
  Eval vm_compute in
  match map_result enrich_group (nan_group :: negative_raws) with
  | Ok gs => [seen_group; ratio_group; sample_group; network_group] ++ gs
  | Err _ => []
  end.

(** Reported groups with a risk score of at least 2 and a total within
    [0, 155]. *)
Definition total_filters : GroupFilters.t :=
  GroupFilters.mk 2 (Fin 0) (Fin 155) None None true.

Definition total_reported : list json :=
  [JStr "G1"; JStr "G5"; JStr "G-NAN"; JStr "G-NEG"].

(** Reported groups active between 08:00 and 10:50 UTC on 2024-03-01. *)
Definition window_filters : GroupFilters.t :=
  GroupFilters.mk 5 (Fin 0) PInf (Some (mk_datetime 1709280000000000 (Some 0)))
    (Some (mk_datetime 1709290200000000 (Some 0))) true.

(** A start date after the last transaction of [G7] (10:30 UTC). *)
Definition late_window_filters : GroupFilters.t :=
  GroupFilters.mk 0 (Fin 0) PInf (Some (mk_datetime 1709290200000000 (Some 0))) None false.


(** * Theorems *)

(** ** General facts about the result monad *)

Lemma bind_ok_inv {A B} (m : result A) (k : A -> result B) (b : B) :
  bind m k = Ok b -> exists a, m = Ok a /\ k a = Ok b.
Proof. destruct m as [a|e]; simpl; [eauto | discriminate]. Qed.

Ltac inv_bind H :=
  let a := fresh "a" in
  let Ha := fresh "Ha" in
  apply bind_ok_inv in H; destruct H as [a [Ha H]].

Lemma filter_result_ok {A} (p : A -> result bool) (xs ys : list A) :
  filter_result p xs = Ok ys ->
  Forall (fun x => exists b, p x = Ok b) xs /\
  ys = filter (fun x => match p x with Ok b => b | Err _ => false end) xs.
Proof.
  revert ys; induction xs as [|x xs IH]; intros ys H; simpl in H.
  - injection H as <-. split; [constructor | reflexivity].
  - inv_bind H. inv_bind H. injection H as <-.
    destruct (IH _ Ha0) as [Hall ->].
    split; [constructor; eauto |].
    simpl. rewrite Ha. reflexivity.
Qed.

Lemma filter_result_kept {A} (p : A -> result bool) (xs ys : list A) :
  filter_result p xs = Ok ys -> Forall (fun y => p y = Ok true) ys.
Proof.
  revert ys; induction xs as [|x xs IH]; intros ys H; simpl in H.
  - injection H as <-. constructor.
  - inv_bind H. inv_bind H. injection H as <-.
    destruct a; [constructor |]; auto.
Qed.

Lemma filter_result_all {A} (p : A -> result bool) (ys : list A) :
  Forall (fun y => p y = Ok true) ys -> filter_result p ys = Ok ys.
Proof.
  induction 1 as [|y ys Hy _ IH]; simpl; [reflexivity |].
  rewrite Hy; simpl. rewrite IH. reflexivity.
Qed.

(** ** The risk score *)

Lemma clamp_score_bounds (r : Z) : 1 <= clamp_score r <= 99.
Proof.
  unfold clamp_score.
  destruct (r <? 99) eqn:E1; [destruct (1 <? r) eqn:E2 |];
    rewrite ?Z.ltb_lt, ?Z.ltb_ge in *; lia.
Qed.

Lemma compute_risk_score_bounds mc tc total uc ratio_ r :
  compute_risk_score mc tc total uc ratio_ = Ok r -> 1 <= r <= 99.
Proof.
  unfold compute_risk_score. intro H.
  inv_bind H. inv_bind H. injection H as <-. apply clamp_score_bounds.
Qed.

Lemma enrich_group_risk_bounds raw g :
  enrich_group raw = Ok g -> 1 <= risk_score (eg_metrics g) <= 99.
Proof.
  unfold enrich_group. intro H.
  do 5 inv_bind H.
  destruct (opt_min_dt (acc_timestamps a0)) as [first|] eqn:Ef; [|discriminate].
  simpl in H.
  destruct (opt_max_dt (acc_timestamps a0)) as [last|] eqn:El; [|discriminate].
  simpl in H. inv_bind H. injection H as <-. simpl.
  eapply compute_risk_score_bounds; eauto.
Qed.

(** C1: [compute_risk_score] is not total: an infinite [total_amount]
    makes [round] raise [OverflowError] before the clamp to [1, 99] is
    reached, and [enrich_group] reaches such a total from two finite
    amounts of [1e308]. *)
Theorem compute_risk_score_overflow :
  compute_risk_score 0 0 PInf 0 (Fin 0) = Err OverflowError /\
  enrich_group overflow_group = Err OverflowError.
Proof. split; vm_compute; reflexivity. Qed.

(** C2: dirty data is not always absorbed.  For [dirty_group] (a [null]
    [canonical_attributes] and a list as an amount), [enrich_group]
    succeeds, but [build_network_payload] raises [TypeError] ([float] of a
    list) and [_select_relevant_snapshots] raises [AttributeError] ([None]
    has no [get]). *)
Theorem dirty_group_raises :
  match enrich_group dirty_group with
  | Ok g =>
      build_network_payload [g] [] true = Err TypeError /\
      select_relevant_snapshots g dirty_snapshots default_snapshot_limit = Err AttributeError
  | Err _ => False
  end.
Proof. vm_compute. split; reflexivity. Qed.

(** ** The report ledger *)

Lemma find_group_none groups gid :
  find_group groups gid = None <->
  (forall g, In g groups -> py_eq (group_id g) (JStr gid) = false).
Proof.
  unfold find_group. split.
  - intros H g Hg. exact (find_none _ _ H g Hg).
  - induction groups as [|g gs IH]; intro H; simpl; [reflexivity |].
    rewrite (H g (or_introl eq_refl)). apply IH. intros g' Hg'. apply H. now right.
Qed.

(** C3: [submit_report] fails exactly when the stripped reason is empty or
    no loaded group has the requested id; every failure leaves the service
    unchanged; a success appends one record whose reason, checks and
    snapshot come from the request and the target group's metrics. *)
Theorem submit_report_spec (utc_now : string) (req : ReportCreateRequest) (st : service) :
  let (r, st') := submit_report utc_now req st in
  let gid := req_group_id req in
  let no_group := forall g, In g (svc_groups st) -> py_eq (group_id g) (JStr gid) = false in
  ((exists e, r = Err e) <-> strip (req_reason req) = ""%string \/ no_group) /\
  (forall e, r = Err e ->
     st' = st /\
     ((strip (req_reason req) = ""%string /\ e = ValueError reason_required_msg) \/
      (strip (req_reason req) <> ""%string /\ no_group /\
       e = ValueError (not_found_msg gid)))) /\
  (forall payload n, r = Ok (payload, n) ->
     svc_groups st' = svc_groups st /\
     svc_reports st' = svc_reports st ++ [payload] /\
     n = Z.of_nat (List.length (svc_reports st')) /\
     exists target fields snap,
       In target (svc_groups st) /\ py_eq (group_id target) (JStr gid) = true /\
       payload = JObj fields /\
       dict_get fields "reason" = JStr (strip (req_reason req)) /\
       dict_get fields "checks" = JList (map JStr (req_checks req)) /\
       dict_get fields "snapshot" = JObj snap /\
       dict_get snap "num_members" = JInt (member_count (eg_metrics target)) /\
       dict_get snap "total_amount" = JFloat (total_amount (eg_metrics target)) /\
       dict_get snap "risk_score" = JInt (risk_score (eg_metrics target))).
Proof.
  unfold submit_report.
  destruct (String.eqb_spec (strip (req_reason req)) "") as [Hr|Hr].
  - split; [split | split].
    + intros _; left; exact Hr.
    + intros _; eexists; reflexivity.
    + intros e He; injection He as <-. split; [reflexivity | left; auto].
    + intros payload n H; discriminate.
  - destruct (find_group (svc_groups st) (req_group_id req)) as [target|] eqn:Hf.
    + pose proof Hf as Hf'. unfold find_group in Hf'.
      apply find_some in Hf' as [Hin Heq].
      split; [split | split].
      * intros [e He]; discriminate.
      * intros [H|H]; [contradiction |].
        rewrite (H target Hin) in Heq; discriminate.
      * intros e He; discriminate.
      * intros payload n H; injection H as <- <-.
        split; [reflexivity |]. split; [reflexivity |]. split; [reflexivity |].
        exists target. do 2 eexists.
        split; [exact Hin |]. split; [exact Heq |].
        repeat split.
    + pose proof (proj1 (find_group_none _ _) Hf) as Hng.
      split; [split | split].
      * intros _; right; exact Hng.
      * intros _; eexists; reflexivity.
      * intros e He; injection He as <-. split; [reflexivity |]. right. auto.
      * intros payload n H; discriminate.
Qed.

Lemma Qeq_bool_sym' (a b : Q) : Qeq_bool a b = Qeq_bool b a.
Proof.
  destruct (Qeq_bool a b) eqn:E1, (Qeq_bool b a) eqn:E2; auto.
  - apply Qeq_bool_iff in E1. apply Qeq_sym, Qeq_bool_iff in E1. congruence.
  - apply Qeq_bool_iff in E2. apply Qeq_sym, Qeq_bool_iff in E2. congruence.
Qed.

Lemma Qeq_bool_trans' (a b c : Q) :
  Qeq_bool a b = true -> Qeq_bool b c = true -> Qeq_bool a c = true.
Proof.
  rewrite !Qeq_bool_iff. apply Qeq_trans.
Qed.

Lemma f_key_eq_sym x y : f_key_eq x y = f_key_eq y x.
Proof. destruct x, y; simpl; auto using Qeq_bool_sym'. Qed.

Lemma f_key_eq_trans x y z :
  f_key_eq x y = true -> f_key_eq y z = true -> f_key_eq x z = true.
Proof.
  destruct x, y, z; simpl; intros; try discriminate; eauto using Qeq_bool_trans'.
Qed.

Lemma f_key_eq_refl x : f_key_eq x x = true.
Proof. destruct x; simpl; auto. apply Qeq_bool_iff, Qeq_refl. Qed.

Lemma key_eq_repr a b :
  key_eq a b = match key_of a, key_of b with
               | Some x, Some y => key_repr_eq x y
               | _, _ => false
               end.
Proof. destruct a, b; reflexivity. Qed.

Lemma key_eq_sym a b : key_eq a b = key_eq b a.
Proof.
  rewrite !key_eq_repr.
  destruct (key_of a) as [[| |]|], (key_of b) as [[| |]|]; simpl; auto.
  - apply String.eqb_sym.
  - apply f_key_eq_sym.
Qed.

Lemma key_eq_trans a b c : key_eq a b = true -> key_eq b c = true -> key_eq a c = true.
Proof.
  rewrite !key_eq_repr.
  destruct (key_of a) as [[| |]|], (key_of b) as [[| |]|], (key_of c) as [[| |]|];
    simpl; try discriminate; auto.
  - rewrite !String.eqb_eq. congruence.
  - apply f_key_eq_trans.
Qed.

Lemma key_eq_refl a : hashable a = true -> key_eq a a = true.
Proof.
  destruct a; simpl; try discriminate; intros _; try reflexivity;
    try apply String.eqb_refl; try apply f_key_eq_refl.
  all: apply Qeq_bool_iff, Qeq_refl.
Qed.

Lemma existsb_key_eq_app y s x :
  existsb (key_eq y) (s ++ [x]) = existsb (key_eq y) s || key_eq y x.
Proof. rewrite existsb_app. simpl. rewrite orb_false_r. reflexivity. Qed.

Lemma set_add_mem s x s' :
  set_add s x = Ok s' ->
  hashable x = true /\
  forall y, existsb (key_eq y) s' = existsb (key_eq y) (s ++ [x]).
Proof.
  unfold set_add. destruct (hashable x) eqn:Hx; [|discriminate].
  intro H; injection H as <-. split; [reflexivity |]. intro y.
  destruct (existsb (key_eq x) s) eqn:Hin; [| reflexivity].
  rewrite existsb_key_eq_app.
  destruct (key_eq y x) eqn:Hyx; [| rewrite orb_false_r; reflexivity].
  rewrite orb_true_r. apply existsb_exists in Hin as [z [Hz Hxz]].
  apply existsb_exists. exists z. split; [exact Hz |]. eapply key_eq_trans; eauto.
Qed.

Lemma fold_set_add_mem xs s s' :
  fold_result set_add xs s = Ok s' ->
  Forall (fun x => hashable x = true) xs /\
  forall y, existsb (key_eq y) s' = existsb (key_eq y) (s ++ xs).
Proof.
  revert s; induction xs as [|x xs IH]; intros s H; simpl in H.
  - injection H as <-. split; [constructor |]. intro y. rewrite app_nil_r. reflexivity.
  - inv_bind H. apply set_add_mem in Ha as [Hx Ha].
    destruct (IH _ H) as [Hall Hmem]. split; [constructor; assumption |].
    intro y. rewrite Hmem, !existsb_app, Ha, existsb_app. simpl.
    rewrite orb_false_r, orb_assoc. reflexivity.
Qed.

Lemma set_of_mem ids s :
  set_of ids = Ok s ->
  Forall (fun x => hashable x = true) ids /\
  forall y, existsb (key_eq y) s = existsb (key_eq y) ids.
Proof. apply fold_set_add_mem. Qed.

Lemma fold_set_add_ok xs s :
  Forall (fun x => hashable x = true) xs -> exists s', fold_result set_add xs s = Ok s'.
Proof.
  intro Hall; revert s; induction Hall as [|x xs Hx _ IH]; intro s; simpl.
  - eauto.
  - unfold set_add at 1. rewrite Hx. simpl. apply IH.
Qed.

Lemma set_mem_of ids s x b :
  set_of ids = Ok s -> set_mem x s = Ok b -> b = existsb (key_eq x) ids.
Proof.
  intros Hs Hm. apply set_of_mem in Hs as [_ Hs]. unfold set_mem in Hm.
  destruct (hashable x); [| discriminate]. injection Hm as <-. apply Hs.
Qed.

Lemma dt_lt_before a b x : dt_lt a b = Ok x -> x = dt_before a b.
Proof.
  unfold dt_lt, dt_before. destruct (dt_cmp a b) as [c|]; simpl; [| discriminate].
  intro H; injection H as <-. destruct c; reflexivity.
Qed.

Lemma dt_lt_negb_before a b x :
  (let* c := dt_lt a b in Ok (negb c)) = Ok x -> x = negb (dt_before a b).
Proof.
  intro H. inv_bind H. injection H as <-. rewrite (dt_lt_before _ _ _ Ha). reflexivity.
Qed.

Ltac group_dates_tac f g H :=
  destruct (GroupFilters.start_date f) as [sd|], (GroupFilters.end_date f) as [ed|];
    simpl in H |- *;
  [ destruct (last_seen (eg_metrics g)) as [l|]; simpl in H |- *;
      [| injection H as <-; reflexivity];
    apply bind_ok_inv in H; destruct H as [so [Hso H]];
    rewrite (dt_lt_negb_before _ _ _ Hso) in H;
    destruct (dt_before l sd); simpl in H |- *; [injection H as <-; reflexivity |];
    destruct (first_seen (eg_metrics g)) as [fs|]; simpl in H |- *;
      [| injection H as <-; reflexivity];
    unfold dt_gt in H; rewrite (dt_lt_negb_before _ _ _ H); reflexivity
  | destruct (last_seen (eg_metrics g)) as [l|]; simpl in H |- *;
      [| injection H as <-; reflexivity];
    apply bind_ok_inv in H; destruct H as [so [Hso H]];
    rewrite (dt_lt_negb_before _ _ _ Hso) in H;
    destruct (dt_before l sd); simpl in H |- *; injection H as <-; reflexivity
  | destruct (first_seen (eg_metrics g)) as [fs|]; simpl in H |- *;
      [| injection H as <-; reflexivity];
    unfold dt_gt in H; rewrite (dt_lt_negb_before _ _ _ H); reflexivity
  | injection H as <-; reflexivity ].

Lemma group_passes_amended f ids s g b :
  set_of ids = Ok s -> group_passes f s g = Ok b -> b = amended_group_passes f ids g.
Proof.
  intros Hs H. unfold group_passes in H. unfold amended_group_passes, dates_overlap.
  destruct (risk_score (eg_metrics g) <? GroupFilters.min_risk f) eqn:E1.
  { injection H as <-. apply Z.ltb_lt in E1.
    replace (GroupFilters.min_risk f <=? risk_score (eg_metrics g)) with false
      by (symmetry; apply Z.leb_gt; lia).
    reflexivity. }
  replace (GroupFilters.min_risk f <=? risk_score (eg_metrics g)) with true
    by (symmetry; apply Z.leb_le; apply Z.ltb_ge in E1; lia).
  unfold f_gt in H.
  destruct (f_lt (total_amount (eg_metrics g)) (GroupFilters.min_total f)) eqn:E2;
    simpl in H |- *.
  { injection H as <-. reflexivity. }
  destruct (f_lt (GroupFilters.max_total f) (total_amount (eg_metrics g))) eqn:E3;
    simpl in H |- *.
  { injection H as <-. reflexivity. }
  destruct (GroupFilters.reported_only f) eqn:E4; simpl in H |- *.
  - inv_bind H. rewrite (set_mem_of _ _ _ _ Hs Ha) in H.
    destruct (existsb (key_eq (group_id g)) ids); simpl in H |- *;
      [| injection H as <-; reflexivity].
    group_dates_tac f g H.
  - group_dates_tac f g H.
Qed.

Lemma map_result_ok {A B} (f : A -> result B) xs ys :
  map_result f xs = Ok ys -> Forall (fun y => exists x, In x xs /\ f x = Ok y) ys.
Proof.
  revert ys; induction xs as [|x xs IH]; intros ys H; simpl in H.
  - injection H as <-. constructor.
  - inv_bind H. inv_bind H. injection H as <-. constructor.
    + exists x. split; [left; reflexivity | exact Ha].
    + eapply Forall_impl; [| apply IH; exact Ha0].
      intros y [x' [Hx' Hy]]. exists x'. split; [right |]; assumption.
Qed.

Lemma filter_result_eval {A} (p : A -> result bool) (q : A -> bool) xs :
  (forall x, In x xs -> p x = Ok (q x)) -> filter_result p xs = Ok (filter q xs).
Proof.
  induction xs as [|x xs IH]; intro H; simpl; [reflexivity |].
  rewrite (H x (or_introl eq_refl)). simpl.
  rewrite IH by (intros; apply H; right; assumption). reflexivity.
Qed.

Lemma f_lt_PInf_l x : f_lt PInf x = false.
Proof. destruct x; reflexivity. Qed.

Lemma group_passes_default s g :
  0 <= risk_score (eg_metrics g) ->
  group_passes GroupFilters.default s g =
    Ok (negb (f_lt (total_amount (eg_metrics g)) (Fin 0))).
Proof.
  intro Hr. unfold group_passes, GroupFilters.default.
  cbn [GroupFilters.min_risk GroupFilters.min_total GroupFilters.max_total
       GroupFilters.reported_only GroupFilters.start_date GroupFilters.end_date].
  replace (risk_score (eg_metrics g) <? 0) with false by (symmetry; apply Z.ltb_ge; lia).
  unfold f_gt. rewrite f_lt_PInf_l, orb_false_r.
  destruct (f_lt (total_amount (eg_metrics g)) (Fin 0)); reflexivity.
Qed.

(** C5: when [filter_groups] returns, its result is, in input order, the
    groups whose risk score is at least [min_risk], whose total is neither
    below [min_total] nor above [max_total] (a NaN total passes both
    tests), whose id is a reported id when [reported_only] is set, and
    whose [last_seen] exists and is not before [start_date] and
    [first_seen] exists and is not after [end_date] when these are given. *)
Theorem filter_groups_spec (gs : list egroup) (f : GroupFilters.t) (ids : list json)
  (r : list egroup) :
  filter_groups gs f ids = Ok r -> r = filter (amended_group_passes f ids) gs.
Proof.
  unfold filter_groups. intro H. inv_bind H.
  destruct (filter_result_ok _ _ _ H) as [Hall ->].
  apply filter_ext_in. intros g Hg. rewrite Forall_forall in Hall.
  destruct (Hall g Hg) as [b Hb]. rewrite Hb.
  exact (group_passes_amended _ _ _ _ _ Ha Hb).
Qed.

(** C5: [filter_groups_spec] applied to seven groups under three filter
    settings: groups dropped for their risk score, for a total above
    [max_total] or below [min_total], for not being reported and for
    lacking timestamps; a NaN total kept; a start date after the last
    transaction dropping every group. *)
Lemma filter_groups_spec_witness :
  (filter_groups filter_sample_groups total_filters total_reported =
     Ok [nth 2 filter_sample_groups sample_group; nth 3 filter_sample_groups sample_group;
         nth 4 filter_sample_groups sample_group] /\
   [nth 2 filter_sample_groups sample_group; nth 3 filter_sample_groups sample_group;
    nth 4 filter_sample_groups sample_group] =
     filter (amended_group_passes total_filters total_reported) filter_sample_groups) /\
  (filter_groups filter_sample_groups window_filters [JStr "G7"; JStr "G1"; JStr "G-NAN"; JStr "G-POS"] =
     Ok [seen_group] /\
   [seen_group] =
     filter (amended_group_passes window_filters [JStr "G7"; JStr "G1"; JStr "G-NAN"; JStr "G-POS"])
       filter_sample_groups) /\
  (filter_groups filter_sample_groups late_window_filters [] = Ok [] /\
   [] = filter (amended_group_passes late_window_filters []) filter_sample_groups).
Proof.
  assert (H1 : filter_groups filter_sample_groups total_filters total_reported =
     Ok [nth 2 filter_sample_groups sample_group; nth 3 filter_sample_groups sample_group;
         nth 4 filter_sample_groups sample_group]) by (vm_compute; reflexivity).
  assert (H2 : filter_groups filter_sample_groups window_filters [JStr "G7"; JStr "G1"; JStr "G-NAN"; JStr "G-POS"] =
     Ok [seen_group]) by (vm_compute; reflexivity).
  assert (H3 : filter_groups filter_sample_groups late_window_filters [] = Ok [])
    by (vm_compute; reflexivity).
  split; [split; [exact H1 | exact (filter_groups_spec _ _ _ _ H1)] |].
  split; [split; [exact H2 | exact (filter_groups_spec _ _ _ _ H2)] |].
  split; [exact H3 | exact (filter_groups_spec _ _ _ _ H3)].
Defined.

(** C5: a group whose total amount is NaN passes the default filters,
    although [min_total <= total_amount] is false for it. *)
Lemma filter_groups_nan_total :
  match enrich_group nan_group with
  | Ok g =>
      filter_groups [g] GroupFilters.default [] = Ok [g] /\
      filter (spec_group_passes GroupFilters.default []) [g] = []
  | Err _ => False
  end.
Proof. vm_compute. split; reflexivity. Qed.

(** C9: [filter_groups] is idempotent: applied with the same filters and
    reported ids to its own output, it returns that output again. *)
Theorem filter_groups_idempotent (gs : list egroup) (f : GroupFilters.t) (ids : list json)
  (r : list egroup) :
  filter_groups gs f ids = Ok r -> filter_groups r f ids = Ok r.
Proof.
  unfold filter_groups. intro H. inv_bind H. rewrite Ha. simpl.
  apply filter_result_all. exact (filter_result_kept _ _ _ H).
Qed.

(** C9: [filter_groups_idempotent] on the groups with a negative and a
    positive total. *)
Lemma filter_groups_idempotent_witness :
  filter_groups negative_groups GroupFilters.default [] = Ok [nth 1 negative_groups sample_group] /\
  filter_groups [nth 1 negative_groups sample_group] GroupFilters.default [] =
    Ok [nth 1 negative_groups sample_group].
Proof.
  split; [vm_compute; reflexivity |].
  apply (filter_groups_idempotent negative_groups). vm_compute; reflexivity.
Defined.

(** C10: with the default filters and hashable reported ids,
    [filter_groups] on enriched groups keeps, in input order, exactly the
    groups whose total amount is not below 0. *)
Theorem filter_groups_default_filters (raws : list dict) (gs : list egroup) (ids : list json) :
  map_result enrich_group raws = Ok gs ->
  Forall (fun i => hashable i = true) ids ->
  filter_groups gs GroupFilters.default ids =
    Ok (filter (fun g => negb (f_lt (total_amount (eg_metrics g)) (Fin 0))) gs).
Proof.
  intros Hgs Hids. unfold filter_groups, set_of.
  destruct (fold_set_add_ok ids [] Hids) as [s Hs]. rewrite Hs. simpl.
  apply filter_result_eval. intros g Hg.
  apply map_result_ok in Hgs. rewrite Forall_forall in Hgs.
  destruct (Hgs g Hg) as [raw [_ Hraw]].
  apply group_passes_default.
  pose proof (enrich_group_risk_bounds _ _ Hraw). lia.
Qed.

(** C10: [filter_groups_default_filters] on a group with a negative total
    and one with a positive total. *)
Lemma filter_groups_default_filters_witness :
  map_result enrich_group negative_raws = Ok negative_groups /\
  Forall (fun i => hashable i = true) [JStr "G-NEG"] /\
  filter_groups negative_groups GroupFilters.default [JStr "G-NEG"] =
    Ok (filter (fun g => negb (f_lt (total_amount (eg_metrics g)) (Fin 0))) negative_groups).
Proof.
  split; [vm_compute; reflexivity |].
  split; [repeat constructor |].
  apply (filter_groups_default_filters negative_raws); [vm_compute; reflexivity | repeat constructor].
Defined.

(** C10: a group whose total amount is NaN is kept by the default filters,
    although its total is not [>= 0]. *)
Lemma default_filters_nan_total :
  match enrich_group nan_group with
  | Ok g =>
      filter_groups [g] GroupFilters.default [] = Ok [g] /\
      f_le (Fin 0) (total_amount (eg_metrics g)) = false
  | Err _ => False
  end.
Proof. vm_compute. split; reflexivity. Qed.

(** ** The outgoing ratio *)

Lemma enrich_step_outgoing a tx a' :
  enrich_step a tx = Ok a' ->
  acc_outgoing a' = acc_outgoing a + (if is_outgoing_tx tx then 1 else 0).
Proof.
  destruct tx as [| | | | | | d]; simpl; try discriminate.
  intro H. inv_bind H. destruct a0 as [[total mn] mx].
  inv_bind H. inv_bind H. inv_bind H. injection H as <-. simpl.
  rewrite Ha1.
  destruct ((a1 =? "out")%string || ((a1 =? "outgoing")%string || ((a1 =? "debit")%string || false))); lia.
Qed.

Lemma fold_enrich_outgoing txs a a' :
  fold_result enrich_step txs a = Ok a' ->
  acc_outgoing a' = acc_outgoing a + outgoing_count txs.
Proof.
  unfold outgoing_count.
  revert a; induction txs as [|tx txs IH]; intros a H; simpl in H.
  - injection H as <-. simpl. lia.
  - inv_bind H. rewrite (IH _ H), (enrich_step_outgoing _ _ _ Ha). simpl.
    destruct (is_outgoing_tx tx); simpl; lia.
Qed.

Lemma outgoing_count_bounds txs :
  0 <= outgoing_count txs <= Z.of_nat (List.length txs).
Proof.
  unfold outgoing_count. split; [lia |].
  apply inj_le. induction txs as [|tx txs IH]; simpl; [lia |].
  destruct (is_outgoing_tx tx); simpl; lia.
Qed.

Lemma chars_of_length s : List.length (chars_of s) = String.length s.
Proof. induction s; simpl; congruence. Qed.

Lemma py_iter_len v l : py_iter v = Ok l -> py_len v = Ok (Z.of_nat (List.length l)).
Proof.
  destruct v; simpl; intro H; try discriminate; injection H as <-.
  all: try reflexivity.
  - rewrite chars_of_length. reflexivity.
  - rewrite length_map. reflexivity.
Qed.

Lemma ratio_bounds outgoing tc :
  0 <= outgoing <= tc ->
  f_le (Fin 0) (ratio outgoing tc) = true /\ f_le (ratio outgoing tc) (Fin 1) = true.
Proof.
  intros Hb. unfold ratio. destruct (tc =? 0) eqn:E.
  - split; reflexivity.
  - apply Z.eqb_neq in E. assert (Htc : (0 < inject_Z tc)%Q).
    { change 0%Q with (inject_Z 0). rewrite <- Zlt_Qlt. lia. }
    simpl. split; apply Qle_bool_iff.
    + apply Qle_shift_div_l; [exact Htc |]. rewrite Qmult_0_l.
      change 0%Q with (inject_Z 0). rewrite <- Zle_Qle. lia.
    + apply Qle_shift_div_r; [exact Htc |]. rewrite Qmult_1_l.
      rewrite <- Zle_Qle. lia.
Qed.

(** C8: the outgoing ratio of an enriched group is the number of its
    transactions whose lower-cased direction is [out], [outgoing] or
    [debit] over the transaction count, 0 when there is no transaction,
    and lies in [0, 1]. *)
Theorem enrich_group_outgoing_ratio (raw : dict) (g : egroup) :
  enrich_group raw = Ok g ->
  let m := eg_metrics g in
  exists txs,
    py_iter (json_or (dict_get raw "transactions") (JList [])) = Ok txs /\
    transaction_count m = Z.of_nat (List.length txs) /\
    outgoing_ratio m =
      (if transaction_count m =? 0 then Fin 0
       else Fin (inject_Z (outgoing_count txs) / inject_Z (transaction_count m))) /\
    f_le (Fin 0) (outgoing_ratio m) = true /\
    f_le (outgoing_ratio m) (Fin 1) = true.
Proof.
  unfold enrich_group. intro H.
  inv_bind H. inv_bind H. inv_bind H. inv_bind H. inv_bind H.
  destruct (opt_min_dt (acc_timestamps a0)) as [first|] eqn:Ef; [| discriminate].
  simpl in H.
  destruct (opt_max_dt (acc_timestamps a0)) as [last|] eqn:El; [| discriminate].
  simpl in H. inv_bind H. injection H as <-. cbn zeta. simpl.
  exists a. rewrite (py_iter_len _ _ Ha) in Ha1. injection Ha1 as <-.
  rewrite (fold_enrich_outgoing _ _ _ Ha0). simpl.
  split; [exact Ha |]. split; [reflexivity |]. split; [reflexivity |].
  apply ratio_bounds. pose proof (outgoing_count_bounds a). lia.
Qed.

(** C8: [enrich_group_outgoing_ratio] on a group with an outgoing, an
    incoming and an undirected transaction. *)
Lemma enrich_group_outgoing_ratio_witness :
  enrich_group ratio_raw = Ok ratio_group /\
  let m := eg_metrics ratio_group in
  exists txs,
    py_iter (json_or (dict_get ratio_raw "transactions") (JList [])) = Ok txs /\
    transaction_count m = Z.of_nat (List.length txs) /\
    outgoing_ratio m =
      (if transaction_count m =? 0 then Fin 0
       else Fin (inject_Z (outgoing_count txs) / inject_Z (transaction_count m))) /\
    f_le (Fin 0) (outgoing_ratio m) = true /\
    f_le (outgoing_ratio m) (Fin 1) = true.
Proof.
  split; [vm_compute; reflexivity |].
  apply (enrich_group_outgoing_ratio ratio_raw ratio_group). vm_compute; reflexivity.
Defined.

(** ** Summary statistics *)

Section MinMax.
Variable A : Type.
Variable lt : A -> A -> result bool.

Lemma py_min_by_in x xs m : py_min_by lt x xs = Ok m -> In m (x :: xs).
Proof.
  unfold py_min_by. revert x.
  induction xs as [|y xs IH]; intros x H; simpl in H.
  - injection H as <-. left; reflexivity.
  - inv_bind H. inv_bind Ha. injection Ha as <-.
    destruct a0; destruct (IH _ H) as [<-|Hin]; simpl; tauto.
Qed.

Lemma py_max_by_in x xs m : py_max_by lt x xs = Ok m -> In m (x :: xs).
Proof.
  unfold py_max_by. revert x.
  induction xs as [|y xs IH]; intros x H; simpl in H.
  - injection H as <-. left; reflexivity.
  - inv_bind H. inv_bind Ha. injection Ha as <-.
    destruct a0; destruct (IH _ H) as [<-|Hin]; simpl; tauto.
Qed.

Variable P : A -> Prop.
Hypothesis lt_ok : forall a b, P a -> P b -> exists r, lt a b = Ok r.

Lemma py_min_by_ok x xs : P x -> Forall P xs -> exists m, py_min_by lt x xs = Ok m.
Proof.
  unfold py_min_by. intros Hx Hxs. revert x Hx.
  induction Hxs as [|y xs Hy _ IH]; intros x Hx; simpl; [eauto |].
  destruct (lt_ok y x Hy Hx) as [r ->]. simpl.
  destruct r; apply IH; assumption.
Qed.

Lemma py_max_by_ok x xs : P x -> Forall P xs -> exists m, py_max_by lt x xs = Ok m.
Proof.
  unfold py_max_by. intros Hx Hxs. revert x Hx.
  induction Hxs as [|y xs Hy _ IH]; intros x Hx; simpl; [eauto |].
  destruct (lt_ok x y Hx Hy) as [r ->]. simpl.
  destruct r; apply IH; assumption.
Qed.

Lemma opt_min_max_ok xs :
  Forall P xs -> exists lo hi, opt_min_by lt xs = Ok lo /\ opt_max_by lt xs = Ok hi.
Proof.
  intro H. destruct xs as [|x xs]; simpl; [eauto |].
  inversion H as [|? ? Hx Hxs]; subst.
  destruct (py_min_by_ok x xs Hx Hxs) as [m ->].
  destruct (py_max_by_ok x xs Hx Hxs) as [M ->]. simpl. eauto.
Qed.

Variable le : A -> A -> bool.
Hypothesis lt_le : forall a b, lt a b = Ok true -> le a b = true.
Hypothesis le_trans : forall a b c, le a b = true -> le b c = true -> le a c = true.

Lemma py_min_by_le x xs m : le x x = true -> py_min_by lt x xs = Ok m -> le m x = true.
Proof.
  unfold py_min_by. intros Hx H.
  enough (Hgen : forall cur, le cur x = true ->
            fold_result (fun cur y => let* b := lt y cur in Ok (if b then y else cur)) xs cur
            = Ok m -> le m x = true) by exact (Hgen x Hx H).
  clear H. induction xs as [|y xs IH]; intros cur Hcur H; simpl in H.
  - injection H as <-. exact Hcur.
  - inv_bind H. inv_bind Ha. injection Ha as <-. destruct a0; (eapply IH; [| exact H]).
    + apply le_trans with cur; [apply lt_le |]; assumption.
    + exact Hcur.
Qed.

Lemma py_max_by_ge x xs m : le x x = true -> py_max_by lt x xs = Ok m -> le x m = true.
Proof.
  unfold py_max_by. intros Hx H.
  enough (Hgen : forall cur, le x cur = true ->
            fold_result (fun cur y => let* b := lt cur y in Ok (if b then y else cur)) xs cur
            = Ok m -> le x m = true) by exact (Hgen x Hx H).
  clear H. induction xs as [|y xs IH]; intros cur Hcur H; simpl in H.
  - injection H as <-. exact Hcur.
  - inv_bind H. inv_bind Ha. injection Ha as <-. destruct a0; (eapply IH; [| exact H]).
    + apply le_trans with cur; [| apply lt_le]; assumption.
    + exact Hcur.
Qed.

Lemma opt_min_max_le xs lo hi :
  match xs with x :: _ => le x x = true | [] => True end ->
  opt_min_by lt xs = Ok lo -> opt_max_by lt xs = Ok hi -> opt_le le lo hi.
Proof.
  destruct xs as [|x xs]; simpl; intros Hx Hlo Hhi.
  - injection Hlo as <-. exact I.
  - inv_bind Hlo. inv_bind Hhi. injection Hlo as <-. injection Hhi as <-. simpl.
    apply le_trans with x; [eapply py_min_by_le | eapply py_max_by_ge]; eauto.
Qed.
End MinMax.

Lemma f_lt_le a b : f_lt a b = true -> f_le a b = true.
Proof.
  destruct a, b; simpl; try discriminate; auto.
  unfold Qlt_bool. intro H. apply negb_true_iff in H.
  apply Qle_bool_iff. apply Qlt_le_weak, Qnot_le_lt. intro H'.
  apply Qle_bool_iff in H'. congruence.
Qed.

Lemma f_le_trans a b c : f_le a b = true -> f_le b c = true -> f_le a c = true.
Proof.
  destruct a, b, c; simpl; intros; try discriminate; auto.
  apply Qle_bool_iff. apply Qle_bool_iff in H. apply Qle_bool_iff in H0.
  eapply Qle_trans; eauto.
Qed.

Lemma f_le_refl a : f_is_nan a = false -> f_le a a = true.
Proof.
  destruct a; simpl; intros; try discriminate; auto. apply Qle_bool_iff, Qle_refl.
Qed.

Lemma dt_lt_le a b : dt_lt a b = Ok true -> dt_le_b a b = true.
Proof.
  unfold dt_lt, dt_le_b. destruct (dt_cmp a b) as [c|]; simpl; [| discriminate].
  intro H; injection H; destruct c; congruence.
Qed.

Lemma compare_not_gt x y : match x ?= y with Gt => false | _ => true end = (x <=? y).
Proof.
  destruct (Z.compare_spec x y); symmetry; [apply Z.leb_le | apply Z.leb_le | apply Z.leb_gt];
    lia.
Qed.

Lemma dt_le_trans a b c : dt_le_b a b = true -> dt_le_b b c = true -> dt_le_b a c = true.
Proof.
  unfold dt_le_b, dt_cmp.
  destruct (dt_offset a), (dt_offset b), (dt_offset c); simpl; try discriminate;
    rewrite ?compare_not_gt, ?Z.leb_le; lia.
Qed.

Lemma dt_le_refl a : dt_le_b a a = true.
Proof.
  unfold dt_le_b, dt_cmp. destruct (dt_offset a); rewrite Z.compare_refl; reflexivity.
Qed.

Lemma z_lt_le a b : z_lt_r a b = Ok true -> Z.leb a b = true.
Proof.
  unfold z_lt_r. intro H; injection H as H. apply Z.ltb_lt in H. apply Z.leb_le. lia.
Qed.

Lemma z_le_trans a b c : Z.leb a b = true -> Z.leb b c = true -> Z.leb a c = true.
Proof. rewrite !Z.leb_le. lia. Qed.

Lemma f_lt_not_nan a b : f_lt a b = true -> f_is_nan a = false /\ f_is_nan b = false.
Proof. destruct a, b; simpl; try discriminate; auto. Qed.

Lemma parse_iso_aware v d : parse_iso_datetime v = Ok (Some d) -> aware d.
Proof.
  unfold parse_iso_datetime, aware. destruct (negb (truthy v)); [discriminate |].
  destruct v; try discriminate.
  destruct (fromisoformat _) as [d0|]; [| discriminate].
  intro H; injection H as <-. destruct (dt_offset d0) eqn:E; simpl; congruence.
Qed.

Lemma min_max_step mn mx v :
  tx_pair_ok mn mx ->
  tx_pair_ok (Some (match mn with None => v | Some m => py_min2 m v end))
             (Some (match mx with None => v | Some m => py_max2 m v end)).
Proof.
  destruct mn as [m1|], mx as [m2|]; simpl; try contradiction.
  - unfold py_min2, py_max2, f_gt. intros IH Hn1 Hn2.
    destruct (f_lt v m1) eqn:E1, (f_lt m2 v) eqn:E2.
    + apply f_le_refl; assumption.
    + destruct (f_lt_not_nan _ _ E1) as [_ Hm1].
      apply f_le_trans with m1; [apply f_lt_le; assumption | apply IH; assumption].
    + destruct (f_lt_not_nan _ _ E2) as [Hm2 _].
      apply f_le_trans with m2; [apply IH; assumption | apply f_lt_le; assumption].
    + apply IH; assumption.
  - intros _ Hn _. apply f_le_refl; assumption.
Qed.

Lemma enrich_step_facts a tx a' :
  enrich_step a tx = Ok a' ->
  (Forall aware (acc_timestamps a) -> Forall aware (acc_timestamps a')) /\
  (tx_pair_ok (acc_min a) (acc_max a) -> tx_pair_ok (acc_min a') (acc_max a')).
Proof.
  destruct tx as [| | | | | | d]; simpl; try discriminate.
  intro H. inv_bind H. destruct a0 as [[total mn] mx].
  inv_bind H. inv_bind H. inv_bind H. injection H as <-. simpl. split.
  - intro Hts. destruct a2 as [t|]; [| exact Hts].
    apply Forall_app. split; [exact Hts |]. constructor; [| constructor].
    eapply parse_iso_aware; eauto.
  - destruct (numeric_amount (dict_get d "amount")) as [r|].
    + inv_bind Ha. injection Ha as <- <- <-. apply min_max_step.
    + injection Ha as <- <- <-. exact (fun H => H).
Qed.

Lemma fold_enrich_facts txs a a' :
  fold_result enrich_step txs a = Ok a' ->
  (Forall aware (acc_timestamps a) -> Forall aware (acc_timestamps a')) /\
  (tx_pair_ok (acc_min a) (acc_max a) -> tx_pair_ok (acc_min a') (acc_max a')).
Proof.
  revert a; induction txs as [|tx txs IH]; intros a H; simpl in H.
  - injection H as <-. auto.
  - inv_bind H. destruct (enrich_step_facts _ _ _ Ha) as [H1 H2].
    destruct (IH _ H) as [H3 H4]. auto.
Qed.

Lemma opt_min_dt_aware xs o : Forall aware xs -> opt_min_dt xs = Ok o -> opt_aware o.
Proof.
  destruct xs as [|x xs]; simpl; intros Hall H.
  - injection H as <-. exact I.
  - inv_bind H. injection H as <-. simpl.
    apply py_min_by_in in Ha. rewrite Forall_forall in Hall. auto.
Qed.

Lemma opt_max_dt_aware xs o : Forall aware xs -> opt_max_dt xs = Ok o -> opt_aware o.
Proof.
  destruct xs as [|x xs]; simpl; intros Hall H.
  - injection H as <-. exact I.
  - inv_bind H. injection H as <-. simpl.
    apply py_max_by_in in Ha. rewrite Forall_forall in Hall. auto.
Qed.

Lemma enrich_group_facts raw g :
  enrich_group raw = Ok g ->
  let m := eg_metrics g in
  opt_aware (first_seen m) /\ opt_aware (last_seen m) /\
  tx_pair_ok (min_transaction_amount m) (max_transaction_amount m).
Proof.
  unfold enrich_group. intro H.
  do 5 inv_bind H.
  destruct (opt_min_dt (acc_timestamps a0)) as [first|] eqn:Ef; [| discriminate].
  simpl in H.
  destruct (opt_max_dt (acc_timestamps a0)) as [last|] eqn:El; [| discriminate].
  simpl in H. inv_bind H. injection H as <-. simpl.
  destruct (fold_enrich_facts _ _ _ Ha0) as [Hts Hmm].
  specialize (Hts (Forall_nil _)). specialize (Hmm I).
  split; [| split].
  - eapply opt_min_dt_aware; eauto.
  - eapply opt_max_dt_aware; eauto.
  - exact Hmm.
Qed.

Lemma tx_heads gs :
  Forall (fun g => tx_pair_ok (min_transaction_amount (eg_metrics g))
                              (max_transaction_amount (eg_metrics g)) /\
                   opt_not_nan (min_transaction_amount (eg_metrics g)) &&
                   opt_not_nan (max_transaction_amount (eg_metrics g)) = true) gs ->
  match flat_map (fun g => opt_list (min_transaction_amount (eg_metrics g))) gs,
        flat_map (fun g => opt_list (max_transaction_amount (eg_metrics g))) gs with
  | [], [] => True
  | a :: _, b :: _ => f_le a a = true /\ f_le a b = true /\ f_le b b = true
  | _, _ => False
  end.
Proof.
  induction 1 as [|g gs [Hp Hn] _ IH]; simpl; [exact I |].
  destruct (min_transaction_amount (eg_metrics g)) as [a|],
           (max_transaction_amount (eg_metrics g)) as [b|];
    simpl in Hp, Hn |- *; try contradiction.
  - apply andb_true_iff in Hn as [Ha Hb]. apply negb_true_iff in Ha, Hb.
    split; [apply f_le_refl; exact Ha |]. split; [apply Hp; assumption |].
    apply f_le_refl; exact Hb.
  - exact IH.
Qed.

Lemma f_lt_r_le a b : f_lt_r a b = Ok true -> f_le a b = true.
Proof. unfold f_lt_r. intro H; injection H; apply f_lt_le. Qed.

Lemma Forall_true {A} (l : list A) : Forall (fun _ => True) l.
Proof. apply Forall_forall. intros; exact I. Qed.

Lemma dt_lt_aware_ok a b : aware a -> aware b -> exists r, dt_lt a b = Ok r.
Proof.
  unfold aware, dt_lt, dt_cmp. destruct (dt_offset a), (dt_offset b); try congruence.
  intros _ _. eexists; reflexivity.
Qed.

(** C7: on enriched groups [summarize_groups] returns; on no group every
    field is [None]; the risk and date bounds are ordered; the total
    amount bounds are ordered when no total is NaN; the transaction
    amount bounds are ordered when no group's minimum or maximum
    transaction amount is NaN. *)
Theorem summarize_groups_bounds (raws : list dict) (gs : list egroup) :
  map_result enrich_group raws = Ok gs ->
  exists s, summarize_groups gs = Ok s /\
    (gs = [] -> s = SummaryStats.mk None None None None None None None None) /\
    opt_le Z.leb (SummaryStats.min_risk s) (SummaryStats.max_risk s) /\
    opt_le dt_le_b (SummaryStats.min_date s) (SummaryStats.max_date s) /\
    (Forall (fun g => f_is_nan (total_amount (eg_metrics g)) = false) gs ->
     opt_le f_le (SummaryStats.min_total_amount s) (SummaryStats.max_total_amount s)) /\
    (Forall (fun g => opt_not_nan (min_transaction_amount (eg_metrics g)) &&
                      opt_not_nan (max_transaction_amount (eg_metrics g)) = true) gs ->
     opt_le f_le (SummaryStats.min_tx_amount s) (SummaryStats.max_tx_amount s)).
Proof.
  intro Hgs.
  assert (Hfacts : Forall (fun g =>
            opt_aware (first_seen (eg_metrics g)) /\ opt_aware (last_seen (eg_metrics g)) /\
            tx_pair_ok (min_transaction_amount (eg_metrics g))
                       (max_transaction_amount (eg_metrics g))) gs).
  { apply map_result_ok in Hgs. eapply Forall_impl; [| exact Hgs].
    intros g [raw [_ Hraw]]. exact (enrich_group_facts _ _ Hraw). }
  clear Hgs.
  destruct gs as [|g0 gs'].
  { eexists. split; [reflexivity |]. simpl. repeat split; intros; exact I. }
  assert (Hdates : Forall aware
            (flat_map (fun g => opt_list (first_seen (eg_metrics g)) ++
                                opt_list (last_seen (eg_metrics g))) (g0 :: gs'))).
  { apply Forall_forall. intros d Hd. apply in_flat_map in Hd as [g [Hg Hd]].
    rewrite Forall_forall in Hfacts. destruct (Hfacts g Hg) as [Hf [Hl _]].
    apply in_app_or in Hd as [Hd|Hd];
      [destruct (first_seen (eg_metrics g)) | destruct (last_seen (eg_metrics g))];
      simpl in Hd; try contradiction; destruct Hd as [<-|[]]; assumption. }
  destruct (opt_min_max_ok _ f_lt_r (fun _ => True) (fun a b _ _ => ex_intro _ (f_lt a b) eq_refl)
              (map (fun g => total_amount (eg_metrics g)) (g0 :: gs')) (Forall_true _))
    as [lo1 [hi1 [E1 E2]]].
  destruct (opt_min_max_ok _ z_lt_r (fun _ => True) (fun a b _ _ => ex_intro _ (a <? b) eq_refl)
              (map (fun g => risk_score (eg_metrics g)) (g0 :: gs')) (Forall_true _))
    as [lo2 [hi2 [E3 E4]]].
  destruct (opt_min_max_ok _ dt_lt aware dt_lt_aware_ok _ Hdates) as [lo3 [hi3 [E5 E6]]].
  destruct (opt_min_max_ok _ f_lt_r (fun _ => True) (fun a b _ _ => ex_intro _ (f_lt a b) eq_refl)
              (flat_map (fun g => opt_list (min_transaction_amount (eg_metrics g))) (g0 :: gs'))
              (Forall_true _))
    as [lo4 [hi4' [E7 E8']]].
  destruct (opt_min_max_ok _ f_lt_r (fun _ => True) (fun a b _ _ => ex_intro _ (f_lt a b) eq_refl)
              (flat_map (fun g => opt_list (max_transaction_amount (eg_metrics g))) (g0 :: gs'))
              (Forall_true _))
    as [lo4' [hi4 [E7' E8]]].
  unfold summarize_groups. cbv beta iota zeta.
  rewrite E1, E2, E3, E4, E5, E6, E7, E8. simpl.
  eexists. split; [reflexivity |].
  split; [discriminate |].
  split; [| split; [| split]]; simpl.
  - eapply opt_min_max_le; [exact z_lt_le | exact z_le_trans | | exact E3 | exact E4].
    simpl. apply Z.leb_refl.
  - eapply opt_min_max_le; [exact dt_lt_le | exact dt_le_trans | | exact E5 | exact E6].
    destruct (flat_map _ _); [exact I | apply dt_le_refl].
  - intro Hn. inversion Hn as [|? ? Hn0 _]; subst.
    eapply opt_min_max_le; [| exact f_le_trans | | exact E1 | exact E2].
    + exact f_lt_r_le.
    + simpl. apply f_le_refl; exact Hn0.
  - intro Hn.
    assert (Hh : Forall (fun g =>
              tx_pair_ok (min_transaction_amount (eg_metrics g))
                         (max_transaction_amount (eg_metrics g)) /\
              opt_not_nan (min_transaction_amount (eg_metrics g)) &&
              opt_not_nan (max_transaction_amount (eg_metrics g)) = true) (g0 :: gs')).
    { rewrite Forall_forall in *. intros g Hg.
      destruct (Hfacts g Hg) as [_ [_ Hp]]. split; [exact Hp | exact (Hn g Hg)]. }
    apply tx_heads in Hh. clear E7' E8'. revert Hh E7 E8.
    generalize (flat_map (fun g => opt_list (min_transaction_amount (eg_metrics g))) (g0 :: gs'))
      as L1.
    generalize (flat_map (fun g => opt_list (max_transaction_amount (eg_metrics g))) (g0 :: gs'))
      as L2.
    intros L2 L1. destruct L1 as [|a L1], L2 as [|b L2]; simpl; intros Hh Hlo Hhi;
      try contradiction.
    + injection Hlo as <-. exact I.
    + destruct Hh as [Ha [Hab Hb]]. inv_bind Hlo. inv_bind Hhi.
      injection Hlo as <-. injection Hhi as <-. simpl.
      apply f_le_trans with a.
      * exact (py_min_by_le _ f_lt_r f_le f_lt_r_le f_le_trans _ _ _ Ha Ha0).
      * apply f_le_trans with b; [exact Hab |].
        exact (py_max_by_ge _ f_lt_r f_le f_lt_r_le f_le_trans _ _ _ Hb Ha1).
Qed.

(** C7: [summarize_groups_bounds] on the groups with a negative and a
    positive total. *)
Lemma summarize_groups_bounds_witness :
  map_result enrich_group negative_raws = Ok negative_groups /\
  exists s, summarize_groups negative_groups = Ok s /\
    (negative_groups = [] -> s = SummaryStats.mk None None None None None None None None) /\
    opt_le Z.leb (SummaryStats.min_risk s) (SummaryStats.max_risk s) /\
    opt_le dt_le_b (SummaryStats.min_date s) (SummaryStats.max_date s) /\
    (Forall (fun g => f_is_nan (total_amount (eg_metrics g)) = false) negative_groups ->
     opt_le f_le (SummaryStats.min_total_amount s) (SummaryStats.max_total_amount s)) /\
    (Forall (fun g => opt_not_nan (min_transaction_amount (eg_metrics g)) &&
                      opt_not_nan (max_transaction_amount (eg_metrics g)) = true)
            negative_groups ->
     opt_le f_le (SummaryStats.min_tx_amount s) (SummaryStats.max_tx_amount s)).
Proof.
  split; [vm_compute; reflexivity |].
  apply (summarize_groups_bounds negative_raws). vm_compute; reflexivity.
Defined.

(** C7: for a group whose total amount is NaN, the summary's total amount
    bounds are NaN and are not ordered. *)
Lemma summarize_groups_nan_total :
  match enrich_group nan_group with
  | Ok g => exists s, summarize_groups [g] = Ok s /\ ~ summary_ordered s
  | Err _ => False
  end.
Proof. vm_compute. eexists. split; [reflexivity |]. intros [H _]. discriminate. Qed.

(** ** Snapshot correlation *)

Lemma Sublist_refl {A} (l : list A) : Sublist l l.
Proof. induction l; constructor; assumption. Qed.

Lemma Sublist_nil_l {A} (l : list A) : Sublist [] l.
Proof. induction l; constructor; assumption. Qed.

Lemma Sublist_filter {A} (p : A -> bool) l : Sublist (filter p l) l.
Proof.
  induction l as [|x l IH]; simpl; [constructor |].
  destruct (p x); constructor; exact IH.
Qed.

Lemma Sublist_firstn {A} n (l : list A) : Sublist (firstn n l) l.
Proof.
  revert l; induction n as [|n IH]; intro l; simpl; [apply Sublist_nil_l |].
  destruct l; constructor; apply IH.
Qed.

Lemma Sublist_trans {A} (l1 l2 l3 : list A) : Sublist l1 l2 -> Sublist l2 l3 -> Sublist l1 l3.
Proof.
  intros H12 H23. revert l1 H12. induction H23 as [|x l2 l3 H IH|x l2 l3 H IH];
    intros l1 H12.
  - exact H12.
  - constructor. apply IH. exact H12.
  - inversion H12; subst.
    + apply sl_skip. apply IH. assumption.
    + apply sl_take. apply IH. assumption.
Qed.

Lemma existsb_key_eq_congr a b c :
  (forall y, existsb (key_eq y) a = existsb (key_eq y) b) ->
  forall y, existsb (key_eq y) (a ++ c) = existsb (key_eq y) (b ++ c).
Proof. intros H y. rewrite !existsb_app, H. reflexivity. Qed.

Lemma member_ids_fold_mem ms s ids :
  fold_result (fun s m =>
    let* rid := json_get m "record_id" in
    if truthy rid then set_add s rid else Ok s) ms s = Ok ids ->
  Forall (fun m => exists d, m = JObj d) ms /\
  forall y, existsb (key_eq y) ids = existsb (key_eq y) (s ++ spec_member_ids ms).
Proof.
  unfold spec_member_ids. revert s ids.
  induction ms as [|m ms IH]; intros s ids H; simpl in H.
  - injection H as <-. split; [constructor |]. intro y. rewrite app_nil_r. reflexivity.
  - inv_bind H. inv_bind Ha. destruct m as [| | | | | | d]; simpl in Ha0; try discriminate.
    injection Ha0 as <-.
    destruct (truthy (dict_get d "record_id")) eqn:Et.
    + apply set_add_mem in Ha as [_ Hm].
      destruct (IH _ _ H) as [Hall Hids]. split; [constructor; eauto |].
      intro y. rewrite Hids. simpl. rewrite Et.
      rewrite (existsb_key_eq_congr _ _ _ Hm). rewrite <- app_assoc. reflexivity.
    + injection Ha as <-.
      destruct (IH _ _ H) as [Hall Hids]. split; [constructor; eauto |].
      intro y. rewrite Hids. simpl. rewrite Et. reflexivity.
Qed.

Lemma member_ids_of_mem ms ids :
  member_ids_of ms = Ok ids ->
  Forall (fun m => exists d, m = JObj d) ms /\
  forall y, existsb (key_eq y) ids = existsb (key_eq y) (spec_member_ids ms).
Proof. apply member_ids_fold_mem. Qed.

Lemma signature_fold_mem ms s sigs :
  fold_result (fun s member =>
    let* hist := json_get member "signature_history" in
    let* sigs := py_iter (json_or hist (JList [])) in
    fold_result set_add sigs s) ms s = Ok sigs ->
  forall y, existsb (key_eq y) sigs = existsb (key_eq y) (s ++ spec_signatures ms).
Proof.
  unfold spec_signatures. revert s sigs.
  induction ms as [|m ms IH]; intros s sigs H; simpl in H.
  - injection H as <-. intro y. rewrite app_nil_r. reflexivity.
  - inv_bind H. inv_bind Ha. inv_bind Ha. destruct m as [| | | | | | d]; simpl in Ha0;
      try discriminate.
    injection Ha0 as <-. apply fold_set_add_mem in Ha as [_ Hm].
    intro y. rewrite (IH _ _ H). simpl. rewrite Ha1.
    rewrite (existsb_key_eq_congr _ _ _ Hm). rewrite <- app_assoc. reflexivity.
Qed.

Lemma signature_set_of_mem ms sigs :
  signature_set_of ms = Ok sigs ->
  forall y, existsb (key_eq y) sigs = existsb (key_eq y) (spec_signatures ms).
Proof. apply signature_fold_mem. Qed.

Lemma snapshot_matches_spec g ms ids sigs t s b :
  py_iter (json_or (dict_get (eg_fields g) "members") (JList [])) = Ok ms ->
  member_ids_of ms = Ok ids ->
  signature_set_of ms = Ok sigs ->
  json_get (dict_get_default (eg_fields g) "canonical_attributes" (JObj [])) "tax_id" = Ok t ->
  snapshot_matches ids sigs t s = Ok b ->
  b = spec_snapshot_matches g s.
Proof.
  intros Hms Hids Hsigs Ht H.
  assert (Hgm : group_members g = ms) by (unfold group_members; rewrite Hms; reflexivity).
  assert (Htax : canonical_tax_id g = t).
  { unfold canonical_tax_id.
    destruct (dict_get_default (eg_fields g) "canonical_attributes" (JObj []));
      simpl in Ht; try discriminate. injection Ht as <-. reflexivity. }
  apply member_ids_of_mem in Hids as [_ Hids].
  pose proof (signature_set_of_mem _ _ Hsigs) as Hs.
  unfold spec_snapshot_matches. rewrite Hgm, Htax.
  destruct s as [| | | | | | d]; simpl in H; try (injection H as <-; reflexivity).
  inv_bind H. unfold set_mem in Ha.
  destruct (hashable (dict_get d "record_id")); [|discriminate].
  injection Ha as <-. rewrite Hids in H.
  destruct (existsb (key_eq (dict_get d "record_id")) (spec_member_ids ms)).
  - injection H as <-. reflexivity.
  - inv_bind H. unfold set_mem in Ha.
    destruct (hashable (dict_get d "signature")); [|discriminate].
    injection Ha as <-. rewrite Hs in H.
    destruct (existsb (key_eq (dict_get d "signature")) (spec_signatures ms)).
    + injection H as <-. reflexivity.
    + simpl. destruct (truthy t).
      * inv_bind H. injection H as <-.
        destruct (dict_get_default d "normalized_attributes" (JObj []));
          simpl in Ha; try discriminate.
        injection Ha as <-. reflexivity.
      * injection H as <-. reflexivity.
Qed.

(** C6: with a non-negative [limit], the snapshots selected for a group are
    at most [limit] of the snapshots, taken in their order without repeating
    a position: the first [limit] of those whose record id is one of the
    members' record ids, whose signature is one of the members' signatures,
    or whose normalised tax id equals the group's non-empty canonical tax
    id. *)
Theorem select_relevant_snapshots_spec g snaps limit r :
  0 <= limit ->
  select_relevant_snapshots g snaps limit = Ok r ->
  Z.of_nat (List.length r) <= limit /\
  Sublist r snaps /\
  r = firstn (Z.to_nat limit) (filter (spec_snapshot_matches g) snaps).
Proof.
  intros Hl H.
  assert (Hr : r = firstn (Z.to_nat limit) (filter (spec_snapshot_matches g) snaps)).
  { unfold select_relevant_snapshots in H. destruct snaps as [|s0 snaps'] eqn:Es.
    - injection H as <-. destruct (Z.to_nat limit); reflexivity.
    - rewrite <- Es in *.
      inv_bind H. inv_bind H. inv_bind H. inv_bind H. inv_bind H.
      injection H as <-.
      apply filter_result_ok in Ha3 as [Hall ->].
      unfold py_slice_upto. replace (0 <=? limit) with true by (symmetry; apply Z.leb_le; lia).
      f_equal. apply filter_ext_in. intros s Hs.
      rewrite Forall_forall in Hall. destruct (Hall s Hs) as [b Hb]. rewrite Hb.
      eapply snapshot_matches_spec; eauto. }
  split; [| split; [| exact Hr]].
  - rewrite Hr, length_firstn. lia.
  - rewrite Hr. eapply Sublist_trans; [apply Sublist_firstn | apply Sublist_filter].
Qed.

Lemma select_relevant_snapshots_spec_witness :
  0 <= 2 /\
  select_relevant_snapshots snapshot_group sample_snapshots 2 =
    Ok [JObj [("record_id"%string, JStr "R1")]; JObj [("signature"%string, JStr "S1")]] /\
  Z.of_nat (List.length [JObj [("record_id"%string, JStr "R1")];
                         JObj [("signature"%string, JStr "S1")]]) <= 2 /\
  Sublist [JObj [("record_id"%string, JStr "R1")]; JObj [("signature"%string, JStr "S1")]]
    sample_snapshots /\
  [JObj [("record_id"%string, JStr "R1")]; JObj [("signature"%string, JStr "S1")]] =
    firstn (Z.to_nat 2) (filter (spec_snapshot_matches snapshot_group) sample_snapshots).
Proof.
  split; [lia |]. split; [vm_compute; reflexivity |].
  apply (select_relevant_snapshots_spec snapshot_group sample_snapshots 2); [lia |].
  vm_compute; reflexivity.
Defined.

(** ** Network edges *)

Lemma pair_key_eq_sym a b : pair_key_eq a b = pair_key_eq b a.
Proof. unfold pair_key_eq. rewrite (key_eq_sym (fst a)), (key_eq_sym (snd a)). reflexivity. Qed.

Lemma pair_key_eq_trans a b c :
  pair_key_eq a b = true -> pair_key_eq b c = true -> pair_key_eq a c = true.
Proof.
  unfold pair_key_eq. rewrite !andb_true_iff. intros [H1 H2] [H3 H4].
  split; eapply key_eq_trans; eauto.
Qed.

Lemma pair_key_eq_refl a : pair_hashable a = true -> pair_key_eq a a = true.
Proof.
  unfold pair_hashable, pair_key_eq. rewrite !andb_true_iff. intros [H1 H2].
  split; apply key_eq_refl; assumption.
Qed.

Lemma assoc_find_some k (es : edge_map) v :
  assoc_find pair_key_eq k es = Some v ->
  exists k', In (k', v) es /\ pair_key_eq k k' = true.
Proof.
  induction es as [|[k' v'] es IH]; simpl; [discriminate |].
  destruct (pair_key_eq k k') eqn:E.
  - intro H; injection H as <-. eauto.
  - intro H. destruct (IH H) as [k'' [Hin Hk]]. eauto.
Qed.

Lemma assoc_find_none k (es : edge_map) :
  assoc_find pair_key_eq k es = None ->
  forall k', In k' (map fst es) -> pair_key_eq k k' = false.
Proof.
  induction es as [|[k' v'] es IH]; simpl; [tauto |].
  destruct (pair_key_eq k k') eqn:E; [discriminate |].
  intros H k'' [<- | Hin]; [exact E | apply IH; assumption].
Qed.

Lemma assoc_put_keys k v (es : edge_map) kv :
  In kv (assoc_put pair_key_eq k v es) -> In (fst kv) (map fst es) \/ fst kv = k.
Proof.
  induction es as [|[k' v'] es IH]; simpl.
  - intros [<- | []]. right. reflexivity.
  - destruct (pair_key_eq k k').
    + intros [<- | Hin]; [left; left; reflexivity |].
      left; right. apply in_map. exact Hin.
    + intros [<- | Hin]; [left; left; reflexivity |].
      destruct (IH Hin) as [H | H]; [left; right; exact H | right; exact H].
Qed.

Lemma assoc_put_keeps_keys k v (es : edge_map) k' :
  In k' (map fst es) -> In k' (map fst (assoc_put pair_key_eq k v es)).
Proof.
  induction es as [|[k0 v0] es IH]; simpl; [tauto |].
  destruct (pair_key_eq k k0); simpl; intros [H | H]; auto.
Qed.

Lemma assoc_put_key_present k v (es : edge_map) :
  pair_hashable k = true ->
  exists k', In k' (map fst (assoc_put pair_key_eq k v es)) /\ pair_key_eq k k' = true.
Proof.
  intro Hk. induction es as [|[k0 v0] es IH]; simpl.
  - exists k. split; [left; reflexivity | apply pair_key_eq_refl; exact Hk].
  - destruct (pair_key_eq k k0) eqn:E.
    + exists k0. split; [left; reflexivity | exact E].
    + destruct IH as [k' [Hin Hk']]. exists k'. split; [right; exact Hin | exact Hk'].
Qed.

Lemma Forall_key_false k k0 (es : edge_map) :
  Forall (fun y => pair_key_eq k0 (fst y) = false) es ->
  pair_key_eq k k0 = true ->
  forall kv, In kv es -> pair_key_eq k (fst kv) = false.
Proof.
  rewrite Forall_forall. intros Hall Hk kv Hin.
  destruct (pair_key_eq k (fst kv)) eqn:E; [| reflexivity].
  rewrite <- (Hall kv Hin). symmetry.
  apply (pair_key_eq_trans k0 k (fst kv)); [rewrite pair_key_eq_sym; exact Hk | exact E].
Qed.

Lemma assoc_put_in k v (es : edge_map) kv :
  ForallOrdPairs (fun x y => pair_key_eq (fst x) (fst y) = false) es ->
  pair_hashable k = true ->
  In kv (assoc_put pair_key_eq k v es) ->
  (pair_key_eq k (fst kv) = false /\ In kv es) \/
  (pair_key_eq k (fst kv) = true /\ snd kv = v /\
   ((exists v0, In (fst kv, v0) es /\ assoc_find pair_key_eq k es = Some v0) \/
    (assoc_find pair_key_eq k es = None /\ fst kv = k))).
Proof.
  intros Hu Hk. induction es as [|[k0 v0] es IH]; simpl.
  - intros [<- | []]. right. simpl. split; [apply pair_key_eq_refl; exact Hk |].
    split; [reflexivity | right; split; reflexivity].
  - inversion Hu as [|x l Hhd Htl]; subst.
    destruct (pair_key_eq k k0) eqn:E.
    + intros [<- | Hin].
      * right. simpl. split; [exact E |]. split; [reflexivity |].
        left. exists v0. split; [left; reflexivity | reflexivity].
      * left. split; [| right; exact Hin].
        exact (Forall_key_false k k0 es Hhd E kv Hin).
    + intros [<- | Hin].
      * left. split; [exact E | left; reflexivity].
      * destruct (IH Htl Hin) as [[H1 H2] | [H1 [H2 [[v1 [H3 H4]] | [H3 H4]]]]].
        -- left. split; [exact H1 | right; exact H2].
        -- right. split; [exact H1 |]. split; [exact H2 |].
           left. exists v1. split; [right; exact H3 | exact H4].
        -- right. split; [exact H1 |]. split; [exact H2 |]. right. split; assumption.
Qed.

Lemma assoc_put_unique k v (es : edge_map) :
  ForallOrdPairs (fun x y => pair_key_eq (fst x) (fst y) = false) es ->
  ForallOrdPairs (fun x y => pair_key_eq (fst x) (fst y) = false) (assoc_put pair_key_eq k v es).
Proof.
  induction es as [|[k0 v0] es IH]; simpl; intro Hu.
  - repeat constructor.
  - inversion Hu as [|x l Hhd Htl]; subst.
    destruct (pair_key_eq k k0) eqn:E.
    + constructor; [| exact Htl]. exact Hhd.
    + constructor; [| apply IH; exact Htl].
      apply Forall_forall. intros kv Hin. simpl.
      destruct (assoc_put_keys k v es kv Hin) as [Hk | Hk].
      * apply in_map_iff in Hk as [kv' [Hf Hin']].
        rewrite Forall_forall in Hhd. rewrite <- Hf. exact (Hhd kv' Hin').
      * rewrite Hk, pair_key_eq_sym. exact E.
Qed.

Lemma str_set_add_in s x y : In y (str_set_add s x) <-> In y s \/ y = x.
Proof.
  unfold str_set_add, str_mem. destruct (existsb (String.eqb x) s) eqn:E.
  - apply existsb_exists in E as [z [Hz Hxz]]. apply String.eqb_eq in Hxz. subst z.
    split; [tauto | intros [H | ->]; assumption].
  - rewrite in_app_iff. simpl. split; intros [H | H]; try tauto.
    + destruct H as [<- | []]. right. reflexivity.
    + right. left. symmetry. exact H.
Qed.

Lemma str_set_add_nodup s x : NoDup s -> NoDup (str_set_add s x).
Proof.
  unfold str_set_add, str_mem. intro Hs. destruct (existsb (String.eqb x) s) eqn:E; [exact Hs |].
  apply NoDup_app; [exact Hs | repeat constructor; simpl; tauto |].
  intros y Hy [-> | []]. assert (existsb (String.eqb y) s = true) as E'.
  { apply existsb_exists. exists y. split; [exact Hy | apply String.eqb_refl]. }
  congruence.
Qed.

Lemma filter_all_false {A} (f : A -> bool) l :
  (forall x, In x l -> f x = false) -> filter f l = [].
Proof.
  induction l as [|x l IH]; simpl; intro H; [reflexivity |].
  rewrite (H x (or_introl eq_refl)). apply IH. intros y Hy. apply H. right. exact Hy.
Qed.

Lemma edge_sum_app mine c : edge_sum (mine ++ [c]) = f_add (edge_sum mine) (c_amount c).
Proof. unfold edge_sum. rewrite map_app, fold_left_app. reflexivity. Qed.

Lemma entry_step mine en c :
  entry_facts mine en ->
  entry_facts (mine ++ [c])
    (mk_entry (f_add (ent_amount en) (c_amount c)) (ent_count en + 1)
       (if String.eqb (c_direction c) "" then ent_directions en
        else str_set_add (ent_directions en) (c_direction c))).
Proof.
  intros [Ha [Hc [Hnd Hd]]]. unfold entry_facts; simpl.
  split; [rewrite edge_sum_app, Ha; reflexivity |].
  split; [rewrite Hc, length_app; simpl; lia |].
  destruct (String.eqb (c_direction c) "") eqn:Ee.
  - apply String.eqb_eq in Ee. split; [exact Hnd |]. intro s. rewrite Hd.
    split; intros [c' [Hin [Hcd Hne]]].
    + exists c'. split; [apply in_or_app; left; exact Hin | split; assumption].
    + apply in_app_or in Hin as [Hin | [<- | []]].
      * exists c'. tauto.
      * congruence.
  - apply String.eqb_neq in Ee. split; [apply str_set_add_nodup; exact Hnd |].
    intro s. rewrite str_set_add_in, Hd. split.
    + intros [[c' [Hin [Hcd Hne]]] | ->].
      * exists c'. split; [apply in_or_app; left; exact Hin | split; assumption].
      * exists c. split; [apply in_or_app; right; left; reflexivity | split; [reflexivity | exact Ee]].
    + intros [c' [Hin [Hcd Hne]]]. apply in_app_or in Hin as [Hin | [<- | []]].
      * left. exists c'. tauto.
      * right. symmetry. exact Hcd.
Qed.

Lemma edges_inv_nil : edges_inv [] [].
Proof. repeat split; constructor. Qed.

Lemma edge_add_inv cs es c :
  edges_inv cs es -> pair_hashable (c_key c) = true -> edges_inv (cs ++ [c]) (edge_add es c).
Proof.
  intros [Hu [He [Hc Hh]]] Hk. unfold edge_add.
  split; [apply assoc_put_unique; exact Hu |].
  split; [| split].
  - apply Forall_forall. intros kv Hin.
    destruct (assoc_put_in _ _ _ _ Hu Hk Hin) as [[Hnk Hold] | [Hm [Hv Hcase]]].
    + rewrite Forall_forall in He. destruct (He kv Hold) as [Hne Hf].
      unfold mine_of in *. rewrite filter_app. simpl. rewrite Hnk, app_nil_r.
      split; assumption.
    + assert (Hmine : mine_of (cs ++ [c]) (fst kv) = mine_of cs (fst kv) ++ [c]).
      { unfold mine_of. rewrite filter_app. simpl. rewrite Hm. reflexivity. }
      rewrite Hmine, Hv. split; [destruct (mine_of cs (fst kv)); discriminate |].
      apply entry_step.
      destruct Hcase as [[v0 [Hin0 Hf]] | [Hf Hkv]]; rewrite Hf.
      * rewrite Forall_forall in He. exact (proj2 (He _ Hin0)).
      * rewrite Hkv. replace (mine_of cs (c_key c)) with (@nil contribution).
        -- unfold entry_facts; simpl. split; [reflexivity |]. split; [reflexivity |].
           split; [constructor |]. intro s. split; [intros [] |].
           intros [c' [[] _]].
        -- symmetry. apply filter_all_false. intros c' Hin'.
           rewrite Forall_forall in Hc. destruct (Hc c' Hin') as [k' [Hk' Hck']].
           destruct (pair_key_eq (c_key c') (c_key c)) eqn:E; [| reflexivity].
           pose proof (assoc_find_none _ _ Hf k' Hk') as Hn.
           rewrite <- Hn. symmetry. eapply pair_key_eq_trans; [| exact Hck'].
           rewrite pair_key_eq_sym. exact E.
  - apply Forall_app. split.
    + rewrite Forall_forall in Hc |- *. intros c' Hin'.
      destruct (Hc c' Hin') as [k' [Hk' Hck']].
      exists k'. split; [apply assoc_put_keeps_keys; exact Hk' | exact Hck'].
    + constructor; [| constructor]. apply assoc_put_key_present. exact Hk.
  - apply Forall_forall. intros kv Hin.
    destruct (assoc_put_keys _ _ _ _ Hin) as [Hin' | ->]; [| exact Hk].
    apply in_map_iff in Hin' as [kv' [<- Hin']].
    rewrite Forall_forall in Hh. exact (Hh kv' Hin').
Qed.

Lemma edge_fold_inv cs es cs0 :
  edges_inv cs0 es ->
  Forall (fun c => pair_hashable (c_key c) = true) cs ->
  edges_inv (cs0 ++ cs) (fold_left edge_add cs es).
Proof.
  revert es cs0. induction cs as [|c cs IH]; intros es cs0 Hinv Hh; simpl.
  - rewrite app_nil_r. exact Hinv.
  - inversion Hh; subst. replace (cs0 ++ c :: cs) with ((cs0 ++ [c]) ++ cs)
      by (rewrite <- app_assoc; reflexivity).
    apply IH; [apply edge_add_inv |]; assumption.
Qed.

Lemma network_tx_fold gid txs ns es ns' es' :
  hashable gid = true ->
  fold_result (network_tx_step gid) txs (ns, es) = Ok (ns', es') ->
  es' = fold_left edge_add (flat_map (tx_contribution gid) txs) es /\
  Forall (fun c => pair_hashable (c_key c) = true) (flat_map (tx_contribution gid) txs).
Proof.
  intro Hg. revert ns es. induction txs as [|tx txs IH]; intros ns es H; simpl in H.
  - injection H as <- <-. split; [reflexivity | constructor].
  - inv_bind H. destruct a as [ns1 es1].
    destruct (IH _ _ H) as [-> Hh]. clear H.
    unfold network_tx_step in Ha.
    destruct (truthy (dict_get (ptx_fields tx) "counterparty_id")) eqn:Ecp;
      cbn [negb] in Ha.
    + destruct (hashable (dict_get (ptx_fields tx) "counterparty_id")) eqn:Eh;
        cbn [negb] in Ha; [| discriminate].
      inv_bind Ha. inv_bind Ha. inv_bind Ha. injection Ha as <- <-.
      assert (Hc : tx_contribution gid tx =
        [mk_contrib (edge_key gid (dict_get (ptx_fields tx) "counterparty_id") a1) a0 a1]).
      { unfold tx_contribution. rewrite Ecp, Ha1, Ha2. reflexivity. }
      simpl. rewrite Hc. simpl. split; [reflexivity |].
      constructor; [| exact Hh]. simpl. unfold edge_key, pair_hashable.
      destruct (str_mem a1 incoming_directions); simpl; rewrite Eh, Hg; reflexivity.
    + injection Ha as <- <-.
      assert (Hc : tx_contribution gid tx = []).
      { unfold tx_contribution. rewrite Ecp. reflexivity. }
      simpl. rewrite Hc. simpl. split; [reflexivity | exact Hh].
Qed.

Lemma network_group_fold rs hl gs ns es ns' es' :
  fold_result (network_group_step rs hl) gs (ns, es) = Ok (ns', es') ->
  es' = fold_left edge_add (network_contributions gs) es /\
  Forall (fun c => pair_hashable (c_key c) = true) (network_contributions gs).
Proof.
  revert ns es. induction gs as [|g gs IH]; intros ns es H; simpl in H.
  - injection H as <- <-. split; [reflexivity | constructor].
  - inv_bind H. destruct a as [ns1 es1].
    destruct (IH _ _ H) as [-> Hh]. clear H.
    unfold network_contributions. simpl. fold (network_contributions gs).
    rewrite fold_left_app. unfold network_group_step in Ha.
    unfold group_contributions.
    destruct (truthy (group_id g)) eqn:Eg; cbn [negb] in Ha.
    + inv_bind Ha. destruct (hashable (group_id g)) eqn:Eh; cbn [negb] in Ha; [| discriminate].
      destruct (network_tx_fold _ _ _ _ _ _ Eh Ha) as [-> Hh'].
      split; [reflexivity | apply Forall_app; split; assumption].
    + injection Ha as <- <-. split; [reflexivity | exact Hh].
Qed.

Lemma emit_edge_pair kv : edge_pair (emit_edge kv) = fst kv.
Proof. destruct kv as [[s d] data]. reflexivity. Qed.

Lemma ForallOrdPairs_map {A B} (R1 : A -> A -> Prop) (R : B -> B -> Prop) (f : A -> B) l :
  (forall x y, R1 x y -> R (f x) (f y)) ->
  ForallOrdPairs R1 l -> ForallOrdPairs R (map f l).
Proof.
  intros HR. induction 1 as [|x l Hx Hl IH]; simpl; constructor; [| exact IH].
  apply Forall_map. eapply Forall_impl; [| exact Hx]. intros y. apply HR.
Qed.

(** C4: for a payload that is built, the emitted edges are the transaction
    contributions grouped by their ordered [(source, target)] pair, where a
    transaction with a counterparty contributes the pair
    (counterparty, group) when its lower-cased direction is [in],
    [incoming] or [credit] and (group, counterparty) otherwise: each edge
    has contributions, its amount is their sum rounded to 2 decimals, its
    count their number and its directions the sorted list without
    duplicates of their non-empty directions; every contribution has an
    edge, and no two edges have the same pair. *)
Theorem build_network_payload_edges gs ids hl resp :
  build_network_payload gs ids hl = Ok resp ->
  network_edges_spec (network_contributions gs) (edges resp).
Proof.
  intro H. unfold build_network_payload in H.
  inv_bind H. inv_bind H. destruct a0 as [ns es]. injection H as <-. simpl.
  destruct (network_group_fold _ _ _ _ _ _ _ Ha0) as [-> Hh].
  destruct (edge_fold_inv _ [] [] edges_inv_nil Hh) as [Hu [He [Hc _]]].
  simpl in Hu, He, Hc.
  set (es := fold_left edge_add (network_contributions gs) []) in *.
  unfold network_edges_spec. split; [| split].
  - apply Forall_map. rewrite Forall_forall in He |- *. intros kv Hin.
    destruct (He kv Hin) as [Hne [Ham [Hcnt [Hnd Hd]]]].
    unfold edge_contributions. rewrite emit_edge_pair. fold (mine_of (network_contributions gs) (fst kv)).
    destruct kv as [[s d] data]. simpl in *.
    split; [exact Hne |]. split; [rewrite Ham; reflexivity |]. split; [exact Hcnt |].
    pose proof (StrSort.Permuted_sort (ent_directions data)) as Hp.
    split; [apply StrSort.Sorted_sort |].
    split; [exact (Permutation_NoDup Hp Hnd) |].
    intro x. rewrite <- Hd. split; apply Permutation_in; [apply Permutation_sym |]; exact Hp.
  - rewrite Forall_forall in Hc |- *. intros c Hin.
    destruct (Hc c Hin) as [k [Hk Hck]]. apply in_map_iff in Hk as [kv [<- Hkv]].
    exists (emit_edge kv). split; [apply in_map; exact Hkv |].
    rewrite emit_edge_pair. exact Hck.
  - revert Hu. apply ForallOrdPairs_map. intros x y Hxy. rewrite !emit_edge_pair. exact Hxy.
Qed.

Lemma build_network_payload_edges_witness :
  build_network_payload [network_group] [JStr "G5"] true = Ok network_sample /\
  network_edges_spec (network_contributions [network_group]) (edges network_sample).
Proof.
  split; [vm_compute; reflexivity |].
  apply (build_network_payload_edges [network_group] [JStr "G5"] true network_sample).
  vm_compute; reflexivity.
Defined.

Lemma float_of_int_ok z x : float_of_int z = Ok x -> x = fz z.
Proof.
  unfold float_of_int. destruct (Qle_bool _ _); [discriminate |]. intro H; injection H as <-. reflexivity.
Qed.

(** ** Enrichment: transactions, counterparties and dates *)

Lemma enrich_group_unfold raw g :
  enrich_group raw = Ok g ->
  exists txs a,
    py_iter (json_or (dict_get raw "transactions") (JList [])) = Ok txs /\
    fold_result enrich_step txs enrich_acc0 = Ok a /\
    eg_fields g = raw /\ eg_transactions g = acc_parsed a /\
    transaction_count (eg_metrics g) = Z.of_nat (List.length txs) /\
    unique_counterparties (eg_metrics g) = Z.of_nat (List.length (acc_counterparties a)) /\
    opt_min_dt (acc_timestamps a) = Ok (first_seen (eg_metrics g)) /\
    opt_max_dt (acc_timestamps a) = Ok (last_seen (eg_metrics g)).
Proof.
  unfold enrich_group. intro H.
  inv_bind H. inv_bind H. inv_bind H. inv_bind H. inv_bind H.
  destruct (opt_min_dt (acc_timestamps a0)) as [first|] eqn:Ef; [| discriminate].
  simpl in H.
  destruct (opt_max_dt (acc_timestamps a0)) as [last|] eqn:El; [| discriminate].
  simpl in H. inv_bind H. injection H as <-. simpl.
  exists a, a0. rewrite (py_iter_len _ _ Ha) in Ha1. injection Ha1 as <-.
  repeat split; assumption.
Qed.

Lemma set_add_length s x s' :
  set_add s x = Ok s' -> (List.length s' <= S (List.length s))%nat.
Proof.
  unfold set_add. destruct (hashable x); [| discriminate].
  intro H; injection H as <-. destruct (existsb (key_eq x) s); [lia |].
  rewrite length_app; simpl; lia.
Qed.

Lemma enrich_step_shape a tx a' :
  enrich_step a tx = Ok a' ->
  exists p,
    tx_step_ok tx p /\
    acc_parsed a' = acc_parsed a ++ [p] /\
    acc_timestamps a' = acc_timestamps a ++ opt_list (ptx_parsed_timestamp p) /\
    (List.length (acc_counterparties a') <= S (List.length (acc_counterparties a)))%nat.
Proof.
  destruct tx as [| | | | | | d]; simpl; try discriminate.
  intro H. inv_bind H. destruct a0 as [[total mn] mx].
  inv_bind H. inv_bind H. inv_bind H. injection H as <-. simpl.
  exists (mk_parsed_tx d a2). simpl. split; [| split; [reflexivity | split]].
  - split; [reflexivity |]. split.
    { simpl. intros r Hr. rewrite Hr in Ha. inv_bind Ha. eauto. }
    split; [exact Ha2 |]. split; [eauto |].
    simpl. intro Ht. rewrite Ht in Ha0. unfold set_add in Ha0.
    destruct (hashable (dict_get d "counterparty_id")); [reflexivity | discriminate].
  - destruct a2; simpl; [reflexivity | rewrite app_nil_r; reflexivity].
  - destruct (truthy (dict_get d "counterparty_id")).
    + eapply set_add_length; eauto.
    + injection Ha0 as <-. lia.
Qed.

Lemma fold_enrich_shape txs a a' :
  fold_result enrich_step txs a = Ok a' ->
  exists ps,
    Forall2 tx_step_ok txs ps /\
    acc_parsed a' = acc_parsed a ++ ps /\
    acc_timestamps a' = acc_timestamps a ++ flat_map (fun p => opt_list (ptx_parsed_timestamp p)) ps /\
    (List.length (acc_counterparties a') <= List.length (acc_counterparties a) + List.length txs)%nat.
Proof.
  revert a; induction txs as [|tx txs IH]; intros a H; simpl in H.
  - injection H as <-. exists []. rewrite !app_nil_r. repeat split; [constructor | lia].
  - inv_bind H. destruct (enrich_step_shape _ _ _ Ha) as [p [Hp [E1 [E2 E3]]]].
    destruct (IH _ H) as [ps [Hps [F1 [F2 F3]]]].
    exists (p :: ps). split; [constructor; assumption |].
    rewrite F1, F2, E1, E2, <- !app_assoc. split; [reflexivity |]. split; [reflexivity |].
    simpl. lia.
Qed.

(** Section: [min] and [max] of a list are a lower and an upper bound of
    it, for a comparison that is total on the items. *)
Section MinMaxBounds.
Variable A : Type.
Variable lt : A -> A -> result bool.
Variable le : A -> A -> bool.
Variable P : A -> Prop.
Hypothesis lt_total : forall a b, P a -> P b ->
  (lt a b = Ok true /\ le a b = true) \/ (lt a b = Ok false /\ le b a = true).
Hypothesis le_refl : forall a, P a -> le a a = true.
Hypothesis le_trans : forall a b c, le a b = true -> le b c = true -> le a c = true.

Lemma py_min_by_lower x xs m :
  P x -> Forall P xs -> py_min_by lt x xs = Ok m -> Forall (fun y => le m y = true) (x :: xs).
Proof.
  unfold py_min_by. intros Hx Hxs.
  enough (G : forall cur, P cur ->
            fold_result (fun cur y => let* b := lt y cur in Ok (if b then y else cur)) xs cur
            = Ok m -> le m cur = true /\ Forall (fun y => le m y = true) xs).
  { intro H. destruct (G x Hx H). constructor; assumption. }
  induction Hxs as [|y xs Hy Hxs IH]; intros cur Hcur H; simpl in H.
  - injection H as <-. split; [apply le_refl; exact Hcur | constructor].
  - destruct (lt_total y cur Hy Hcur) as [[E Hle] | [E Hle]]; rewrite E in H; simpl in H.
    + destruct (IH y Hy H) as [Hmy Hall].
      split; [eapply le_trans; eassumption | constructor; assumption].
    + destruct (IH cur Hcur H) as [Hmc Hall].
      split; [exact Hmc | constructor; [eapply le_trans; eassumption | exact Hall]].
Qed.

Lemma py_max_by_upper x xs m :
  P x -> Forall P xs -> py_max_by lt x xs = Ok m -> Forall (fun y => le y m = true) (x :: xs).
Proof.
  unfold py_max_by. intros Hx Hxs.
  enough (G : forall cur, P cur ->
            fold_result (fun cur y => let* b := lt cur y in Ok (if b then y else cur)) xs cur
            = Ok m -> le cur m = true /\ Forall (fun y => le y m = true) xs).
  { intro H. destruct (G x Hx H). constructor; assumption. }
  induction Hxs as [|y xs Hy Hxs IH]; intros cur Hcur H; simpl in H.
  - injection H as <-. split; [apply le_refl; exact Hcur | constructor].
  - destruct (lt_total cur y Hcur Hy) as [[E Hle] | [E Hle]]; rewrite E in H; simpl in H.
    + destruct (IH y Hy H) as [Hym Hall].
      split; [eapply le_trans; eassumption | constructor; assumption].
    + destruct (IH cur Hcur H) as [Hcm Hall].
      split; [exact Hcm | constructor; [eapply le_trans; eassumption | exact Hall]].
Qed.

Lemma opt_min_by_lower xs o :
  Forall P xs -> opt_min_by lt xs = Ok o ->
  Forall (fun y => exists m, o = Some m /\ le m y = true) xs.
Proof.
  destruct xs as [|x xs]; simpl; intros Hall H; [constructor |].
  inv_bind H. injection H as <-. inversion Hall; subst.
  eapply Forall_impl; [| exact (py_min_by_lower _ _ _ H1 H2 Ha)]. eauto.
Qed.

Lemma opt_max_by_upper xs o :
  Forall P xs -> opt_max_by lt xs = Ok o ->
  Forall (fun y => exists m, o = Some m /\ le y m = true) xs.
Proof.
  destruct xs as [|x xs]; simpl; intros Hall H; [constructor |].
  inv_bind H. injection H as <-. inversion Hall; subst.
  eapply Forall_impl; [| exact (py_max_by_upper _ _ _ H1 H2 Ha)]. eauto.
Qed.
End MinMaxBounds.

Lemma dt_lt_total a b : aware a -> aware b ->
  (dt_lt a b = Ok true /\ dt_le_b a b = true) \/ (dt_lt a b = Ok false /\ dt_le_b b a = true).
Proof.
  unfold aware, dt_lt, dt_le_b, dt_cmp.
  destruct (dt_offset a) as [oa|], (dt_offset b) as [ob|]; try congruence. intros _ _. simpl.
  pose proof (Z.compare_antisym (dt_wall b - ob) (dt_wall a - oa)) as Hanti.
  destruct (dt_wall a - oa ?= dt_wall b - ob); simpl in Hanti |- *;
    [right | left | right]; split; try reflexivity;
    destruct (dt_wall b - ob ?= dt_wall a - oa); simpl in Hanti; congruence.
Qed.

Lemma z_lt_total a b : (fun _ : Z => True) a -> (fun _ : Z => True) b ->
  (z_lt_r a b = Ok true /\ Z.leb a b = true) \/ (z_lt_r a b = Ok false /\ Z.leb b a = true).
Proof.
  intros _ _. unfold z_lt_r. destruct (a <? b) eqn:E; [left | right];
    rewrite ?Z.ltb_lt, ?Z.ltb_ge in E; rewrite Z.leb_le; split; auto; lia.
Qed.

Lemma opt_dt_eq_none_iff xs lo hi :
  opt_min_dt xs = Ok lo -> opt_max_dt xs = Ok hi ->
  (lo = None <-> xs = []) /\ (hi = None <-> xs = []).
Proof.
  destruct xs as [|x xs]; simpl; intros Hlo Hhi.
  - injection Hlo as <-. injection Hhi as <-. tauto.
  - inv_bind Hlo. inv_bind Hhi. injection Hlo as <-. injection Hhi as <-.
    split; split; discriminate.
Qed.

Lemma parsed_stamps_nil ps :
  flat_map (fun p => opt_list (ptx_parsed_timestamp p)) ps = [] <->
  Forall (fun p => ptx_parsed_timestamp p = None) ps.
Proof.
  induction ps as [|p ps IH]; simpl; [split; [constructor | reflexivity] |].
  destruct (ptx_parsed_timestamp p) as [t|] eqn:E; simpl.
  - split; [discriminate | intro H; inversion H; congruence].
  - rewrite IH. split; [constructor; auto | intro H; inversion H; assumption].
Qed.

Lemma in_parsed_stamps ps t :
  In t (flat_map (fun p => opt_list (ptx_parsed_timestamp p)) ps) <->
  exists p, In p ps /\ ptx_parsed_timestamp p = Some t.
Proof.
  rewrite in_flat_map. split; intros [p [Hp Ht]]; exists p; split; try assumption.
  - destruct (ptx_parsed_timestamp p); simpl in Ht; [destruct Ht as [<- | []]; reflexivity | contradiction].
  - rewrite Ht. left; reflexivity.
Qed.

Lemma parsed_stamps_aware txs ps :
  Forall2 tx_step_ok txs ps ->
  Forall aware (flat_map (fun p => opt_list (ptx_parsed_timestamp p)) ps).
Proof.
  induction 1 as [|tx p txs ps [_ [_ [Hts _]]] _ IH]; simpl; [constructor |].
  apply Forall_app. split; [| exact IH].
  destruct (ptx_parsed_timestamp p) eqn:E; simpl; constructor; [| constructor].
  eapply parse_iso_aware; exact Hts.
Qed.

Lemma fold_enrich_all_ok txs a a' :
  fold_result enrich_step txs a = Ok a' -> Forall (fun tx => exists p, tx_step_ok tx p) txs.
Proof.
  intro H. destruct (fold_enrich_shape _ _ _ H) as [ps [Hps _]].
  clear H. induction Hps; constructor; eauto.
Qed.

(** [enrich_group] keeps the raw fields and copies each transaction, in
    order, with the result of [parse_iso_datetime] on its ["timestamp"] as
    its ["parsed_timestamp"]; [transaction_count] is the number of
    transactions. *)
Theorem enrich_group_transactions raw g :
  enrich_group raw = Ok g ->
  eg_fields g = raw /\
  exists txs,
    py_iter (json_or (dict_get raw "transactions") (JList [])) = Ok txs /\
    transaction_count (eg_metrics g) = Z.of_nat (List.length txs) /\
    Forall2 (fun tx p =>
      tx = JObj (ptx_fields p) /\
      parse_iso_datetime (dict_get (ptx_fields p) "timestamp") = Ok (ptx_parsed_timestamp p))
      txs (eg_transactions g).
Proof.
  intro H. destruct (enrich_group_unfold _ _ H) as [txs [a [Hit [Hf [Hfl [Htx [Htc _]]]]]]].
  split; [exact Hfl |]. exists txs. split; [exact Hit |]. split; [exact Htc |].
  destruct (fold_enrich_shape _ _ _ Hf) as [ps [Hps [Hp _]]].
  rewrite Htx, Hp. simpl. clear - Hps.
  induction Hps as [|tx p txs ps [H1 [_ [H2 _]]] _ IH]; constructor; auto.
Qed.

(** The number of distinct counterparties of an enriched group is at most
    its number of transactions. *)
Theorem enrich_group_counterparties raw g :
  enrich_group raw = Ok g ->
  0 <= unique_counterparties (eg_metrics g) <= transaction_count (eg_metrics g).
Proof.
  intro H. destruct (enrich_group_unfold _ _ H) as [txs [a [_ [Hf [_ [_ [Htc [Huc _]]]]]]]].
  destruct (fold_enrich_shape _ _ _ Hf) as [ps [_ [_ [_ Hlen]]]].
  rewrite Htc, Huc. simpl in Hlen. lia.
Qed.

(** [first_seen] and [last_seen] of an enriched group are the earliest and
    the latest parsed timestamp of its transactions: both are [None]
    exactly when no transaction has one, each is the timestamp of one of
    them, and every parsed timestamp lies between them. *)
Theorem enrich_group_seen_bounds raw g :
  enrich_group raw = Ok g ->
  let m := eg_metrics g in
  let stamped := Forall (fun p => ptx_parsed_timestamp p = None) (eg_transactions g) in
  (first_seen m = None <-> stamped) /\ (last_seen m = None <-> stamped) /\
  (forall lo, first_seen m = Some lo ->
     exists p, In p (eg_transactions g) /\ ptx_parsed_timestamp p = Some lo) /\
  (forall hi, last_seen m = Some hi ->
     exists p, In p (eg_transactions g) /\ ptx_parsed_timestamp p = Some hi) /\
  Forall (fun p => forall t, ptx_parsed_timestamp p = Some t ->
    exists lo hi, first_seen m = Some lo /\ last_seen m = Some hi /\
                  dt_le_b lo t = true /\ dt_le_b t hi = true) (eg_transactions g).
Proof.
  intro H. destruct (enrich_group_unfold _ _ H) as [txs [a [_ [Hf [_ [Htx [_ [_ [Hlo Hhi]]]]]]]]].
  destruct (fold_enrich_shape _ _ _ Hf) as [ps [Hps [Hp [Hts _]]]].
  simpl in Hp, Hts. rewrite Htx, Hp. rewrite Hts in Hlo, Hhi.
  set (xs := flat_map (fun p => opt_list (ptx_parsed_timestamp p)) ps) in *.
  pose proof (parsed_stamps_aware _ _ Hps) as Haw. fold xs in Haw.
  destruct (opt_dt_eq_none_iff _ _ _ Hlo Hhi) as [Hn1 Hn2].
  cbv zeta. rewrite Hn1, Hn2, <- parsed_stamps_nil. fold xs.
  split; [tauto |]. split; [tauto |]. split; [| split].
  - intros lo Hl. rewrite Hl in Hlo. apply in_parsed_stamps. fold xs.
    destruct xs as [|x xs']; simpl in Hlo; [discriminate |].
    inv_bind Hlo. injection Hlo as <-. exact (py_min_by_in _ _ _ _ _ Ha).
  - intros hi Hh. rewrite Hh in Hhi. apply in_parsed_stamps. fold xs.
    destruct xs as [|x xs']; simpl in Hhi; [discriminate |].
    inv_bind Hhi. injection Hhi as <-. exact (py_max_by_in _ _ _ _ _ Ha).
  - apply Forall_forall. intros p Hp' t Ht.
    assert (Hin : In t xs) by (apply in_parsed_stamps; eauto).
    assert (Hmin : Forall (fun y => exists m, first_seen (eg_metrics g) = Some m /\ dt_le_b m y = true) xs).
    { exact (opt_min_by_lower _ dt_lt dt_le_b aware dt_lt_total (fun a _ => dt_le_refl a)
               dt_le_trans xs _ Haw Hlo). }
    assert (Hmax : Forall (fun y => exists m, last_seen (eg_metrics g) = Some m /\ dt_le_b y m = true) xs).
    { exact (opt_max_by_upper _ dt_lt dt_le_b aware dt_lt_total (fun a _ => dt_le_refl a)
               dt_le_trans xs _ Haw Hhi). }
    rewrite Forall_forall in Hmin, Hmax.
    destruct (Hmin t Hin) as [lo [E1 L1]]. destruct (Hmax t Hin) as [hi [E2 L2]].
    exists lo, hi. auto.
Qed.

(** [enrich_group] raises when one of the transactions is not a dict, or
    has a truthy ["direction"] or ["timestamp"] that is not a string, or a
    non-empty list or dict as its ["counterparty_id"]. *)
Theorem enrich_group_bad_transaction raw txs tx :
  py_iter (json_or (dict_get raw "transactions") (JList [])) = Ok txs ->
  In tx txs ->
  (forall d, tx <> JObj d) \/
  (exists d, tx = JObj d /\
     ((truthy (dict_get d "direction") = true /\ forall s, dict_get d "direction" <> JStr s) \/
      (truthy (dict_get d "timestamp") = true /\ forall s, dict_get d "timestamp" <> JStr s) \/
      (truthy (dict_get d "counterparty_id") = true /\
       hashable (dict_get d "counterparty_id") = false))) ->
  exists e, enrich_group raw = Err e.
Proof.
  intros Hit Hin Hbad. destruct (enrich_group raw) as [g|e] eqn:Eg; [exfalso | eauto].
  destruct (enrich_group_unfold _ _ Eg) as [txs' [a [Hit' [Hf _]]]].
  rewrite Hit in Hit'. injection Hit' as <-.
  apply fold_enrich_all_ok in Hf. rewrite Forall_forall in Hf.
  destruct (Hf tx Hin) as [p [Htx [_ [Hts [[s Hdir] Hcp]]]]].
  destruct Hbad as [Hnd | [d [Hd Hcase]]]; [exact (Hnd _ Htx) |].
  rewrite Hd in Htx. injection Htx as Hpd. rewrite <- Hpd in Hdir, Hts, Hcp.
  destruct Hcase as [[Ht Hns] | [[Ht Hns] | [Ht Hh]]].
  - unfold normalized_direction, json_or in Hdir. rewrite Ht in Hdir.
    destruct (dict_get d "direction"); simpl in Hdir; try discriminate. eapply Hns; reflexivity.
  - unfold parse_iso_datetime in Hts. rewrite Ht in Hts. simpl in Hts.
    destruct (dict_get d "timestamp"); try discriminate. eapply Hns; reflexivity.
  - rewrite (Hcp Ht) in Hh. discriminate.
Qed.

Lemma enrich_group_transactions_witness :
  enrich_group seen_raw = Ok seen_group /\
  (eg_fields seen_group = seen_raw /\
   exists txs,
     py_iter (json_or (dict_get seen_raw "transactions") (JList [])) = Ok txs /\
     transaction_count (eg_metrics seen_group) = Z.of_nat (List.length txs) /\
     Forall2 (fun tx p =>
       tx = JObj (ptx_fields p) /\
       parse_iso_datetime (dict_get (ptx_fields p) "timestamp") = Ok (ptx_parsed_timestamp p))
       txs (eg_transactions seen_group)).
Proof.
  split; [vm_compute; reflexivity |].
  apply (enrich_group_transactions seen_raw seen_group). vm_compute; reflexivity.
Defined.

Lemma enrich_group_counterparties_witness :
  enrich_group seen_raw = Ok seen_group /\
  0 <= unique_counterparties (eg_metrics seen_group) <= transaction_count (eg_metrics seen_group).
Proof.
  split; [vm_compute; reflexivity |].
  apply (enrich_group_counterparties seen_raw seen_group). vm_compute; reflexivity.
Defined.

Lemma enrich_group_seen_bounds_witness :
  enrich_group seen_raw = Ok seen_group /\
  let m := eg_metrics seen_group in
  let stamped := Forall (fun p => ptx_parsed_timestamp p = None) (eg_transactions seen_group) in
  (first_seen m = None <-> stamped) /\ (last_seen m = None <-> stamped) /\
  (forall lo, first_seen m = Some lo ->
     exists p, In p (eg_transactions seen_group) /\ ptx_parsed_timestamp p = Some lo) /\
  (forall hi, last_seen m = Some hi ->
     exists p, In p (eg_transactions seen_group) /\ ptx_parsed_timestamp p = Some hi) /\
  Forall (fun p => forall t, ptx_parsed_timestamp p = Some t ->
    exists lo hi, first_seen m = Some lo /\ last_seen m = Some hi /\
                  dt_le_b lo t = true /\ dt_le_b t hi = true) (eg_transactions seen_group).
Proof.
  split; [vm_compute; reflexivity |].
  apply (enrich_group_seen_bounds seen_raw seen_group). vm_compute; reflexivity.
Defined.

Lemma enrich_group_bad_transaction_witness :
  (py_iter (json_or (dict_get bad_direction_raw "transactions") (JList [])) =
     Ok [JObj [("amount"%string, JInt 3)]; JObj [("direction"%string, JInt 1)]] /\
   In (JObj [("direction"%string, JInt 1)])
      [JObj [("amount"%string, JInt 3)]; JObj [("direction"%string, JInt 1)]] /\
   ((forall d, JObj [("direction"%string, JInt 1)] <> JObj d) \/
    (exists d, JObj [("direction"%string, JInt 1)] = JObj d /\
       ((truthy (dict_get d "direction") = true /\ forall s, dict_get d "direction" <> JStr s) \/
        (truthy (dict_get d "timestamp") = true /\ forall s, dict_get d "timestamp" <> JStr s) \/
        (truthy (dict_get d "counterparty_id") = true /\
         hashable (dict_get d "counterparty_id") = false))))) /\
  exists e, enrich_group bad_direction_raw = Err e.
Proof.
  assert (H1 : py_iter (json_or (dict_get bad_direction_raw "transactions") (JList [])) =
     Ok [JObj [("amount"%string, JInt 3)]; JObj [("direction"%string, JInt 1)]])
    by (vm_compute; reflexivity).
  assert (H2 : In (JObj [("direction"%string, JInt 1)])
      [JObj [("amount"%string, JInt 3)]; JObj [("direction"%string, JInt 1)]])
    by (right; left; reflexivity).
  assert (H3 : (forall d, JObj [("direction"%string, JInt 1)] <> JObj d) \/
    (exists d, JObj [("direction"%string, JInt 1)] = JObj d /\
       ((truthy (dict_get d "direction") = true /\ forall s, dict_get d "direction" <> JStr s) \/
        (truthy (dict_get d "timestamp") = true /\ forall s, dict_get d "timestamp" <> JStr s) \/
        (truthy (dict_get d "counterparty_id") = true /\
         hashable (dict_get d "counterparty_id") = false)))).
  { right. exists [("direction"%string, JInt 1)]. split; [reflexivity |].
    left. split; [reflexivity | intros s; discriminate]. }
  split; [split; [exact H1 | split; [exact H2 | exact H3]] |].
  exact (enrich_group_bad_transaction bad_direction_raw _ _ H1 H2 H3).
Defined.

Lemma opt_min_by_in {A} (lt : A -> A -> result bool) xs m :
  opt_min_by lt xs = Ok (Some m) -> In m xs.
Proof.
  destruct xs as [|x xs]; simpl; [discriminate |]. intro H.
  inv_bind H. injection H as <-. exact (py_min_by_in _ _ _ _ _ Ha).
Qed.

Lemma opt_max_by_in {A} (lt : A -> A -> result bool) xs m :
  opt_max_by lt xs = Ok (Some m) -> In m xs.
Proof.
  destruct xs as [|x xs]; simpl; [discriminate |]. intro H.
  inv_bind H. injection H as <-. exact (py_max_by_in _ _ _ _ _ Ha).
Qed.

Lemma summarize_enriched_covers (gs : list egroup) (s : SummaryStats.t) :
  Forall (fun g => exists raw, enrich_group raw = Ok g) gs ->
  summarize_groups gs = Ok s ->
  Forall (fun g =>
    (exists lo hi, SummaryStats.min_risk s = Some lo /\ SummaryStats.max_risk s = Some hi /\
       1 <= lo <= risk_score (eg_metrics g) /\ risk_score (eg_metrics g) <= hi <= 99) /\
    (forall t, In t (opt_list (first_seen (eg_metrics g)) ++ opt_list (last_seen (eg_metrics g))) ->
       exists lo hi, SummaryStats.min_date s = Some lo /\ SummaryStats.max_date s = Some hi /\
         dt_le_b lo t = true /\ dt_le_b t hi = true)) gs.
Proof.
  intros Hgs H.
  assert (Hfacts : Forall (fun g =>
            (1 <= risk_score (eg_metrics g) <= 99) /\
            opt_aware (first_seen (eg_metrics g)) /\ opt_aware (last_seen (eg_metrics g))) gs).
  { eapply Forall_impl; [| exact Hgs].
    intros g [raw Hraw]. destruct (enrich_group_facts _ _ Hraw) as [H1 [H2 _]].
    split; [exact (enrich_group_risk_bounds _ _ Hraw) | split; assumption]. }
  clear Hgs.
  destruct gs as [|g0 gs']; [constructor |].
  unfold summarize_groups in H. cbv beta iota zeta in H.
  do 8 inv_bind H. injection H as <-. cbn [SummaryStats.min_risk SummaryStats.max_risk
    SummaryStats.min_date SummaryStats.max_date].
  set (gs := g0 :: gs') in *.
  set (risks := map (fun g => risk_score (eg_metrics g)) gs) in *.
  set (dates := flat_map (fun g => opt_list (first_seen (eg_metrics g)) ++
                                   opt_list (last_seen (eg_metrics g))) gs) in *.
  assert (Hrb : Forall (fun r => 1 <= r <= 99) risks).
  { apply Forall_map. eapply Forall_impl; [| exact Hfacts]. intros g [Hb _]. exact Hb. }
  assert (Hdaw : Forall aware dates).
  { apply Forall_forall. intros d Hd. apply in_flat_map in Hd as [g [Hg Hd]].
    rewrite Forall_forall in Hfacts. destruct (Hfacts g Hg) as [_ [Hf Hl]].
    apply in_app_or in Hd as [Hd|Hd];
      [destruct (first_seen (eg_metrics g)) | destruct (last_seen (eg_metrics g))];
      simpl in Hd; try contradiction; destruct Hd as [<-|[]]; assumption. }
  pose proof (opt_min_by_lower _ z_lt_r Z.leb (fun _ => True) z_lt_total
                (fun a _ => Z.leb_refl a) z_le_trans risks _ (Forall_true _) Ha1) as Hlo.
  pose proof (opt_max_by_upper _ z_lt_r Z.leb (fun _ => True) z_lt_total
                (fun a _ => Z.leb_refl a) z_le_trans risks _ (Forall_true _) Ha2) as Hhi.
  pose proof (opt_min_by_lower _ dt_lt dt_le_b aware dt_lt_total
                (fun a _ => dt_le_refl a) dt_le_trans dates _ Hdaw Ha3) as Hdlo.
  pose proof (opt_max_by_upper _ dt_lt dt_le_b aware dt_lt_total
                (fun a _ => dt_le_refl a) dt_le_trans dates _ Hdaw Ha4) as Hdhi.
  rewrite Forall_forall in Hlo, Hhi, Hdlo, Hdhi, Hrb |- *.
  intros g Hg. split.
  - assert (Hr : In (risk_score (eg_metrics g)) risks)
      by (apply (in_map (fun g => risk_score (eg_metrics g))); exact Hg).
    destruct (Hlo _ Hr) as [lo [E1 L1]]. destruct (Hhi _ Hr) as [hi [E2 L2]].
    exists lo, hi. split; [exact E1 |]. split; [exact E2 |].
    rewrite E1 in Ha1. rewrite E2 in Ha2.
    pose proof (Hrb _ (opt_min_by_in _ _ _ Ha1)).
    pose proof (Hrb _ (opt_max_by_in _ _ _ Ha2)).
    apply Z.leb_le in L1, L2. lia.
  - intros t Ht. assert (Hd : In t dates) by (apply in_flat_map; exists g; split; assumption).
    destruct (Hdlo _ Hd) as [lo [E1 L1]]. destruct (Hdhi _ Hd) as [hi [E2 L2]].
    exists lo, hi. auto.
Qed.

(** Every enriched group lies within the summary's risk and date bounds:
    its risk score is between [min_risk] and [max_risk], which lie in
    [1, 99], and its [first_seen] and [last_seen] are between [min_date]
    and [max_date]. *)
Theorem summarize_groups_covers (raws : list dict) (gs : list egroup) (s : SummaryStats.t) :
  map_result enrich_group raws = Ok gs ->
  summarize_groups gs = Ok s ->
  Forall (fun g =>
    (exists lo hi, SummaryStats.min_risk s = Some lo /\ SummaryStats.max_risk s = Some hi /\
       1 <= lo <= risk_score (eg_metrics g) /\ risk_score (eg_metrics g) <= hi <= 99) /\
    (forall t, In t (opt_list (first_seen (eg_metrics g)) ++ opt_list (last_seen (eg_metrics g))) ->
       exists lo hi, SummaryStats.min_date s = Some lo /\ SummaryStats.max_date s = Some hi /\
         dt_le_b lo t = true /\ dt_le_b t hi = true)) gs.
Proof.
  intros Hgs H. apply (summarize_enriched_covers gs s); [| exact H].
  apply map_result_ok in Hgs. eapply Forall_impl; [| exact Hgs].
  intros g [raw [_ Hraw]]. exists raw. exact Hraw.
Qed.

Lemma summarize_groups_covers_witness :
  (map_result enrich_group [seen_raw; ratio_raw] = Ok [seen_group; ratio_group] /\
   summarize_groups [seen_group; ratio_group] = Ok covers_summary) /\
  Forall (fun g =>
    (exists lo hi, SummaryStats.min_risk covers_summary = Some lo /\
       SummaryStats.max_risk covers_summary = Some hi /\
       1 <= lo <= risk_score (eg_metrics g) /\ risk_score (eg_metrics g) <= hi <= 99) /\
    (forall t, In t (opt_list (first_seen (eg_metrics g)) ++ opt_list (last_seen (eg_metrics g))) ->
       exists lo hi, SummaryStats.min_date covers_summary = Some lo /\
         SummaryStats.max_date covers_summary = Some hi /\
         dt_le_b lo t = true /\ dt_le_b t hi = true)) [seen_group; ratio_group].
Proof.
  assert (H1 : map_result enrich_group [seen_raw; ratio_raw] = Ok [seen_group; ratio_group])
    by (vm_compute; reflexivity).
  assert (H2 : summarize_groups [seen_group; ratio_group] = Ok covers_summary)
    by (vm_compute; reflexivity).
  split; [split; assumption |].
  exact (summarize_groups_covers [seen_raw; ratio_raw] [seen_group; ratio_group] covers_summary H1 H2).
Defined.

(** ** Transaction filters *)

Lemma tx_passes_true f p :
  tx_passes f p = Ok true <->
  exists v ts,
    tx_amount_value (ptx_fields p) = Ok v /\
    f_lt v (TransactionFilters.min_amount f) = false /\
    f_gt v (TransactionFilters.max_amount f) = false /\
    tx_timestamp p = Ok ts /\
    (forall s, TransactionFilters.start_date f = Some s ->
       exists t, ts = Some t /\ dt_lt t s = Ok false) /\
    (forall e, TransactionFilters.end_date f = Some e ->
       exists t, ts = Some t /\ dt_gt t e = Ok false).
Proof.
  unfold tx_passes. split.
  - intro H. apply bind_ok_inv in H as [v [Hv H]].
    destruct (f_lt v _) eqn:E1; [discriminate |].
    destruct (f_gt v _) eqn:E2; [discriminate |]. simpl in H.
    apply bind_ok_inv in H as [ts [Hts H]].
    apply bind_ok_inv in H as [sok [Hsok H]].
    exists v, ts. do 4 (split; [assumption |]).
    assert (Hend : forall e, TransactionFilters.end_date f = Some e ->
              exists t, ts = Some t /\ dt_gt t e = Ok false).
    { destruct sok; [| discriminate]. simpl in H.
      destruct (TransactionFilters.end_date f) as [e|]; [| intros e' Hne; discriminate].
      destruct ts as [t|]; [| discriminate].
      apply bind_ok_inv in H as [b [Hb H]]. injection H as Hb'.
      destruct b; [discriminate |]. intros e' He; injection He as <-. eauto. }
    split; [| exact Hend].
    destruct (TransactionFilters.start_date f) as [s|]; [| intros s' Hs; discriminate].
    destruct ts as [t|]; [| injection Hsok as <-; discriminate].
    apply bind_ok_inv in Hsok as [b [Hb Hsok]]. injection Hsok as <-.
    destruct b; [discriminate |]. intros s' Hs; injection Hs as <-. eauto.
  - intros [v [ts [Hv [H1 [H2 [Hts [Hs He]]]]]]].
    rewrite Hv. simpl. rewrite H1, H2. simpl. rewrite Hts. simpl.
    destruct (TransactionFilters.start_date f) as [s|].
    + destruct (Hs s eq_refl) as [t [-> Hlt]]. rewrite Hlt. simpl.
      destruct (TransactionFilters.end_date f) as [e|]; [| reflexivity].
      destruct (He e eq_refl) as [t' [Ht' Hgt]]. injection Ht' as <-. rewrite Hgt. reflexivity.
    + simpl. destruct (TransactionFilters.end_date f) as [e|]; [| reflexivity].
      destruct (He e eq_refl) as [t' [-> Hgt]]. rewrite Hgt. reflexivity.
Qed.

(** [_apply_transaction_filters] keeps, in their order, exactly the
    transactions whose amount (0.0 when not a number) is not below
    [min_amount] and not above [max_amount], and, when [start_date] is
    given, whose timestamp exists and is not before it, and, when
    [end_date] is given, whose timestamp exists and is not after it. *)
Theorem apply_transaction_filters_spec g f r :
  apply_transaction_filters g f = Ok r ->
  Sublist r (eg_transactions g) /\
  forall p, In p r <->
    In p (eg_transactions g) /\
    exists v ts,
      tx_amount_value (ptx_fields p) = Ok v /\
      f_lt v (TransactionFilters.min_amount f) = false /\
      f_gt v (TransactionFilters.max_amount f) = false /\
      tx_timestamp p = Ok ts /\
      (forall s, TransactionFilters.start_date f = Some s ->
         exists t, ts = Some t /\ dt_lt t s = Ok false) /\
      (forall e, TransactionFilters.end_date f = Some e ->
         exists t, ts = Some t /\ dt_gt t e = Ok false).
Proof.
  unfold apply_transaction_filters. intro H.
  destruct (filter_result_ok _ _ _ H) as [Hall ->].
  split; [apply Sublist_filter |].
  intro p. rewrite filter_In, <- tx_passes_true. split.
  - intros [Hin Hq]. split; [exact Hin |].
    destruct (tx_passes f p) as [b|]; [destruct b; [reflexivity | discriminate] | discriminate].
  - intros [Hin Hp]. rewrite Hp. split; [exact Hin | reflexivity].
Qed.

Lemma Forall2_in_r {A B} (R : A -> B -> Prop) xs ys y :
  Forall2 R xs ys -> In y ys -> exists x, R x y.
Proof.
  induction 1 as [|x y' xs ys Hxy _ IH]; simpl; [tauto |].
  intros [<- | Hin]; [eauto | apply IH; exact Hin].
Qed.

Lemma enrich_group_tx_ok raw g :
  enrich_group raw = Ok g -> forall p, In p (eg_transactions g) -> exists tx, tx_step_ok tx p.
Proof.
  intros H p Hp. destruct (enrich_group_unfold _ _ H) as [txs [a [_ [Hf [_ [Htx _]]]]]].
  destruct (fold_enrich_shape _ _ _ Hf) as [ps [Hps [Hpa _]]].
  rewrite Htx, Hpa in Hp. simpl in Hp. exact (Forall2_in_r _ _ _ _ Hps Hp).
Qed.

Lemma tx_amount_value_number d :
  (forall r, numeric_amount (dict_get d "amount") = Some r -> exists v, r = Ok v) ->
  tx_amount_value d =
    Ok (match json_number (dict_get d "amount") with Some v => v | None => Fin 0 end).
Proof.
  unfold tx_amount_value. intro H.
  destruct (dict_get d "amount") eqn:E; simpl; try reflexivity.
  destruct (H _ eq_refl) as [v Hv]. rewrite Hv. rewrite (float_of_int_ok _ _ Hv). reflexivity.
Qed.

(** With the default [TransactionFilters()], the transactions of an
    enriched group that are shown are, in order, those whose amount is not
    a number or is a number not below 0: negative amounts are hidden and a
    NaN amount is kept. *)
Theorem apply_transaction_filters_default raw g :
  enrich_group raw = Ok g ->
  apply_transaction_filters g TransactionFilters.default =
  Ok (filter (fun p =>
        match json_number (dict_get (ptx_fields p) "amount") with
        | Some v => negb (f_lt v (Fin 0))
        | None => true
        end) (eg_transactions g)).
Proof.
  intro H. unfold apply_transaction_filters. apply filter_result_eval.
  intros p Hp. destruct (enrich_group_tx_ok _ _ H p Hp) as [tx [_ [Hamt [Hts _]]]].
  assert (Ht : tx_timestamp p = Ok (ptx_parsed_timestamp p)).
  { unfold tx_timestamp. destruct (ptx_parsed_timestamp p); [reflexivity | exact Hts]. }
  unfold tx_passes. rewrite (tx_amount_value_number _ Hamt). cbn [bind].
  change (TransactionFilters.max_amount TransactionFilters.default) with PInf.
  change (TransactionFilters.min_amount TransactionFilters.default) with (Fin 0).
  change (TransactionFilters.start_date TransactionFilters.default) with (@None datetime).
  change (TransactionFilters.end_date TransactionFilters.default) with (@None datetime).
  assert (Hg : forall v, f_gt v PInf = false) by (intro; apply f_lt_PInf_l).
  rewrite Hg, orb_false_r, Ht. cbn [bind negb].
  destruct (json_number (dict_get (ptx_fields p) "amount")) as [v|];
    [destruct (f_lt v (Fin 0)) |]; reflexivity.
Qed.

Lemma apply_transaction_filters_spec_witness :
  apply_transaction_filters seen_group late_filters = Ok late_filtered /\
  List.length late_filtered = 2%nat /\
  Sublist late_filtered (eg_transactions seen_group).
Proof.
  assert (H : apply_transaction_filters seen_group late_filters = Ok late_filtered)
    by (vm_compute; reflexivity).
  split; [exact H | split; [vm_compute; reflexivity |]].
  exact (proj1 (apply_transaction_filters_spec _ _ _ H)).
Defined.

Lemma apply_transaction_filters_default_witness :
  enrich_group seen_raw = Ok seen_group /\
  apply_transaction_filters seen_group TransactionFilters.default =
    Ok (filter (fun p => match json_number (dict_get (ptx_fields p) "amount") with
                         | Some v => negb (f_lt v (Fin 0)) | None => true end)
               (eg_transactions seen_group)).
Proof.
  assert (H : enrich_group seen_raw = Ok seen_group) by (vm_compute; reflexivity).
  split; [exact H | exact (apply_transaction_filters_default _ _ H)].
Defined.

(** ** Dicts with a key equality *)

Section AssocGen.
Context {K V : Type} (eqk : K -> K -> bool).
Hypothesis eqk_sym : forall a b, eqk a b = eqk b a.
Hypothesis eqk_trans : forall a b c, eqk a b = true -> eqk b c = true -> eqk a c = true.

Lemma assoc_put_other_gen k v (l : list (K * V)) kv :
  eqk k (fst kv) = false -> In kv l -> In kv (assoc_put eqk k v l).
Proof.
  induction l as [|[k0 v0] l IH]; simpl; [tauto |].
  intros Hk [<- | Hin].
  - simpl in Hk. rewrite Hk. left. reflexivity.
  - destruct (eqk k k0); right; [exact Hin | apply IH; assumption].
Qed.

Lemma assoc_put_keeps_gen k v (l : list (K * V)) k' :
  In k' (map fst l) -> In k' (map fst (assoc_put eqk k v l)).
Proof.
  induction l as [|[k0 v0] l IH]; simpl; [tauto |].
  destruct (eqk k k0); simpl; intros [H | H]; auto.
Qed.

Lemma assoc_put_present_gen k v (l : list (K * V)) :
  eqk k k = true -> exists k', In (k', v) (assoc_put eqk k v l) /\ eqk k k' = true.
Proof.
  intro Hk. induction l as [|[k0 v0] l IH]; simpl.
  - exists k. split; [left; reflexivity | exact Hk].
  - destruct (eqk k k0) eqn:E.
    + exists k0. split; [left; reflexivity | exact E].
    + destruct IH as [k' [Hin Hk']]. exists k'. split; [right; exact Hin | exact Hk'].
Qed.

Lemma assoc_put_in_gen k v (l : list (K * V)) kv :
  eqk k k = true ->
  ForallOrdPairs (fun x y => eqk (fst x) (fst y) = false) l ->
  In kv (assoc_put eqk k v l) ->
  (eqk k (fst kv) = false /\ In kv l) \/ (eqk k (fst kv) = true /\ snd kv = v).
Proof.
  intros Hkk Hu. induction l as [|[k0 v0] l IH]; simpl.
  - intros [<- | []]. right. split; [exact Hkk | reflexivity].
  - inversion Hu as [|x l' Hhd Htl]; subst.
    destruct (eqk k k0) eqn:E.
    + intros [<- | Hin]; [right; split; [exact E | reflexivity] |].
      left. split; [| right; exact Hin].
      rewrite Forall_forall in Hhd. specialize (Hhd kv Hin). simpl in Hhd.
      destruct (eqk k (fst kv)) eqn:E2; [| reflexivity].
      rewrite eqk_sym in E. rewrite (eqk_trans _ _ _ E E2) in Hhd. discriminate.
    + intros [<- | Hin]; [left; split; [exact E | left; reflexivity] |].
      destruct (IH Htl Hin) as [[H1 H2] | H]; [left; split; [exact H1 | right; exact H2] |].
      right. exact H.
Qed.

Lemma assoc_put_keys_gen k v (l : list (K * V)) kv :
  In kv (assoc_put eqk k v l) -> In (fst kv) (map fst l) \/ fst kv = k.
Proof.
  induction l as [|[k0 v0] l IH]; simpl.
  - intros [<- | []]. right. reflexivity.
  - destruct (eqk k k0).
    + intros [<- | Hin]; [left; left; reflexivity |].
      left; right. apply in_map. exact Hin.
    + intros [<- | Hin]; [left; left; reflexivity |].
      destruct (IH Hin) as [H | H]; [left; right; exact H | right; exact H].
Qed.

Lemma assoc_put_unique_gen k v (l : list (K * V)) :
  ForallOrdPairs (fun x y => eqk (fst x) (fst y) = false) l ->
  ForallOrdPairs (fun x y => eqk (fst x) (fst y) = false) (assoc_put eqk k v l).
Proof.
  induction l as [|[k0 v0] l IH]; simpl; intro Hu.
  - repeat constructor.
  - inversion Hu as [|x l' Hhd Htl]; subst.
    destruct (eqk k k0) eqn:E.
    + constructor; [exact Hhd | exact Htl].
    + constructor; [| apply IH; exact Htl].
      apply Forall_forall. intros kv Hin. simpl.
      destruct (assoc_put_keys_gen k v l kv Hin) as [Hk | Hk].
      * apply in_map_iff in Hk as [kv' [Hf Hin']].
        rewrite Forall_forall in Hhd. rewrite <- Hf. exact (Hhd kv' Hin').
      * rewrite Hk, eqk_sym. exact E.
Qed.

Lemma assoc_find_none_gen k (l : list (K * V)) :
  assoc_find eqk k l = None -> forall kv, In kv l -> eqk k (fst kv) = false.
Proof.
  induction l as [|[k0 v0] l IH]; simpl; [tauto |].
  destruct (eqk k k0) eqn:E; [discriminate |].
  intros H kv [<- | Hin]; [exact E | apply IH; assumption].
Qed.

Lemma assoc_find_some_gen k (l : list (K * V)) v :
  assoc_find eqk k l = Some v -> exists k', In (k', v) l /\ eqk k k' = true.
Proof.
  induction l as [|[k0 v0] l IH]; simpl; [discriminate |].
  destruct (eqk k k0) eqn:E.
  - intro H; injection H as <-. eauto.
  - intro H. destruct (IH H) as [k' [Hin Hk]]. eauto.
Qed.

End AssocGen.

(** ** Network nodes *)

Lemma key_eq_congr a b x : key_eq a b = true -> key_eq a x = key_eq b x.
Proof.
  intro H. destruct (key_eq a x) eqn:E1, (key_eq b x) eqn:E2; auto.
  - rewrite key_eq_sym in H. rewrite (key_eq_trans _ _ _ H E1) in E2. discriminate.
  - rewrite (key_eq_trans _ _ _ H E2) in E1. discriminate.
Qed.

Lemma existsb_key_eq_of_key_eq a b l :
  key_eq a b = true -> existsb (key_eq a) l = existsb (key_eq b) l.
Proof.
  intro H. induction l as [|x l IH]; simpl; [reflexivity |].
  rewrite (key_eq_congr _ _ x H), IH. reflexivity.
Qed.

Lemma keys_incl (ns ns' : node_map) :
  (forall kv, In kv ns -> In kv ns') -> forall k, In k (map fst ns) -> In k (map fst ns').
Proof.
  intros Hs k Hk. apply in_map_iff in Hk as [kv [<- Hin]]. apply in_map. auto.
Qed.

Lemma node_key_in_mono x (ns ns' : node_map) :
  (forall k, In k (map fst ns) -> In k (map fst ns')) -> node_key_in x ns -> node_key_in x ns'.
Proof. intros Hs [k [Hin Hk]]. exists k. auto. Qed.

Lemma group_node_ok_mono ids hl (ns ns' : node_map) g :
  (forall kv, In kv ns -> In kv ns') -> group_node_ok ids hl ns g -> group_node_ok ids hl ns' g.
Proof.
  intros Hs Hg Ht. destruct (Hg Ht) as [kv [Hin H]]. exists kv. auto.
Qed.

Lemma network_tx_step_inv ids hl gid ns es tx ns' es' :
  net_inv ids hl ns es -> node_key_in gid ns ->
  network_tx_step gid (ns, es) tx = Ok (ns', es') ->
  net_inv ids hl ns' es' /\ (forall kv, In kv ns -> In kv ns').
Proof.
  intros [Hu [Hok Hes]] Hg H. unfold network_tx_step in H.
  set (cp := dict_get (ptx_fields tx) "counterparty_id") in H.
  destruct (truthy cp) eqn:Ecp; cbn [negb] in H.
  2:{ injection H as <- <-. split; [split; [| split]; assumption | tauto]. }
  destruct (hashable cp) eqn:Eh; cbn [negb] in H; [| discriminate].
  apply bind_ok_inv in H as [ns1 [Hns1 H]].
  assert (Hn1 : ForallOrdPairs (fun x y => key_eq (fst x) (fst y) = false) ns1 /\
                Forall (node_entry_ok ids hl) ns1 /\
                (forall kv, In kv ns -> In kv ns1) /\ node_key_in cp ns1).
  { destruct (assoc_find key_eq cp ns) as [n|] eqn:Ef.
    - injection Hns1 as <-. split; [exact Hu | split; [exact Hok | split; [tauto |]]].
      destruct (assoc_find_some_gen key_eq cp ns n Ef) as [k' [Hin Hk]].
      exists k'. split; [apply (in_map fst) in Hin; exact Hin | exact Hk].
    - apply bind_ok_inv in Hns1 as [lbl [_ Hns1]]. injection Hns1 as <-.
      pose proof (key_eq_refl _ Eh) as Hkk.
      split; [apply assoc_put_unique_gen; [exact key_eq_sym | exact Hu] |].
      split.
      + apply Forall_forall. intros kv Hin.
        destruct (assoc_put_in_gen key_eq key_eq_sym key_eq_trans _ _ _ kv Hkk Hu Hin)
          as [[_ Hin'] | [Hk Hv]].
        * rewrite Forall_forall in Hok. exact (Hok kv Hin').
        * unfold node_entry_ok. rewrite Hv. simpl. split; [| discriminate].
          rewrite key_eq_sym. exact Hk.
      + split.
        * intros kv Hin. apply assoc_put_other_gen; [| exact Hin].
          exact (assoc_find_none_gen key_eq cp ns Ef kv Hin).
        * destruct (assoc_put_present_gen key_eq cp
            (NetworkNode.mk cp lbl "counterparty" None None None false) ns Hkk)
            as [k' [Hin Hk]].
          exists k'. split; [apply (in_map fst) in Hin; exact Hin | exact Hk]. }
  destruct Hn1 as [Hu1 [Hok1 [Hsub1 Hcp1]]].
  apply bind_ok_inv in H as [amt [_ H]]. apply bind_ok_inv in H as [dir [_ H]].
  injection H as <- <-.
  split; [split; [exact Hu1 | split; [exact Hok1 |]] | exact Hsub1].
  pose proof (keys_incl _ _ Hsub1) as Hk1.
  apply Forall_forall. intros kv Hin.
  destruct (assoc_put_keys _ _ _ _ Hin) as [Hk | Hk].
  - apply in_map_iff in Hk as [kv' [Hf Hin']]. rewrite Forall_forall in Hes.
    destruct (Hes kv' Hin') as [A B]. rewrite <- Hf.
    split; eapply node_key_in_mono; eauto.
  - rewrite Hk. unfold edge_key.
    destruct (str_mem dir incoming_directions); simpl;
      split; first [exact Hcp1 | eapply node_key_in_mono; eauto].
Qed.

Lemma network_tx_fold_inv ids hl gid txs ns es ns' es' :
  fold_result (network_tx_step gid) txs (ns, es) = Ok (ns', es') ->
  net_inv ids hl ns es -> node_key_in gid ns ->
  net_inv ids hl ns' es' /\ (forall kv, In kv ns -> In kv ns').
Proof.
  revert ns es. induction txs as [|tx txs IH]; intros ns es H Hinv Hg; simpl in H.
  - injection H as <- <-. split; [exact Hinv | tauto].
  - apply bind_ok_inv in H as [[ns1 es1] [H1 H]].
    destruct (network_tx_step_inv _ _ _ _ _ _ _ _ Hinv Hg H1) as [Hinv1 Hs1].
    destruct (IH _ _ H Hinv1 (node_key_in_mono _ _ _ (keys_incl _ _ Hs1) Hg)) as [Hinv2 Hs2].
    split; [exact Hinv2 | auto].
Qed.

Lemma network_group_step_inv ids rs hl ns es g ns' es' :
  set_of ids = Ok rs -> net_inv ids hl ns es ->
  network_group_step rs hl (ns, es) g = Ok (ns', es') ->
  net_inv ids hl ns' es' /\
  (forall g0, group_node_ok ids hl ns g0 -> group_node_ok ids hl ns' g0) /\
  group_node_ok ids hl ns' g.
Proof.
  intros Hrs [Hu [Hok Hes]] H. unfold network_group_step in H.
  destruct (truthy (group_id g)) eqn:Eg; cbn [negb] in H.
  2:{ injection H as <- <-. split; [split; [| split]; assumption |].
      split; [tauto | intro Ht; rewrite Eg in Ht; discriminate]. }
  apply bind_ok_inv in H as [h [Hh H]].
  destruct (hashable (group_id g)) eqn:Eh; cbn [negb] in H; [| discriminate].
  assert (Hhl : h = hl && existsb (key_eq (group_id g)) ids).
  { destruct hl; cbn [andb]; [exact (set_mem_of _ _ _ _ Hrs Hh) | injection Hh as <-; reflexivity]. }
  set (node := NetworkNode.mk (group_id g) (json_or (eg_display_name g) (group_id g)) "group"
                 (Some (risk_score (eg_metrics g))) (Some (member_count (eg_metrics g)))
                 (Some (total_amount (eg_metrics g))) h) in H.
  set (ns1 := assoc_put key_eq (group_id g) node ns) in H.
  pose proof (key_eq_refl _ Eh) as Hkk.
  assert (Hinv1 : net_inv ids hl ns1 es).
  { split; [apply assoc_put_unique_gen; [exact key_eq_sym | exact Hu] |]. split.
    - apply Forall_forall. intros kv Hin.
      destruct (assoc_put_in_gen key_eq key_eq_sym key_eq_trans _ _ _ kv Hkk Hu Hin)
        as [[_ Hin'] | [Hk Hv]].
      + rewrite Forall_forall in Hok. exact (Hok kv Hin').
      + unfold node_entry_ok. rewrite Hv. simpl. split; [rewrite key_eq_sym; exact Hk |].
        intro Hh1. rewrite Hhl in Hh1. apply andb_true_iff in Hh1 as [-> Hr].
        split; [reflexivity | split; [reflexivity | exact Hr]].
    - eapply Forall_impl; [| exact Hes]. intros kv [A B].
      split; (apply (node_key_in_mono _ ns); [intros k; apply assoc_put_keeps_gen |]);
        assumption. }
  destruct (assoc_put_present_gen key_eq (group_id g) node ns Hkk) as [k' [Hin' Hk']].
  assert (Hg1 : node_key_in (group_id g) ns1).
  { exists k'. split; [apply (in_map fst) in Hin'; exact Hin' | exact Hk']. }
  destruct (network_tx_fold_inv _ _ _ _ _ _ _ _ H Hinv1 Hg1) as [Hinv2 Hs2].
  split; [exact Hinv2 | split].
  - intros g0 Hc. apply (group_node_ok_mono _ _ ns1); [exact Hs2 |].
    intro Ht. destruct (Hc Ht) as [kv [Hin [Hk [Hkind Hhl0]]]].
    destruct (key_eq (group_id g) (fst kv)) eqn:E.
    + exists (k', node). split; [exact Hin' |]. simpl.
      assert (Hg0 : key_eq (group_id g0) (group_id g) = true).
      { rewrite (key_eq_sym (group_id g)) in E. exact (key_eq_trans _ _ _ Hk E). }
      split; [exact (key_eq_trans _ _ _ Hg0 Hk') |].
      split; [reflexivity |]. rewrite Hhl, (existsb_key_eq_of_key_eq _ _ ids Hg0). reflexivity.
    + exists kv. split; [apply assoc_put_other_gen; assumption | auto].
  - apply (group_node_ok_mono _ _ ns1); [exact Hs2 |]. intros _.
    exists (k', node). split; [exact Hin' |]. simpl.
    split; [exact Hk' | split; [reflexivity | exact Hhl]].
Qed.

Lemma network_group_fold_inv ids rs hl gs ns es ns' es' :
  set_of ids = Ok rs ->
  fold_result (network_group_step rs hl) gs (ns, es) = Ok (ns', es') ->
  net_inv ids hl ns es ->
  net_inv ids hl ns' es' /\
  (forall g0, group_node_ok ids hl ns g0 -> group_node_ok ids hl ns' g0) /\
  Forall (group_node_ok ids hl ns') gs.
Proof.
  intro Hrs. revert ns es. induction gs as [|g gs IH]; intros ns es H Hinv; simpl in H.
  - injection H as <- <-. split; [exact Hinv | split; [tauto | constructor]].
  - apply bind_ok_inv in H as [[ns1 es1] [H1 H]].
    destruct (network_group_step_inv _ _ _ _ _ _ _ _ Hrs Hinv H1) as [Hinv1 [Hold1 Hnew1]].
    destruct (IH _ _ H Hinv1) as [Hinv2 [Hold2 Hall2]].
    split; [exact Hinv2 | split; [auto | constructor; auto]].
Qed.

Lemma net_inv_nil ids hl : net_inv ids hl [] [].
Proof. split; [constructor | split; constructor]. Qed.

Lemma node_ids_unique (ns : node_map) :
  ForallOrdPairs (fun x y => key_eq (fst x) (fst y) = false) ns ->
  Forall (fun kv => key_eq (fst kv) (NetworkNode.id (snd kv)) = true) ns ->
  ForallOrdPairs (fun a b => key_eq (NetworkNode.id a) (NetworkNode.id b) = false) (map snd ns).
Proof.
  induction 1 as [|x l Hx Hl IH]; intro Hf; simpl; constructor.
  - inversion Hf as [|y l' Hxk Hlk]; subst.
    apply Forall_map. rewrite Forall_forall in Hx, Hlk |- *. intros y Hy.
    destruct (key_eq (NetworkNode.id (snd x)) (NetworkNode.id (snd y))) eqn:E; [| reflexivity].
    exfalso. pose proof (Hlk y Hy) as Hyk. rewrite key_eq_sym in Hyk.
    pose proof (key_eq_trans _ _ _ (key_eq_trans _ _ _ Hxk E) Hyk) as Hxy.
    rewrite (Hx y Hy) in Hxy. discriminate.
  - apply IH. inversion Hf; assumption.
Qed.

Lemma build_network_payload_inv gs ids hl r :
  build_network_payload gs ids hl = Ok r ->
  exists ns es, nodes r = map snd ns /\ edges r = map emit_edge es /\
    net_inv ids hl ns es /\ Forall (group_node_ok ids hl ns) gs.
Proof.
  unfold build_network_payload. intro H.
  apply bind_ok_inv in H as [rs [Hrs H]]. apply bind_ok_inv in H as [[ns es] [Hf H]].
  injection H as <-.
  destruct (network_group_fold_inv _ _ _ _ _ _ _ _ Hrs Hf (net_inv_nil ids hl))
    as [Hinv [_ Hall]].
  exists ns, es. auto.
Qed.

(** [build_network_payload] emits one node per id: no two nodes have
    matching ids. A node is highlighted only when [highlight_reported] is
    set, it is a group node and its id is among the reported ids; and every
    group with a truthy ["group_id"] has a group node under that id, which
    is highlighted exactly when [highlight_reported] is set and the id is
    reported. *)
Theorem build_network_payload_nodes gs ids hl r :
  build_network_payload gs ids hl = Ok r ->
  ForallOrdPairs (fun a b => key_eq (NetworkNode.id a) (NetworkNode.id b) = false) (nodes r) /\
  Forall (fun n => NetworkNode.highlight n = true ->
    hl = true /\ NetworkNode.kind n = "group"%string /\
    existsb (key_eq (NetworkNode.id n)) ids = true) (nodes r) /\
  Forall (fun g => truthy (group_id g) = true ->
    exists n, In n (nodes r) /\ key_eq (group_id g) (NetworkNode.id n) = true /\
      NetworkNode.kind n = "group"%string /\
      NetworkNode.highlight n = hl && existsb (key_eq (group_id g)) ids) gs.
Proof.
  intro H. destruct (build_network_payload_inv _ _ _ _ H) as [ns [es [Hn [_ [[Hu [Hok _]] Hall]]]]].
  rewrite Hn. split; [| split].
  - apply node_ids_unique; [exact Hu |].
    eapply Forall_impl; [| exact Hok]. intros kv [A _]. exact A.
  - apply Forall_map. eapply Forall_impl; [| exact Hok]. intros kv [_ B]. exact B.
  - eapply Forall_impl; [| exact Hall]. intros g Hg Ht.
    destruct (Hg Ht) as [kv [Hin [Hk [Hkind Hhl]]]].
    exists (snd kv). split; [apply in_map; exact Hin |].
    rewrite Forall_forall in Hok. destruct (Hok kv Hin) as [Hid _].
    split; [exact (key_eq_trans _ _ _ Hk Hid) | split; assumption].
Qed.

(** Every edge of [build_network_payload] joins two nodes of the payload:
    its source and its target each match the id of a node. *)
Theorem build_network_payload_endpoints gs ids hl r :
  build_network_payload gs ids hl = Ok r ->
  Forall (fun e =>
    (exists n, In n (nodes r) /\ key_eq (NetworkEdge.source e) (NetworkNode.id n) = true) /\
    (exists n, In n (nodes r) /\ key_eq (NetworkEdge.target e) (NetworkNode.id n) = true))
    (edges r).
Proof.
  intro H. destruct (build_network_payload_inv _ _ _ _ H) as [ns [es [Hn [He [[_ [Hok Hes]] _]]]]].
  rewrite Hn, He. apply Forall_map. rewrite Forall_forall in Hok.
  eapply Forall_impl; [| exact Hes]. intros [[s d] data] [[ks [Hks Hs]] [kd [Hkd Hd]]].
  simpl in *.
  apply in_map_iff in Hks as [kvs [<- Hins]]. apply in_map_iff in Hkd as [kvd [<- Hind]].
  split.
  - exists (snd kvs). split; [apply in_map; exact Hins |].
    exact (key_eq_trans _ _ _ Hs (proj1 (Hok kvs Hins))).
  - exists (snd kvd). split; [apply in_map; exact Hind |].
    exact (key_eq_trans _ _ _ Hd (proj1 (Hok kvd Hind))).
Qed.

Lemma build_network_payload_nodes_witness :
  build_network_payload [network_group; seen_group] [JStr "G7"] true = Ok two_group_payload /\
  List.length (nodes two_group_payload) = 4%nat /\
  Forall (fun n => NetworkNode.highlight n = true ->
    true = true /\ NetworkNode.kind n = "group"%string /\
    existsb (key_eq (NetworkNode.id n)) [JStr "G7"] = true) (nodes two_group_payload).
Proof.
  assert (H : build_network_payload [network_group; seen_group] [JStr "G7"] true =
    Ok two_group_payload) by (vm_compute; reflexivity).
  split; [exact H | split; [vm_compute; reflexivity |]].
  exact (proj1 (proj2 (build_network_payload_nodes _ _ _ _ H))).
Defined.

Lemma build_network_payload_endpoints_witness :
  build_network_payload [network_group; seen_group] [JStr "G7"] true = Ok two_group_payload /\
  List.length (edges two_group_payload) = 5%nat /\
  Forall (fun e =>
    (exists n, In n (nodes two_group_payload) /\ key_eq (NetworkEdge.source e) (NetworkNode.id n) = true) /\
    (exists n, In n (nodes two_group_payload) /\ key_eq (NetworkEdge.target e) (NetworkNode.id n) = true))
    (edges two_group_payload).
Proof.
  assert (H : build_network_payload [network_group; seen_group] [JStr "G7"] true =
    Ok two_group_payload) by (vm_compute; reflexivity).
  split; [exact H | split; [vm_compute; reflexivity |]].
  exact (build_network_payload_endpoints _ _ _ _ H).
Defined.

(** ** Reported ids after a report *)

Lemma reported_ids_of_app l1 l2 :
  reported_ids_of (l1 ++ l2) =
    (let* a := reported_ids_of l1 in let* b := reported_ids_of l2 in Ok (a ++ b)).
Proof.
  induction l1 as [|e l1 IH]; simpl.
  - destruct (reported_ids_of l2); reflexivity.
  - destruct (json_get e "group_id") as [gid|]; simpl; [| reflexivity].
    rewrite IH. destruct (reported_ids_of l1) as [a|]; simpl; [| reflexivity].
    destruct (reported_ids_of l2) as [b|]; simpl; [| reflexivity].
    destruct (truthy gid); reflexivity.
Qed.

(** After a successful [submit_report], [_reported_ids] is the former list
    with the request's group id appended (nothing is appended for an empty
    id); when the former ledger made [_reported_ids] raise, it still
    raises. *)
Theorem submit_report_reported_ids utc_now req st rec n st' :
  submit_report utc_now req st = (Ok (rec, n), st') ->
  reported_ids_of (svc_reports st') =
    (let* ids := reported_ids_of (svc_reports st) in
     Ok (if String.eqb (req_group_id req) "" then ids else ids ++ [JStr (req_group_id req)])).
Proof.
  unfold submit_report.
  destruct (String.eqb (strip (req_reason req)) "") ; [discriminate |].
  destruct (find_group (svc_groups st) (req_group_id req)) as [target|]; [| discriminate].
  intro H. injection H as <- _ <-. simpl svc_reports.
  rewrite reported_ids_of_app.
  destruct (reported_ids_of (svc_reports st)) as [ids|]; simpl; [| reflexivity].
  unfold truthy. destruct (String.eqb (req_group_id req) ""); simpl.
  - rewrite app_nil_r. reflexivity.
  - reflexivity.
Qed.

Lemma submit_report_reported_ids_witness :
  submit_report "2024-05-01T12:00:00" (mk_request "G7" "shared device" ["circular flow"%string])
    (mk_service [seen_group] []) =
    (Ok (report_payload "2024-05-01T12:00:00"
           (mk_request "G7" "shared device" ["circular flow"%string]) (eg_metrics seen_group), 1),
     mk_service [seen_group]
       [report_payload "2024-05-01T12:00:00"
          (mk_request "G7" "shared device" ["circular flow"%string]) (eg_metrics seen_group)]) /\
  reported_ids_of
    [report_payload "2024-05-01T12:00:00"
       (mk_request "G7" "shared device" ["circular flow"%string]) (eg_metrics seen_group)] =
    Ok [JStr "G7"].
Proof.
  assert (H : submit_report "2024-05-01T12:00:00"
    (mk_request "G7" "shared device" ["circular flow"%string]) (mk_service [seen_group] []) =
    (Ok (report_payload "2024-05-01T12:00:00"
           (mk_request "G7" "shared device" ["circular flow"%string]) (eg_metrics seen_group), 1),
     mk_service [seen_group]
       [report_payload "2024-05-01T12:00:00"
          (mk_request "G7" "shared device" ["circular flow"%string]) (eg_metrics seen_group)]))
    by (vm_compute; reflexivity).
  split; [exact H |].
  exact (submit_report_reported_ids _ _ _ _ _ _ H).
Defined.

(** ** Settings *)

Lemma strip_filter_nonempty ss :
  Forall (fun c => c <> ""%string)
    (map strip (filter (fun s => negb (String.eqb (strip s) "")) ss)).
Proof.
  induction ss as [|s ss IH]; simpl; [constructor |].
  destruct (String.eqb (strip s) "") eqn:E; simpl; [exact IH |].
  constructor; [| exact IH]. intro H. rewrite H in E. discriminate.
Qed.

(** The report checks of [AppSettings.from_payload] are never empty and
    none of them is the empty string: blank configured entries are
    dropped, and the defaults are used when none is left. *)
Theorem from_payload_report_checks py_str payload s :
  from_payload py_str payload = Ok s ->
  report_checks s <> [] /\ Forall (fun c => c <> ""%string) (report_checks s).
Proof.
  unfold from_payload. intro H.
  apply bind_ok_inv in H as [t [_ H]]. apply bind_ok_inv in H as [h [_ H]].
  apply bind_ok_inv in H as [sh [_ H]]. injection H as <-. simpl.
  assert (Hd : DEFAULT_REPORT_CHECKS <> [] /\
               Forall (fun c => c <> ""%string) DEFAULT_REPORT_CHECKS).
  { split; [discriminate | repeat constructor; discriminate]. }
  repeat match goal with
  | |- context [match ?x with JNull => _ | _ => _ end] => destruct x
  | |- context [match strs_of ?l with Some _ => _ | None => _ end] => destruct (strs_of l)
  end; try exact Hd.
  pose proof (strip_filter_nonempty l0) as Hf.
  destruct (map strip (filter (fun s => negb (String.eqb (strip s) "")) l0)) as [|c cs].
  - exact Hd.
  - split; [discriminate | exact Hf].
Qed.

Lemma from_payload_report_checks_witness :
  from_payload str_of_json padded_settings =
    Ok (mk_settings "AML" true true ["circular flow"%string; "shell company"%string]) /\
  ["circular flow"%string; "shell company"%string] <> [].
Proof.
  assert (H : from_payload str_of_json padded_settings =
    Ok (mk_settings "AML" true true ["circular flow"%string; "shell company"%string]))
    by (vm_compute; reflexivity).
  split; [exact H |].
  exact (proj1 (from_payload_report_checks _ _ _ H)).
Defined.

(** [AppSettings.from_payload] raises only [AttributeError], and it raises
    exactly when the payload is a dict whose ["ui"] entry is present and is
    not a dict; a payload that is not a dict, or any ["reporting"] value,
    is accepted. *)
Theorem from_payload_error py_str payload :
  (forall e, from_payload py_str payload = Err e -> e = AttributeError) /\
  ((exists e, from_payload py_str payload = Err e) <->
   exists d, payload = JObj d /\ forall d', dict_get_default d "ui" (JObj []) <> JObj d').
Proof.
  assert (Hgd : forall ui k dflt, json_get_default ui k dflt =
                  match ui with JObj d => Ok (dict_get_default d k dflt) | _ => Err AttributeError end)
    by (intros; destruct ui; reflexivity).
  assert (Hg : forall ui k, json_get ui k =
                  match ui with JObj d => Ok (dict_get d k) | _ => Err AttributeError end)
    by (intros; destruct ui; reflexivity).
  unfold from_payload. rewrite !Hg, !Hgd.
  destruct payload as [| | | | | |d]; cbn [bind];
    try (split; [intros e H; discriminate | split; [intros [e H]; discriminate |
         intros [d [H _]]; discriminate]]).
  destruct (dict_get_default d "ui" (JObj [])) as [| | | | | |u] eqn:Eu; cbn [bind];
    try (split; [intros e H; injection H as <-; reflexivity |
         split; [intros _; exists d; split; [reflexivity | intros d' H; rewrite Eu in H; discriminate] |
                 intros _; exists AttributeError; reflexivity]]).
  split; [intros e H; discriminate |].
  split; [intros [e H]; discriminate |].
  intros [d' [Hd Hn]]. injection Hd as <-. exfalso. exact (Hn u Eu).
Qed.

(** ** Transaction amount range *)

Lemma f_nlt_le a b :
  f_is_nan a = false -> f_is_nan b = false -> f_lt a b = false -> f_le b a = true.
Proof.
  destruct a, b; simpl; intros; try discriminate; auto.
  unfold Qlt_bool in *. apply negb_false_iff. assumption.
Qed.

Lemma py_min2_le_l a v : f_is_nan a = false -> f_le (py_min2 a v) a = true.
Proof.
  unfold py_min2. destruct (f_lt v a) eqn:E; intro Ha; [apply f_lt_le; exact E |].
  apply f_le_refl; exact Ha.
Qed.

Lemma py_min2_le_r a v :
  f_is_nan a = false -> f_is_nan v = false -> f_le (py_min2 a v) v = true.
Proof.
  unfold py_min2. destruct (f_lt v a) eqn:E; intros Ha Hv; [apply f_le_refl; exact Hv |].
  apply f_nlt_le; assumption.
Qed.

Lemma py_max2_ge_l a v : f_is_nan a = false -> f_le a (py_max2 a v) = true.
Proof.
  unfold py_max2, f_gt. destruct (f_lt a v) eqn:E; intro Ha; [apply f_lt_le; exact E |].
  apply f_le_refl; exact Ha.
Qed.

Lemma py_max2_ge_r a v :
  f_is_nan a = false -> f_is_nan v = false -> f_le v (py_max2 a v) = true.
Proof.
  unfold py_max2, f_gt. destruct (f_lt a v) eqn:E; intros Ha Hv; [apply f_le_refl; exact Hv |].
  apply f_nlt_le; assumption.
Qed.

Lemma py_min2_in a v : py_min2 a v = a \/ py_min2 a v = v.
Proof. unfold py_min2. destruct (f_lt v a); auto. Qed.

Lemma py_max2_in a v : py_max2 a v = a \/ py_max2 a v = v.
Proof. unfold py_max2. destruct (f_gt v a); auto. Qed.

Lemma amount_inv_nil : amount_inv None None [].
Proof.
  unfold amount_inv. repeat split; try discriminate; intros; constructor.
Qed.

Lemma amount_inv_add mn mx amts v :
  amount_inv mn mx amts ->
  amount_inv (Some (match mn with None => v | Some m => py_min2 m v end))
             (Some (match mx with None => v | Some m => py_max2 m v end)) (amts ++ [v]).
Proof.
  intros [Hn1 [Hn2 [Hlo [Hhi Hb]]]].
  assert (Hne : amts ++ [v] <> []) by (destruct amts; discriminate).
  split; [split; [discriminate | intro H; contradiction] |].
  split; [split; [discriminate | intro H; contradiction] |].
  split; [| split].
  - intros lo H; injection H as <-. apply in_or_app.
    destruct mn as [m|]; [| right; left; reflexivity].
    destruct (py_min2_in m v) as [-> | ->]; [left; apply Hlo; reflexivity | right; left; reflexivity].
  - intros hi H; injection H as <-. apply in_or_app.
    destruct mx as [m|]; [| right; left; reflexivity].
    destruct (py_max2_in m v) as [-> | ->]; [left; apply Hhi; reflexivity | right; left; reflexivity].
  - intro Hnan. apply Forall_app in Hnan as [Hnan Hv]. inversion Hv as [|x l Hvn _]; subst.
    rewrite Forall_forall in Hnan.
    destruct amts as [|w ws].
    + assert (mn = None) as -> by (apply Hn1; reflexivity).
      assert (mx = None) as -> by (apply Hn2; reflexivity).
      simpl. constructor; [| constructor].
      exists v, v. split; [reflexivity | split; [reflexivity |]].
      split; apply f_le_refl; exact Hvn.
    + destruct mn as [m1|]; [| discriminate (proj1 Hn1 eq_refl)].
      destruct mx as [m2|]; [| discriminate (proj1 Hn2 eq_refl)].
      assert (Hm1 : f_is_nan m1 = false) by (apply Hnan, Hlo; reflexivity).
      assert (Hm2 : f_is_nan m2 = false) by (apply Hnan, Hhi; reflexivity).
      specialize (Hb (proj2 (Forall_forall _ _) Hnan)).
      apply Forall_app. split.
      * eapply Forall_impl; [| exact Hb]. intros x [lo [hi [Elo [Ehi [H1 H2]]]]].
        injection Elo as <-. injection Ehi as <-.
        exists (py_min2 m1 v), (py_max2 m2 v). split; [reflexivity | split; [reflexivity |]].
        split; [apply f_le_trans with m1; [apply py_min2_le_l; exact Hm1 | exact H1] |].
        apply f_le_trans with m2; [exact H2 | apply py_max2_ge_l; exact Hm2].
      * constructor; [| constructor].
        exists (py_min2 m1 v), (py_max2 m2 v). split; [reflexivity | split; [reflexivity |]].
        split; [apply py_min2_le_r | apply py_max2_ge_r]; assumption.
Qed.

Lemma enrich_step_amounts a tx a' :
  enrich_step a tx = Ok a' ->
  amount_inv (acc_min a) (acc_max a) (flat_map tx_amount_of (acc_parsed a)) ->
  amount_inv (acc_min a') (acc_max a') (flat_map tx_amount_of (acc_parsed a')).
Proof.
  destruct tx as [| | | | | | d]; simpl; try discriminate.
  intro H. apply bind_ok_inv in H as [[[total mn] mx] [Hamt H]].
  apply bind_ok_inv in H as [cps [_ H]]. apply bind_ok_inv in H as [dir [_ H]].
  apply bind_ok_inv in H as [ts [_ H]]. injection H as <-. cbn [acc_min acc_max acc_parsed].
  rewrite flat_map_app. cbn [flat_map]. rewrite app_nil_r.
  change (tx_amount_of (mk_parsed_tx d ts)) with
    (match numeric_amount (dict_get d "amount") with Some (Ok v) => [v] | _ => [] end).
  destruct (numeric_amount (dict_get d "amount")) as [r|].
  - apply bind_ok_inv in Hamt as [v [-> Hamt]]. injection Hamt as <- <- <-.
    apply amount_inv_add.
  - injection Hamt as <- <- <-. rewrite app_nil_r. exact (fun H => H).
Qed.

Lemma fold_enrich_amounts txs a a' :
  fold_result enrich_step txs a = Ok a' ->
  amount_inv (acc_min a) (acc_max a) (flat_map tx_amount_of (acc_parsed a)) ->
  amount_inv (acc_min a') (acc_max a') (flat_map tx_amount_of (acc_parsed a')).
Proof.
  revert a; induction txs as [|tx txs IH]; intros a H; simpl in H.
  - injection H as <-. exact (fun H => H).
  - apply bind_ok_inv in H as [a1 [H1 H]]. intro Hinv.
    exact (IH _ H (enrich_step_amounts _ _ _ H1 Hinv)).
Qed.

(** [min_transaction_amount] and [max_transaction_amount] of an enriched
    group are [None] exactly when no transaction has an int or float
    amount; otherwise each is one of those amounts and, when none of them
    is NaN, every amount lies between them. *)
Theorem enrich_group_amount_range raw g :
  enrich_group raw = Ok g ->
  let m := eg_metrics g in
  let amts := flat_map tx_amount_of (eg_transactions g) in
  (min_transaction_amount m = None <-> amts = []) /\
  (max_transaction_amount m = None <-> amts = []) /\
  (forall lo, min_transaction_amount m = Some lo -> In lo amts) /\
  (forall hi, max_transaction_amount m = Some hi -> In hi amts) /\
  (Forall (fun v => f_is_nan v = false) amts ->
   Forall (fun v => exists lo hi, min_transaction_amount m = Some lo /\
                      max_transaction_amount m = Some hi /\
                      f_le lo v = true /\ f_le v hi = true) amts).
Proof.
  unfold enrich_group. intro H.
  apply bind_ok_inv in H as [txs [_ H]]. apply bind_ok_inv in H as [a [Ha H]].
  apply bind_ok_inv in H as [tc [_ H]]. apply bind_ok_inv in H as [mc [_ H]].
  apply bind_ok_inv in H as [risk [_ H]]. apply bind_ok_inv in H as [first [_ H]].
  apply bind_ok_inv in H as [last [_ H]]. apply bind_ok_inv in H as [name [_ H]].
  injection H as <-. simpl.
  exact (fold_enrich_amounts _ _ _ Ha amount_inv_nil).
Qed.

Lemma enrich_group_amount_range_witness :
  enrich_group seen_raw = Ok seen_group /\
  min_transaction_amount (eg_metrics seen_group) = Some (fz 5) /\
  (forall lo, min_transaction_amount (eg_metrics seen_group) = Some lo ->
     In lo (flat_map tx_amount_of (eg_transactions seen_group))).
Proof.
  assert (H : enrich_group seen_raw = Ok seen_group) by (vm_compute; reflexivity).
  split; [exact H | split; [vm_compute; reflexivity |]].
  exact (proj1 (proj2 (proj2 (enrich_group_amount_range _ _ H)))).
Defined.

(** ** [GroupService.list_groups] *)

(** In [list_groups], the aggregate that [summarize_groups] computes over
    the groups [filter_groups] keeps bounds each listed group: its risk
    score lies between [min_risk] and [max_risk], which lie in [1, 99], and
    its [first_seen] and [last_seen] between [min_date] and [max_date]. *)
Theorem list_groups_aggregate_covers (raws : list dict) (gs : list egroup) (f : GroupFilters.t)
  (ids : list json) (fs : list egroup) (s : SummaryStats.t) :
  map_result enrich_group raws = Ok gs ->
  filter_groups gs f ids = Ok fs ->
  summarize_groups fs = Ok s ->
  Forall (fun g =>
    (exists lo hi, SummaryStats.min_risk s = Some lo /\ SummaryStats.max_risk s = Some hi /\
       1 <= lo <= risk_score (eg_metrics g) /\ risk_score (eg_metrics g) <= hi <= 99) /\
    (forall t, In t (opt_list (first_seen (eg_metrics g)) ++ opt_list (last_seen (eg_metrics g))) ->
       exists lo hi, SummaryStats.min_date s = Some lo /\ SummaryStats.max_date s = Some hi /\
         dt_le_b lo t = true /\ dt_le_b t hi = true)) fs.
Proof.
  intros Hgs Hf Hs. apply (summarize_enriched_covers fs s); [| exact Hs].
  unfold filter_groups in Hf. apply bind_ok_inv in Hf as [rs [_ Hf]].
  apply filter_result_ok in Hf as [_ ->].
  apply map_result_ok in Hgs. rewrite Forall_forall in Hgs |- *.
  intros g Hg. apply filter_In in Hg as [Hg _].
  destruct (Hgs g Hg) as [raw [_ Hraw]]. exists raw. exact Hraw.
Qed.

Lemma list_groups_aggregate_covers_witness :
  (map_result enrich_group [seen_raw; ratio_raw] = Ok [seen_group; ratio_group] /\
   filter_groups [seen_group; ratio_group] reported_only_filters [JStr "G7"] = Ok listed_groups /\
   summarize_groups listed_groups = Ok listed_summary) /\
  listed_groups = [seen_group] /\
  Forall (fun g =>
    (exists lo hi, SummaryStats.min_risk listed_summary = Some lo /\
       SummaryStats.max_risk listed_summary = Some hi /\
       1 <= lo <= risk_score (eg_metrics g) /\ risk_score (eg_metrics g) <= hi <= 99) /\
    (forall t, In t (opt_list (first_seen (eg_metrics g)) ++ opt_list (last_seen (eg_metrics g))) ->
       exists lo hi, SummaryStats.min_date listed_summary = Some lo /\
         SummaryStats.max_date listed_summary = Some hi /\
         dt_le_b lo t = true /\ dt_le_b t hi = true)) listed_groups.
Proof.
  assert (H1 : map_result enrich_group [seen_raw; ratio_raw] = Ok [seen_group; ratio_group])
    by (vm_compute; reflexivity).
  assert (H2 : filter_groups [seen_group; ratio_group] reported_only_filters [JStr "G7"] =
                 Ok listed_groups) by (vm_compute; reflexivity).
  assert (H3 : summarize_groups listed_groups = Ok listed_summary) by (vm_compute; reflexivity).
  split; [split; [exact H1 | split; [exact H2 | exact H3]] |].
  split; [vm_compute; reflexivity |].
  exact (list_groups_aggregate_covers _ _ _ _ _ _ H1 H2 H3).
Defined.
